(** * stat_functions: descriptive statistics and percentile goals

    A shallow embedding of [src/stat_functions.py] ([analyze_array] and
    [goal_maker]) together with the NumPy routines they call, and the
    properties of the percentile-rank engine stated against it.

    Numbers.  The functions are embedded twice.  In the first embedding a
    NumPy [float64] is modelled by [float64] below: a finite value carried
    as an exact rational, the two infinities, and NaN.  The special values
    follow IEEE 754 (NaN is absorbing, [inf - inf] and [0/0] are NaN, every
    comparison with NaN is false); arithmetic on finite values is exact,
    i.e. rounding and signed zeros are left out.  It carries the properties
    of the rank formulas and of counting.  The second embedding (module
    [B64]) evaluates the same code in IEEE 754 binary64, bit for bit, and
    keeps the [decimals] argument of the printing; it carries the
    properties that depend on rounding, on overflow, or on what is raised.

    Effects.  Both functions print a report and return [None]; the model
    returns the values that are printed, as a record.  Exceptions are the
    [Raise] case of the [result] monad. *)

From Stdlib Require Import QArith Qround Qabs Lqa ZArith NArith Lia List Bool String Ascii.
From Stdlib Require Import Permutation Sorted.
From Stdlib Require Import SpecFloat.
Import ListNotations.
Open Scope Q_scope.

(** ** float64 values *)

Module Float.

Inductive float64 : Type :=
| Finite (q : Q)
| PosInf
| NegInf
| NaN.

Definition of_Z (z : Z) : float64 := Finite (inject_Z z).
Definition of_nat (k : nat) : float64 := of_Z (Z.of_nat k).

Definition is_nan (a : float64) : bool :=
  match a with NaN => true | _ => false end.

Definition is_finite (a : float64) : bool :=
  match a with Finite _ => true | _ => false end.

Definition Qltb (a b : Q) : bool := negb (Qle_bool b a).

Definition fopp (a : float64) : float64 :=
  match a with
  | Finite q => Finite (- q)
  | PosInf => NegInf
  | NegInf => PosInf
  | NaN => NaN
  end.

Definition fadd (a b : float64) : float64 :=
  match a, b with
  | NaN, _ | _, NaN => NaN
  | Finite x, Finite y => Finite (x + y)
  | PosInf, NegInf | NegInf, PosInf => NaN
  | PosInf, _ | _, PosInf => PosInf
  | NegInf, _ | _, NegInf => NegInf
  end.

Definition fsub (a b : float64) : float64 := fadd a (fopp b).

(** An infinity scaled by a finite factor: the sign of the factor decides,
    and a zero factor gives NaN. *)
Definition scale_inf (inf : float64) (q : Q) : float64 :=
  match q ?= 0 with
  | Eq => NaN
  | Gt => inf
  | Lt => fopp inf
  end.

Definition fmul (a b : float64) : float64 :=
  match a, b with
  | NaN, _ | _, NaN => NaN
  | Finite x, Finite y => Finite (x * y)
  | Finite x, PosInf => scale_inf PosInf x
  | Finite x, NegInf => scale_inf NegInf x
  | PosInf, Finite y => scale_inf PosInf y
  | NegInf, Finite y => scale_inf NegInf y
  | PosInf, PosInf | NegInf, NegInf => PosInf
  | PosInf, NegInf | NegInf, PosInf => NegInf
  end.

(** NumPy division: dividing by zero is not an exception (a warning at
    most); [0/0] is NaN and [x/0] an infinity with the sign of [x]. *)
Definition fdiv (a b : float64) : float64 :=
  match a, b with
  | NaN, _ | _, NaN => NaN
  | Finite x, Finite y =>
      if Qeq_bool y 0 then scale_inf PosInf x else Finite (x / y)
  | Finite _, _ => Finite 0
  | inf, Finite y => if Qltb y 0 then fopp inf else inf
  | _, _ => NaN
  end.

Definition fltb (a b : float64) : bool :=
  match a, b with
  | NaN, _ | _, NaN => false
  | Finite x, Finite y => Qltb x y
  | NegInf, NegInf | PosInf, _ => false
  | NegInf, _ | _, PosInf => true
  | _, NegInf => false
  end.

Definition fleb (a b : float64) : bool :=
  match a, b with
  | NaN, _ | _, NaN => false
  | Finite x, Finite y => Qle_bool x y
  | NegInf, _ | _, PosInf => true
  | PosInf, _ | _, NegInf => false
  end.

(** Square root, given the rounding [sqrtQ] of the real square root on
    non-negative finite values. *)
Definition fsqrt (sqrtQ : Q -> Q) (a : float64) : float64 :=
  match a with
  | Finite q => if Qltb q 0 then NaN else Finite (sqrtQ q)
  | PosInf => PosInf
  | NegInf | NaN => NaN
  end.

(** Equality of values: rational equality on finite values. *)
Definition feq (a b : float64) : Prop :=
  match a, b with
  | Finite x, Finite y => x == y
  | PosInf, PosInf | NegInf, NegInf | NaN, NaN => True
  | _, _ => False
  end.

End Float.
Export Float.

Declare Scope float_scope.
Delimit Scope float_scope with F.
Infix "+" := fadd : float_scope.
Infix "-" := fsub : float_scope.
Infix "*" := fmul : float_scope.
Infix "/" := fdiv : float_scope.
Infix "<?" := fltb : float_scope.
Infix "<=?" := fleb : float_scope.
Infix "=f=" := feq (at level 70, no associativity).

(** ** Exceptions *)

Inductive exn : Type :=
| ValueError (msg : string)
| KeyError.

Inductive result (A : Type) : Type :=
| Ok (a : A)
| Raise (e : exn).
Arguments Ok {A} a.
Arguments Raise {A} e.

Definition bind {A B : Type} (m : result A) (k : A -> result B) : result B :=
  match m with
  | Ok a => k a
  | Raise e => Raise e
  end.

Notation "x <- m ;; k" := (bind m (fun x => k))
  (at level 61, m at next level, right associativity).

(** A comprehension whose body may raise: the first exception wins. *)
Fixpoint mapM {A B : Type} (f : A -> result B) (l : list A) : result (list B) :=
  match l with
  | [] => Ok []
  | a :: l' => b <- f a ;; bs <- mapM f l' ;; Ok (b :: bs)
  end.

Definition raises {A : Type} (m : result A) : bool :=
  match m with Ok _ => false | Raise _ => true end.

(** ** Lists as Python and NumPy use them *)

Section Sorting.
Context {A : Type} (leb : A -> A -> bool).

Fixpoint insert (a : A) (l : list A) : list A :=
  match l with
  | [] => [a]
  | b :: l' => if leb a b then a :: l else b :: insert a l'
  end.

Fixpoint sort (l : list A) : list A :=
  match l with
  | [] => []
  | a :: l' => insert a (sort l')
  end.
End Sorting.

(** [np.sum] of a boolean mask: how many elements satisfy the test. *)
Definition count {A : Type} (f : A -> bool) (l : list A) : nat :=
  List.length (filter f l).

(** A [dict] with numeric keys, in insertion order: assigning to a key that
    is present replaces its value in place. *)
Definition dict (V : Type) : Type := list (Q * V).

Fixpoint dict_set {V : Type} (k : Q) (v : V) (d : dict V) : dict V :=
  match d with
  | [] => [(k, v)]
  | (k', v') :: d' =>
      if Qeq_bool k k' then (k', v) :: d' else (k', v') :: dict_set k v d'
  end.

Fixpoint dict_find {V : Type} (k : Q) (d : dict V) : option V :=
  match d with
  | [] => None
  | (k', v) :: d' => if Qeq_bool k k' then Some v else dict_find k d'
  end.

(** [d[k]] *)
Definition dict_get {V : Type} (k : Q) (d : dict V) : result V :=
  match dict_find k d with
  | Some v => Ok v
  | None => Raise KeyError
  end.

Definition dict_of {V : Type} (kvs : list (Q * V)) : dict V :=
  fold_left (fun d kv => dict_set (fst kv) (snd kv) d) kvs [].

(** [set(l)] keeps one element of every class of equal numbers (the first
    one met), and [sorted] orders them. *)
Fixpoint py_set (l : list Q) : list Q :=
  match l with
  | [] => []
  | a :: l' => a :: filter (fun b => negb (Qeq_bool b a)) (py_set l')
  end.

Definition sorted (l : list Q) : list Q := sort Qle_bool l.

(** [min] and [max] of a sequence; both raise on an empty one, and both keep
    the first of several equal candidates. *)
Definition py_min (l : list Q) : result Q :=
  match l with
  | [] => Raise (ValueError "min() arg is an empty sequence")
  | a :: l' => Ok (fold_left (fun m b => if Qltb b m then b else m) l' a)
  end.

Definition py_max (l : list Q) : result Q :=
  match l with
  | [] => Raise (ValueError "max() arg is an empty sequence")
  | a :: l' => Ok (fold_left (fun m b => if Qltb m b then b else m) l' a)
  end.

(** ** NumPy routines *)

(** An element of the raw input: a number, or a missing entry ([None]). *)
Inductive raw : Type :=
| RNum (v : float64)
| RNone.

(** [np.asarray(x, dtype=float)]: a missing entry becomes NaN. *)
Definition asarray_float (x : list raw) : list float64 :=
  map (fun r => match r with RNum v => v | RNone => NaN end) x.

(** The cleaning step shared by both functions (lines 16-17 and 92-93):
    [x = np.asarray(x, dtype=float); x = x[~np.isnan(x)]]. *)
Definition clean (x : list raw) : list float64 :=
  filter (fun v => negb (is_nan v)) (asarray_float x).

Definition np_sum (x : list float64) : float64 :=
  fold_left fadd x (Finite 0).

Definition np_mean (x : list float64) : float64 :=
  (np_sum x / of_nat (List.length x))%F.

(** [np.var(x, ddof=ddof)]: squared deviations from the mean, summed and
    divided by [max(n - ddof, 0)]. *)
Definition np_var (x : list float64) (ddof : nat) : float64 :=
  let arrmean := np_mean x in
  let sq := map (fun v => let d := (v - arrmean)%F in (d * d)%F) x in
  (np_sum sq / of_nat (List.length x - ddof))%F.

Definition np_std (sqrtQ : Q -> Q) (x : list float64) (ddof : nat) : float64 :=
  fsqrt sqrtQ (np_var x ddof).

(** The order [np.sort] uses: NaN after everything else. *)
Definition sort_leb (a b : float64) : bool :=
  match a, b with
  | _, NaN => true
  | NaN, _ => false
  | _, _ => (a <=? b)%F
  end.

Definition np_sort (x : list float64) : list float64 := sort sort_leb x.

Definition reduce (f : float64 -> float64 -> float64) (what : string)
    (x : list float64) : result float64 :=
  match x with
  | [] => Raise (ValueError what)
  | a :: x' => Ok (fold_left f x' a)
  end.

Definition fmin (a b : float64) : float64 :=
  if is_nan a || is_nan b then NaN else if (b <? a)%F then b else a.

Definition fmax (a b : float64) : float64 :=
  if is_nan a || is_nan b then NaN else if (a <? b)%F then b else a.

Definition np_min : list float64 -> result float64 :=
  reduce fmin "zero-size array to reduction operation minimum which has no identity".

Definition np_max : list float64 -> result float64 :=
  reduce fmax "zero-size array to reduction operation maximum which has no identity".

Definition np_median (x : list float64) : float64 :=
  if existsb is_nan x then NaN
  else
    let arr := np_sort x in
    let mid := (List.length arr / 2)%nat in
    if Nat.odd (List.length arr) then np_mean [nth mid arr NaN]
    else np_mean [nth (mid - 1) arr NaN; nth mid arr NaN].

(** NumPy's [_lerp]: [a + (b - a) * t], computed from [b] when [t >= 0.5]. *)
Definition lerp (a b t : float64) : float64 :=
  let diff_b_a := (b - a)%F in
  if (Finite (1 # 2) <=? t)%F then (b - diff_b_a * (Finite 1 - t))%F
  else (a + diff_b_a * t)%F.

(** NumPy is not part of the repository; [np.percentile] follows NumPy's
    default method.  The quantile at [q] in [0,1] by that ("linear") method: the
    virtual index is [(n - 1) * q], the two neighbours are the order
    statistics at its floor and just above (kept inside the array), the
    weight is its fractional part.  An array holding a NaN gives NaN. *)
Definition quantile_linear (x : list float64) (q : Q) : float64 :=
  if existsb is_nan x then NaN
  else
    let arr := np_sort x in
    let n := List.length arr in
    let virtual_index := inject_Z (Z.of_nat n - 1) * q in
    let previous_index := Z.to_nat (Qfloor virtual_index) in
    let next_index := Nat.min (previous_index + 1) (n - 1) in
    let gamma := virtual_index - inject_Z (Qfloor virtual_index) in
    lerp (nth previous_index arr NaN) (nth next_index arr NaN) (Finite gamma).

(** [np.percentile(x, p)]: [p] is divided by 100 and must then lie in
    [0,1]. *)
Definition np_percentile (x : list float64) (p : Q) : result float64 :=
  let q := p / 100 in
  if Qle_bool 0 q && Qle_bool q 1 then Ok (quantile_linear x q)
  else Raise (ValueError "Percentiles must be in the range [0, 100]").

(** The comprehension [{p: np.percentile(x, p) for p in ps}]. *)
Definition percentile_dict (x : list float64) (ps : list Q) : result (dict float64) :=
  kvs <- mapM (fun p => v <- np_percentile x p ;; Ok (p, v)) ps ;;
  Ok (dict_of kvs).

(** ** analyze_array *)

(** What [analyze_array] takes from outside this repository: the rounding of
    the square root, and SciPy's [skew], [kurtosis], [mode] and
    [kstest(., "norm")] (statistic and p-value).  They are taken as total
    functions on float arrays: with the default NaN policy they return NaN
    rather than raise. *)
Record numerics : Type := {
  sqrtQ : Q -> Q;
  skew : list float64 -> float64;
  kurtosis : list float64 -> float64;
  mode : list float64 -> float64;
  kstest_norm : list float64 -> float64 * float64
}.

Inductive verdict : Type :=
| Reject_NotNormal
| FailToReject_TreatAsNormal.

(** The [stats] dictionary (fixed keys as fields, the percentile entries as
    a [dict]) and the quantities of the Kolmogorov-Smirnov block. *)
Record analysis : Type := {
  Count : nat;
  Sum : float64;
  Mean : float64;
  Standard_Error : float64;
  Median : float64;
  Mode : float64;
  Standard_Deviation : float64;
  Sample_Variance : float64;
  Skewness : float64;
  Kurtosis : float64;
  Minimum : float64;
  Maximum : float64;
  Range : float64;
  Percentile : dict float64;
  ks_z : list float64;
  ks_stat : float64;
  p_value : float64;
  critical_value : float64;
  outcome : verdict
}.

Inductive analysis_output : Type :=
| NoValidNumericData
| Described (r : analysis).

(** [analyze_array(x, percentiles)] (lines 4-75).  [alpha] is unused by the
    source and is left out.  So is [decimals], which formats the printed
    numbers: it is taken to be a precision that the float format accepts
    ([B64.analyze_array] keeps it, with the error of a precision that is
    not). *)

Definition analyze_array (L : numerics) (x : list raw) (percentiles : list Q)
    : result analysis_output :=
  let x := clean x in
  if (List.length x =? 0)%nat then Ok NoValidNumericData
  else
    let n := List.length x in
    let mean_val := np_mean x in
    let std_val := np_std (sqrtQ L) x 1 in
    minimum <- np_min x ;;
    maximum <- np_max x ;;
    pcts <- percentile_dict x percentiles ;;
    let z := map (fun v => ((v - mean_val) / std_val)%F) x in
    let (ks_stat, p_value) := kstest_norm L z in
    let critical_value := (Finite (136 # 100) / fsqrt (sqrtQ L) (of_nat n))%F in
    Ok (Described {|
      Count := n;
      Sum := np_sum x;
      Mean := mean_val;
      Standard_Error := (std_val / fsqrt (sqrtQ L) (of_nat n))%F;
      Median := np_median x;
      Mode := mode L x;
      Standard_Deviation := std_val;
      Sample_Variance := np_var x 1;
      Skewness := skew L x;
      Kurtosis := kurtosis L x;
      Minimum := minimum;
      Maximum := maximum;
      Range := (maximum - minimum)%F;
      Percentile := pcts;
      ks_z := z;
      ks_stat := ks_stat;
      p_value := p_value;
      critical_value := critical_value;
      outcome := if (critical_value <? ks_stat)%F then Reject_NotNormal
                 else FailToReject_TreatAsNormal
    |}).

(** ** goal_maker *)

Inductive milestone : Type :=
| AlreadyAtMark (next_p : Q)
| AimFor (next_p : Q) (threshold gap : float64)
| AtHighestTarget (top : Q).

(** The printed report, under the keys of the function's (commented-out)
    return value, and the milestone of the coaching line. *)
Record goal_report : Type := {
  r_n : nat;
  r_score : float64;
  r_percentile_rank : float64;
  r_tie_method : string;
  r_targets : dict float64;
  r_milestone : milestone
}.

Inductive goal_output : Type :=
| NoValidPopulation
| GoalMaker (r : goal_report).

(** [lt = np.sum(x < s)] and [le = np.sum(x <= s)]. *)
Definition count_lt (s : float64) (x : list float64) : nat :=
  count (fun v => (v <? s)%F) x.

Definition count_le (s : float64) (x : list float64) : nat :=
  count (fun v => (v <=? s)%F) x.

(** The percentile rank of the score under a tie method (lines 100-113). *)
Definition percentile_rank (tie_method : string) (s : float64) (x : list float64)
    : result float64 :=
  let n := List.length x in
  let lt := count_lt s x in
  let le := count_le s x in
  if (tie_method =? "strict")%string then
    Ok (Finite 100 * (of_nat lt / of_nat n))%F
  else if (tie_method =? "weak")%string then
    Ok (Finite 100 * (of_nat le / of_nat n))%F
  else if (tie_method =? "mean")%string then
    Ok (Finite 100 * ((of_nat (lt + le) / Finite 2) / of_nat n))%F
  else Raise (ValueError "tie_method must be one of: strict, weak, mean").
(* The source's message writes the three names in double quotes. *)

(** The coaching line (lines 131-146): the next target above the current
    percentile. *)
Definition coach (s pct_rank : float64) (targets : list Q) (thresholds : dict float64)
    : result milestone :=
  let higher := filter (fun p => (pct_rank <? Finite p)%F) targets in
  match higher with
  | _ :: _ =>
      next_p <- py_min higher ;;
      t <- dict_get next_p thresholds ;;
      let gap := (t - s)%F in
      if (gap <=? Finite 0)%F then Ok (AlreadyAtMark next_p)
      else Ok (AimFor next_p t gap)
  | [] =>
      top <- py_max targets ;;
      Ok (AtHighestTarget top)
  end.

(** [goal_maker(score, x, targets, tie_method)] (lines 80-146); [decimals],
    which formats the printed numbers, is taken to be a precision that the
    float format accepts ([B64.goal_maker] keeps it).  An exception loses
    what was printed before it. *)
Definition goal_maker (score : float64) (x : list raw) (targets : list Q)
    (tie_method : string) : result goal_output :=
  let x := clean x in
  if (List.length x =? 0)%nat then Ok NoValidPopulation
  else
    let s := score in
    let n := List.length x in
    pct_rank <- percentile_rank tie_method s x ;;
    let targets := sorted (py_set targets) in
    thresholds <- percentile_dict x targets ;;
    next <- coach s pct_rank targets thresholds ;;
    Ok (GoalMaker {|
      r_n := n;
      r_score := s;
      r_percentile_rank := pct_rank;
      r_tie_method := tie_method;
      r_targets := thresholds;
      r_milestone := next
    |}).

Definition default_percentiles : list Q := [1; 5; 25; 50; 75; 95; 99].
Definition default_targets : list Q := [80; 90; 95; 99].

(** ** Vocabulary of the properties *)

(** A natural number as a rational. *)
Definition Qn (k : nat) : Q := inject_Z (Z.of_nat k).

(** A call that returns a finite float equal to [q]. *)
Definition returns (m : result float64) (q : Q) : Prop :=
  exists v, m = Ok v /\ v =f= Finite q.

(** A percentile that [np.percentile] accepts. *)
Definition in_range (p : Q) : Prop := 0 <= p /\ p <= 100.

(** No two keys of the list are equal numbers unless they are the same
    value. *)
Definition distinct_keys (l : list Q) : Prop :=
  forall a b, In a l -> In b l -> a == b -> a = b.

(** The smallest target above the rank, and the highest target. *)
Definition next_target (rank : float64) (ts : list Q) (p : Q) : Prop :=
  In p ts /\ (rank <? Finite p)%F = true /\
  forall t, In t ts -> (rank <? Finite t)%F = true -> p <= t.

Definition highest_target (ts : list Q) (p : Q) : Prop :=
  In p ts /\ forall t, In t ts -> t <= p.

(** What a milestone says, in terms of the targets the caller passed. *)
Definition milestone_ok (s rank : float64) (pop : list float64) (ts : list Q)
    (m : milestone) : Prop :=
  match m with
  | AlreadyAtMark p =>
      next_target rank ts p /\
      exists thr, np_percentile pop p = Ok thr /\ (thr - s <=? Finite 0)%F = true
  | AimFor p thr gap =>
      next_target rank ts p /\
      np_percentile pop p = Ok thr /\ gap = (thr - s)%F /\
      (gap <=? Finite 0)%F = false
  | AtHighestTarget top =>
      (forall t, In t ts -> (rank <? Finite t)%F = false) /\
      highest_target ts top
  end.

(** The population of the scenario: the integers 1 to 100. *)
Definition population_1_100 : list raw :=
  map (fun k => RNum (of_nat k)) (seq 1 100).

(** An instance of the outside routines, to run the model on examples: the
    square root of [a/b] as the integer square root of [a*b] over [b]; the
    SciPy routines are not evaluated (NaN). *)
Definition example_numerics : numerics := {|
  sqrtQ := fun q => Z.sqrt (Qnum q * QDen q) # Qden q;
  skew := fun _ => NaN;
  kurtosis := fun _ => NaN;
  mode := fun _ => NaN;
  kstest_norm := fun _ => (NaN, NaN)
|}.

(** * transcript.py and analysis.py *)

(** ** Python strings and exceptions *)

(** A [str] is the list of its code points. *)
Definition str : Type := list N.

Definition lit (s : string) : str := map N_of_ascii (list_ascii_of_string s).

Definition str_eqb (a b : str) : bool :=
  (List.length a =? List.length b)%nat
  && forallb (fun p => (fst p =? snd p)%N) (combine a b).

(** The exceptions these two scripts can raise, and calls that may raise
    them. *)
Inductive py_exn : Type :=
| PyValueError
| PyKeyError
| PyIndexError
| PyRuntimeError
| PyFileNotFoundError
| PyOther.

Inductive res (A : Type) : Type :=
| Return (a : A)
| Throw (e : py_exn).
Arguments Return {A} a.
Arguments Throw {A} e.

Definition res_bind {A B : Type} (m : res A) (k : A -> res B) : res B :=
  match m with
  | Return a => k a
  | Throw e => Throw e
  end.

Notation "x <~ m ;; k" := (res_bind m (fun x => k))
  (at level 61, m at next level, right associativity).

(** [str.isspace] of one character: the white space that [str.strip()]
    removes. *)
Definition isspace (c : N) : bool :=
  ((9 <=? c) && (c <=? 13) || (28 <=? c) && (c <=? 32)
   || (c =? 133) || (c =? 160) || (c =? 5760)
   || (8192 <=? c) && (c <=? 8202)
   || (c =? 8232) || (c =? 8233) || (c =? 8239) || (c =? 8287)
   || (c =? 12288))%N.

Fixpoint lstrip (s : str) : str :=
  match s with
  | c :: s' => if isspace c then lstrip s' else s
  | [] => []
  end.

Definition rstrip (s : str) : str := rev (lstrip (rev s)).

(** [s.strip()] *)
Definition strip (s : str) : str := rstrip (lstrip s).

(** [s.startswith(p)], [s.endswith(p)] and [p in s]. *)
Fixpoint startswith (p s : str) : bool :=
  match p, s with
  | [], _ => true
  | a :: p', b :: s' => (a =? b)%N && startswith p' s'
  | _ :: _, [] => false
  end.

Definition endswith (p s : str) : bool := startswith (rev p) (rev s).

Fixpoint contains (p s : str) : bool :=
  startswith p s
  || match s with
     | [] => false
     | _ :: s' => contains p s'
     end.

(** ["\n".join(lines)] *)
Fixpoint join_lines (lines : list str) : str :=
  match lines with
  | [] => []
  | [l] => l
  | l :: rest => l ++ 10%N :: join_lines rest
  end.

(** ** extract_video_id *)

(** The character class [[A-Za-z0-9_-]]. *)
Definition is_id_char (c : N) : bool :=
  ((65 <=? c) && (c <=? 90) || (97 <=? c) && (c <=? 122)
   || (48 <=? c) && (c <=? 57) || (c =? 95) || (c =? 45))%N.

(** The longest run of id characters at the start of [s], at most [n]
    long: what the greedy [[A-Za-z0-9_-]{..,n}] consumes. *)
Fixpoint id_run (n : nat) (s : str) : str :=
  match n, s with
  | S n', c :: s' => if is_id_char c then c :: id_run n' s' else []
  | _, _ => []
  end.

(** The group [([A-Za-z0-9_-]{8,20})] matched at the start of [s]. *)
Definition match_id (s : str) : option str :=
  let g := id_run 20 s in
  if (8 <=? List.length g)%nat then Some g else None.

(** [re.fullmatch(r"[A-Za-z0-9_-]{8,20}", s)] *)
Definition fullmatch_id (s : str) : bool :=
  forallb is_id_char s
  && (8 <=? List.length s)%nat && (List.length s <=? 20)%nat.

(** The pattern [[?&]v=([A-Za-z0-9_-]{8,20})] matched at the start of [s]. *)
Definition match_v_param (s : str) : option str :=
  match s with
  | c :: v :: e :: rest =>
      if ((c =? 63) || (c =? 38))%N && (v =? 118)%N && (e =? 61)%N
      then match_id rest else None
  | _ => None
  end.

(** The pattern [youtu\.be/([A-Za-z0-9_-]{8,20})] matched at the start of
    [s]. *)
Definition match_short (s : str) : option str :=
  if startswith (lit "youtu.be/") s
  then match_id (skipn 9 s) else None.

(** [re.search]: the match at the leftmost position where the pattern
    matches; the group it captured. *)
Fixpoint search (m : str -> option str) (s : str) : option str :=
  match m s with
  | Some g => Some g
  | None =>
      match s with
      | [] => None
      | _ :: s' => search m s'
      end
  end.

(** [extract_video_id(url_or_id)] (lines 6-30). *)
Definition extract_video_id (url_or_id : str) : res str :=
  let s := strip url_or_id in
  if fullmatch_id s && negb (contains (lit "http") s) then Return s
  else
    match search match_v_param s with
    | Some g => Return g
    | None =>
        match search match_short s with
        | Some g => Return g
        | None => Throw PyValueError
        end
    end.

(** ** try_youtube_captions *)

(** The youtube-transcript-api package as the function uses it.  A call
    that raises is [None]: the function catches every exception alike.
    [fetch_texts] is [.fetch()] followed by reading ["text"] of each
    entry.  The package is taken to answer a repeated call the same way. *)
Record captions_api (TL TR : Type) : Type := {
  installed : bool;
  has_list_transcripts : bool;
  list_transcripts : str -> option TL;
  find_manually_created_transcript : TL -> str -> option TR;
  find_generated_transcript : TL -> str -> option TR;
  first_transcript : TL -> option TR;
  fetch_texts : TR -> option (list str);
  get_transcript : str -> list str -> option (list str)
}.
Arguments installed {TL TR} _.
Arguments has_list_transcripts {TL TR} _.
Arguments list_transcripts {TL TR} _ _.
Arguments find_manually_created_transcript {TL TR} _ _ _.
Arguments find_generated_transcript {TL TR} _ _ _.
Arguments first_transcript {TL TR} _ _.
Arguments fetch_texts {TL TR} _ _.
Arguments get_transcript {TL TR} _ _ _.

(** One of the two [for lang in lang_prefs] loops: the text of the first
    language whose transcript is found and fetched. *)
Fixpoint first_fetched {TR : Type} (find : str -> option TR)
    (fetch : TR -> option (list str)) (lang_prefs : list str) : option str :=
  match lang_prefs with
  | [] => None
  | lang :: rest =>
      match find lang with
      | Some t =>
          match fetch t with
          | Some lines => Some (join_lines lines)
          | None => first_fetched find fetch rest
          end
      | None => first_fetched find fetch rest
      end
  end.

(** [try_youtube_captions(video_id, lang_prefs)] (lines 33-76). *)
Definition try_youtube_captions {TL TR : Type} (api : captions_api TL TR)
    (video_id : str) (lang_prefs : list str) : option str :=
  if negb (installed api) then None
  else if has_list_transcripts api then
    match list_transcripts api video_id with
    | None => None
    | Some transcript_list =>
        match first_fetched (find_manually_created_transcript api transcript_list)
                (fetch_texts api) lang_prefs with
        | Some text => Some text
        | None =>
            match first_fetched (find_generated_transcript api transcript_list)
                    (fetch_texts api) lang_prefs with
            | Some text => Some text
            | None =>
                match first_transcript api transcript_list with
                | None => None
                | Some t =>
                    match fetch_texts api t with
                    | Some lines => Some (join_lines lines)
                    | None => None
                    end
                end
            end
        end
    end
  else
    match get_transcript api video_id lang_prefs with
    | Some lines => Some (join_lines lines)
    | None => None
    end.

Definition default_lang_prefs : list str := [lit "en"; lit "en-US"; lit "en-GB"].

(** ** download_audio *)

(** An entry of the output directory: its name and size. *)
Record file : Type := { name : str; st_size : N }.

(** [candidates.sort(key=size, reverse=True)]: stable, largest first. *)
Definition by_size_desc (a b : file) : bool := (st_size b <=? st_size a)%N.

(** [download_audio(url, out_dir)] (lines 80-113), given the return code of
    the yt-dlp run and the entries of [out_dir] after it.  The video id has
    no character that is special in a glob pattern, so
    [glob(f"{video_id}.*")] keeps the names that start with the id and a
    dot (names compared with case, as on POSIX). *)
Definition download_audio (returncode : Z) (out_dir : list file) (url : str)
    : res file :=
  if negb (returncode =? 0)%Z then Throw PyRuntimeError
  else
    video_id <~ extract_video_id url ;;
    let candidates :=
      filter (fun p => negb (endswith (lit ".part") (name p)))
        (filter (fun p => startswith (video_id ++ lit ".") (name p)) out_dir) in
    match candidates with
    | [] => Throw PyFileNotFoundError
    | _ :: _ =>
        match sort by_size_desc candidates with
        | p :: _ => Return p
        | [] => Throw PyIndexError
        end
    end.

(** ** transcribe_mp3 *)

(** [transcribe_mp3] (lines 116-132), given what faster-whisper yields: the
    texts of the segments, or an exception. *)
Definition transcribe_mp3 (segments : res (list str)) : res str :=
  segs <~ segments ;;
  Return (join_lines (map strip segs)).

(** ** main *)

Definition DEFAULT_URL_OR_ID : str := lit "https://www.youtube.com/watch?v=joBmbh0AGSQ".
Definition DEFAULT_OUTPUT_FILE : str := lit "transcript.txt".

(** What [main] leaves behind: the text written to the output file, and
    where it came from. *)
Inductive source : Type := FromCaptions | FromAudio.

Record saved : Type := {
  output_file : str;
  written : str;
  origin : source
}.

(** The URL handed to [download_audio] (line 148). *)
Definition download_url (url_or_id video_id : str) : str :=
  if contains (lit "http") url_or_id then url_or_id
  else lit "https://www.youtube.com/watch?v=" ++ video_id.

(** The outside world of [main]: the captions package, the return code of
    yt-dlp for a URL, the directory after the download, and the segments
    faster-whisper yields for a file. *)
Record world (TL TR : Type) : Type := {
  api : captions_api TL TR;
  yt_dlp : str -> Z;
  audio_tmp : list file;
  whisper : file -> res (list str)
}.
Arguments api {TL TR} _.
Arguments yt_dlp {TL TR} _ _.
Arguments audio_tmp {TL TR} _.
Arguments whisper {TL TR} _ _.

(** [main()] (lines 135-163) for the argument vector [argv].  The output
    file is the path given by its string; writing it is taken to succeed. *)
Definition main {TL TR : Type} (w : world TL TR) (argv : list str) : res saved :=
  let url_or_id := if (2 <=? List.length argv)%nat then nth 1 argv [] else DEFAULT_URL_OR_ID in
  let out := if (3 <=? List.length argv)%nat then nth 2 argv [] else DEFAULT_OUTPUT_FILE in
  video_id <~ extract_video_id url_or_id ;;
  let url := download_url url_or_id video_id in
  match try_youtube_captions (api w) video_id default_lang_prefs with
  | Some (c :: text) =>
      Return {| output_file := out; written := c :: text; origin := FromCaptions |}
  | _ =>
      audio_path <~ download_audio (yt_dlp w url) (audio_tmp w) url ;;
      text <~ transcribe_mp3 (whisper w audio_path) ;;
      Return {| output_file := out; written := text; origin := FromAudio |}
  end.

(** ** analysis.py *)

(** An entry of the data set: a user name and a rating. *)
Record entry : Type := { Username : str; Rating : float64 }.

(** [data[data["Username"] == user]["Rating"].to_list()[0]]: the rating of
    the first entry with that user name.  A frame built from no entries has
    no columns at all, and a frame without a match gives an empty list. *)
Definition rating_of (user : str) (data : list entry) : res float64 :=
  match data with
  | [] => Throw PyKeyError
  | _ :: _ =>
      match filter (fun e => str_eqb (Username e) user) data with
      | [] => Throw PyIndexError
      | e :: _ => Return (Rating e)
      end
  end.

Inductive comparison_word : Type := Greater | Less_Than.

(** What the script prints: the number of players, the comparison line, and
    the two reports. *)
Record analysis_run : Type := {
  total_players : nat;
  rating_gap : float64;
  gap_word : comparison_word;
  descriptive : analysis_output;
  goals : goal_output
}.

Definition fabs (a : float64) : float64 :=
  match a with
  | Finite q => Finite (Qabs.Qabs q)
  | PosInf | NegInf => PosInf
  | NaN => NaN
  end.

Definition lift {A : Type} (m : result A) : res A :=
  match m with
  | Ok a => Return a
  | Raise (ValueError _) => Throw PyValueError
  | Raise KeyError => Throw PyKeyError
  end.

(** The script (lines 14-35) on the entries of the loaded file. *)
Definition analysis_script (L : numerics) (data : list entry) : res analysis_run :=
  shanes_rating <~ rating_of (lit "ZombieReaper") data ;;
  user_rating <~ rating_of (lit "Death913") data ;;
  let rating_diff := (user_rating - shanes_rating)%F in
  let ratings := map (fun e => RNum (Rating e)) data in
  described <~ lift (analyze_array L ratings default_percentiles) ;;
  goal <~ lift (goal_maker shanes_rating ratings default_targets "mean") ;;
  Return {|
    total_players := List.length data;
    rating_gap := fabs rating_diff;
    gap_word := if (Finite 0 <? rating_diff)%F then Greater else Less_Than;
    descriptive := described;
    goals := goal
  |}.

(** ** Vocabulary of the properties of the two scripts *)

(** An id as the patterns capture it: 8 to 20 id characters. *)
Definition id_shaped (v : str) : Prop :=
  forallb is_id_char v = true /\ (8 <= List.length v <= 20)%nat.

(** What may follow a captured id: nothing, a character outside the class,
    or anything once 20 characters are taken. *)
Definition id_ends (v rest : str) : Prop :=
  List.length v = 20%nat \/ rest = [] \/
  exists c r, rest = c :: r /\ is_id_char c = false.

(** Text without [?] and [&], and text without the letter [y]. *)
Definition no_separator (s : str) : Prop :=
  forallb (fun c => negb ((c =? 63) || (c =? 38))%N) s = true.

Definition no_letter_y (s : str) : Prop :=
  forallb (fun c => negb (c =? 121)%N) s = true.

(** The files [download_audio] chooses from, for a video id. *)
Definition candidate (video_id : str) (p : file) : bool :=
  startswith (video_id ++ lit ".") (name p)
  && negb (endswith (lit ".part") (name p)).

(** A language whose transcript can be found and fetched. *)
Definition fetchable {TR : Type} (find : str -> option TR)
    (fetch : TR -> option (list str)) (lang : str) : Prop :=
  exists tr lines, find lang = Some tr /\ fetch tr = Some lines.

(** A package for the examples: one listing, a generated English
    transcript and a manual British one. *)
Definition example_api : captions_api unit bool := {|
  installed := true;
  has_list_transcripts := true;
  list_transcripts := fun _ => Some tt;
  find_manually_created_transcript :=
    fun _ lang => if str_eqb lang (lit "en-GB") then Some true else None;
  find_generated_transcript :=
    fun _ lang => if str_eqb lang (lit "en") then Some false else None;
  first_transcript := fun _ => Some false;
  fetch_texts :=
    fun tr => Some (if tr then [lit "colour"; lit "centre"] else [lit "color"]);
  get_transcript := fun _ _ => None
|}.

(** The two values [main] reads from the argument vector. *)
Definition argv_url_or_id (argv : list str) : str :=
  if (2 <=? List.length argv)%nat then nth 1 argv [] else DEFAULT_URL_OR_ID.

Definition argv_output_file (argv : list str) : str :=
  if (3 <=? List.length argv)%nat then nth 2 argv [] else DEFAULT_OUTPUT_FILE.

(** A world for the examples: no captions package, a download that leaves
    two files, and two segments from faster-whisper. *)
Definition example_world : world unit bool := {|
  api := {| installed := false; has_list_transcripts := false;
            list_transcripts := fun _ => None;
            find_manually_created_transcript := fun _ _ => None;
            find_generated_transcript := fun _ _ => None;
            first_transcript := fun _ => None;
            fetch_texts := fun _ => None;
            get_transcript := fun _ _ => None |};
  yt_dlp := fun _ => 0%Z;
  audio_tmp := [ {| name := lit "joBmbh0AGSQ.m4a"; st_size := 10 |};
                 {| name := lit "joBmbh0AGSQ.webm"; st_size := 30 |} ];
  whisper := fun _ => Return [lit " hello "; lit "world "]
|}.

(** A data set without an entry for a user, and one for the examples. *)
Definition absent (user : str) (data : list entry) : Prop :=
  forall e, In e data -> str_eqb (Username e) user = false.

Definition example_data : list entry :=
  [ {| Username := lit "Death913"; Rating := of_nat 2100 |};
    {| Username := lit "Someone"; Rating := NaN |};
    {| Username := lit "ZombieReaper"; Rating := of_nat 1900 |} ].

(** * The statistics functions in IEEE binary64 *)

(** The same two functions, evaluated as NumPy evaluates them on [float64]
    arrays: every elementary operation is the correctly rounded IEEE 754
    binary64 operation (round to nearest, ties to even), with overflow to
    the infinities, gradual underflow, signed zeros and NaN.  Python
    [int]s that meet floats are carried as the floats they convert to. *)

Module B64.
Local Open Scope Z_scope.

Definition prec : Z := 53.
Definition emax : Z := 1024.

Definition binary64 : Type := spec_float.

Definition nan : binary64 := S754_nan.
Definition zero : binary64 := S754_zero false.

(** [float(z)] for a Python [int]. *)
Definition of_Z (z : Z) : binary64 := binary_normalize prec emax z 0 false.
Definition of_nat (k : nat) : binary64 := of_Z (Z.of_nat k).

Definition fadd : binary64 -> binary64 -> binary64 := SFadd prec emax.
Definition fsub : binary64 -> binary64 -> binary64 := SFsub prec emax.
Definition fmul : binary64 -> binary64 -> binary64 := SFmul prec emax.
Definition fdiv : binary64 -> binary64 -> binary64 := SFdiv prec emax.
Definition fsqrt : binary64 -> binary64 := SFsqrt prec emax.
Definition fltb : binary64 -> binary64 -> bool := SFltb.
Definition fleb : binary64 -> binary64 -> bool := SFleb.
Definition feqb : binary64 -> binary64 -> bool := SFeqb.

Definition is_nan (a : binary64) : bool :=
  match a with S754_nan => true | _ => false end.

(** A number in the usual sense: neither NaN nor an infinity. *)
Definition is_finite (a : binary64) : bool :=
  match a with S754_zero _ | S754_finite _ _ _ => true | _ => false end.

Definition is_zero (a : binary64) : bool :=
  match a with S754_zero _ => true | _ => false end.

(** [np.floor] followed by the conversion to an index. *)
Definition ffloor (a : binary64) : Z :=
  match a with
  | S754_finite s m e => Z.shiftl (cond_Zopp s (Zpos m)) e
  | _ => 0
  end.

(** [a >= k] for an integer [k] that a float holds exactly: decided on the
    value of [a]. *)
Definition fge_int (a : binary64) (k : Z) : bool :=
  match a with
  | S754_nan => false
  | S754_infinity s => negb s
  | _ => (k <=? ffloor a)%Z
  end.

(** ** NumPy routines *)

Inductive raw : Type :=
| RNum (v : binary64)
| RNone.

Definition asarray_float (x : list raw) : list binary64 :=
  map (fun r => match r with RNum v => v | RNone => nan end) x.

(** Lines 16-17 and 92-93. *)
Definition clean (x : list raw) : list binary64 :=
  filter (fun v => negb (is_nan v)) (asarray_float x).

(** The order of [np.sort] and [np.partition]: NaN after everything else. *)
Definition sort_leb (a b : binary64) : bool :=
  match a, b with
  | _, S754_nan => true
  | S754_nan, _ => false
  | _, _ => fleb a b
  end.

Definition np_sort (x : list binary64) : list binary64 := sort sort_leb x.

(** [arr[k]], where a negative [k] counts from the end. *)
Definition item (arr : list binary64) (k : Z) : binary64 :=
  nth (Z.to_nat (if (k <? 0)%Z then Z.of_nat (List.length arr) + k else k)) arr nan.

(** NumPy's [_lerp]. *)
Definition lerp (a b t : binary64) : binary64 :=
  let diff_b_a := fsub b a in
  if fleb (fdiv (of_Z 1) (of_Z 2)) t
  then fsub b (fmul diff_b_a (fsub (of_Z 1) t))
  else fadd a (fmul diff_b_a t).

(** The virtual index of the linear method: [(n - 1) * quantiles]. *)
Definition virtual_index (n : nat) (q : binary64) : binary64 :=
  fmul (of_Z (Z.of_nat n - 1)) q.

(** NumPy's [_get_indexes]: the floor of the virtual index and the index
    after it; both are the last index ([-1]) when the virtual index is at
    or beyond it (or NaN), and the first when it is negative. *)
Definition get_indexes (n : nat) (virtual_indexes : binary64) : Z * Z :=
  if is_nan virtual_indexes || fge_int virtual_indexes (Z.of_nat n - 1)
  then (-1, -1)%Z
  else if fltb virtual_indexes zero then (0, 0)%Z
  else (ffloor virtual_indexes, ffloor virtual_indexes + 1)%Z.

(** NumPy's [_quantile] for the default ("linear") method, on one
    quantile [q]. *)
Definition quantile_linear (x : list binary64) (q : binary64) : binary64 :=
  if existsb is_nan x then nan
  else
    let arr := np_sort x in
    let virtual_indexes := virtual_index (List.length arr) q in
    let (previous_indexes, next_indexes) :=
      get_indexes (List.length arr) virtual_indexes in
    let gamma := fsub virtual_indexes (of_Z previous_indexes) in
    lerp (item arr previous_indexes) (item arr next_indexes) gamma.

(** [np.percentile(x, p)]: [p / 100] must lie in [0, 1]. *)
Definition accepted (p : binary64) : bool :=
  fleb zero (fdiv p (of_Z 100)) && fleb (fdiv p (of_Z 100)) (of_Z 1).

Definition np_percentile (x : list binary64) (p : binary64) : result binary64 :=
  if accepted p then Ok (quantile_linear x (fdiv p (of_Z 100)))
  else Raise (ValueError "Percentiles must be in the range [0, 100]").

(** A format specification [.{decimals}f] applied to a float: Python
    rejects a negative precision and one above [INT_MAX]. *)
Definition format_f (decimals : Z) : result unit :=
  if (decimals <? 0)%Z then Raise (ValueError "Format specifier missing precision")
  else if (decimals <=? 2147483647)%Z then Ok tt
  else Raise (ValueError "precision too big").

(** ** goal_maker *)

Definition count_lt (s : binary64) (x : list binary64) : nat :=
  count (fun v => fltb v s) x.

Definition count_le (s : binary64) (x : list binary64) : nat :=
  count (fun v => fleb v s) x.

(** Lines 100-113. *)
Definition percentile_rank (tie_method : string) (s : binary64) (x : list binary64)
    : result binary64 :=
  let n := List.length x in
  let lt := count_lt s x in
  let le := count_le s x in
  if (tie_method =? "strict")%string then
    Ok (fmul (of_Z 100) (fdiv (of_nat lt) (of_nat n)))
  else if (tie_method =? "weak")%string then
    Ok (fmul (of_Z 100) (fdiv (of_nat le) (of_nat n)))
  else if (tie_method =? "mean")%string then
    Ok (fmul (of_Z 100) (fdiv (fdiv (of_nat (lt + le)) (of_Z 2)) (of_nat n)))
  else Raise (ValueError "tie_method must be one of: strict, weak, mean").

(** [set(l)]: one element of every class of equal numbers, the first met. *)
Fixpoint py_set (l : list binary64) : list binary64 :=
  match l with
  | [] => []
  | a :: l' => a :: filter (fun b => negb (feqb b a)) (py_set l')
  end.

Definition sorted (l : list binary64) : list binary64 := sort fleb l.

Definition py_min (l : list binary64) : result binary64 :=
  match l with
  | [] => Raise (ValueError "min() arg is an empty sequence")
  | a :: l' => Ok (fold_left (fun m b => if fltb b m then b else m) l' a)
  end.

Definition py_max (l : list binary64) : result binary64 :=
  match l with
  | [] => Raise (ValueError "max() arg is an empty sequence")
  | a :: l' => Ok (fold_left (fun m b => if fltb m b then b else m) l' a)
  end.

(** A [dict] keyed by numbers, in insertion order. *)
Definition dict : Type := list (binary64 * binary64).

Fixpoint dict_set (k v : binary64) (d : dict) : dict :=
  match d with
  | [] => [(k, v)]
  | (k', v') :: d' =>
      if feqb k k' then (k', v) :: d' else (k', v') :: dict_set k v d'
  end.

Fixpoint dict_find (k : binary64) (d : dict) : option binary64 :=
  match d with
  | [] => None
  | (k', v) :: d' => if feqb k k' then Some v else dict_find k d'
  end.

Definition dict_get (k : binary64) (d : dict) : result binary64 :=
  match dict_find k d with
  | Some v => Ok v
  | None => Raise KeyError
  end.

Definition dict_of (kvs : list (binary64 * binary64)) : dict :=
  fold_left (fun d kv => dict_set (fst kv) (snd kv) d) kvs [].

(** The pairs [(p, np.percentile(x, p))] of a comprehension over [ps]. *)
Definition percentile_items (x : list binary64) (ps : list binary64)
    : result (list (binary64 * binary64)) :=
  mapM (fun p => v <- np_percentile x p ;; Ok (p, v)) ps.

Inductive milestone : Type :=
| AlreadyAtMark (next_p : binary64)
| AimFor (next_p : binary64) (threshold gap : binary64)
| AtHighestTarget (top : binary64).

Record goal_report : Type := {
  r_n : nat;
  r_score : binary64;
  r_percentile_rank : binary64;
  r_tie_method : string;
  r_targets : dict;
  r_milestone : milestone
}.

Inductive goal_output : Type :=
| NoValidPopulation
| GoalMaker (r : goal_report).

(** Lines 131-146. *)
Definition coach (s pct_rank : binary64) (targets : list binary64) (thresholds : dict)
    : result milestone :=
  let higher := filter (fun p => fltb pct_rank p) targets in
  match higher with
  | _ :: _ =>
      next_p <- py_min higher ;;
      t <- dict_get next_p thresholds ;;
      let gap := fsub t s in
      if fleb gap zero then Ok (AlreadyAtMark next_p)
      else Ok (AimFor next_p t gap)
  | [] =>
      top <- py_max targets ;;
      Ok (AtHighestTarget top)
  end.

(** [goal_maker(score, x, targets, decimals, tie_method)] (lines 80-146).
    The report lines format the score, the rank, the thresholds and the
    gap with [decimals]. *)
Definition goal_maker (score : binary64) (x : list raw) (targets : list binary64)
    (decimals : Z) (tie_method : string) : result goal_output :=
  let x := clean x in
  if (List.length x =? 0)%nat then Ok NoValidPopulation
  else
    let s := score in
    let n := List.length x in
    pct_rank <- percentile_rank tie_method s x ;;
    let targets := sorted (py_set targets) in
    kvs <- percentile_items x targets ;;
    let thresholds := dict_of kvs in
    _ <- format_f decimals ;;
    next <- coach s pct_rank targets thresholds ;;
    Ok (GoalMaker {|
      r_n := n;
      r_score := s;
      r_percentile_rank := pct_rank;
      r_tie_method := tie_method;
      r_targets := thresholds;
      r_milestone := next
    |}).

(** ** analyze_array *)

(** What comes from the libraries as a whole: NumPy's sum of an array
    ([np.add.reduce], whose order of additions is NumPy's own), and SciPy's
    [skew], [kurtosis], [mode] and [kstest(., "norm")]. *)
Record library : Type := {
  add_reduce : list binary64 -> binary64;
  skew : list binary64 -> binary64;
  kurtosis : list binary64 -> binary64;
  mode : list binary64 -> binary64;
  kstest_norm : list binary64 -> binary64 * binary64
}.

Definition np_mean (L : library) (x : list binary64) : binary64 :=
  fdiv (add_reduce L x) (of_nat (List.length x)).

Definition np_var (L : library) (x : list binary64) (ddof : nat) : binary64 :=
  let arrmean := np_mean L x in
  let sq := map (fun v => let d := fsub v arrmean in fmul d d) x in
  fdiv (add_reduce L sq) (of_nat (List.length x - ddof)).

Definition np_std (L : library) (x : list binary64) (ddof : nat) : binary64 :=
  fsqrt (np_var L x ddof).

Definition np_median (L : library) (x : list binary64) : binary64 :=
  if existsb is_nan x then nan
  else
    let arr := np_sort x in
    let mid := (List.length arr / 2)%nat in
    if Nat.odd (List.length arr) then np_mean L [nth mid arr nan]
    else np_mean L [nth (mid - 1) arr nan; nth mid arr nan].

Definition fmin (a b : binary64) : binary64 :=
  if is_nan a || is_nan b then nan else if fltb b a then b else a.

Definition fmax (a b : binary64) : binary64 :=
  if is_nan a || is_nan b then nan else if fltb a b then b else a.

Definition reduce (f : binary64 -> binary64 -> binary64) (what : string)
    (x : list binary64) : result binary64 :=
  match x with
  | [] => Raise (ValueError what)
  | a :: x' => Ok (fold_left f x' a)
  end.

Definition np_min : list binary64 -> result binary64 :=
  reduce fmin "zero-size array to reduction operation minimum which has no identity".

Definition np_max : list binary64 -> result binary64 :=
  reduce fmax "zero-size array to reduction operation maximum which has no identity".

Record analysis : Type := {
  Count : nat;
  Sum : binary64;
  Mean : binary64;
  Standard_Error : binary64;
  Median : binary64;
  Mode : binary64;
  Standard_Deviation : binary64;
  Sample_Variance : binary64;
  Skewness : binary64;
  Kurtosis : binary64;
  Minimum : binary64;
  Maximum : binary64;
  Range : binary64;
  Percentile : list (binary64 * binary64);
  ks_z : list binary64;
  ks_stat : binary64;
  p_value : binary64;
  critical_value : binary64;
  outcome : verdict
}.

Inductive analysis_output : Type :=
| NoValidNumericData
| Described (r : analysis).

(** [analyze_array(x, percentiles, alpha, decimals)] (lines 4-75); [alpha]
    is not used by the source.  The percentile entries are kept as the
    pairs of the comprehension (their keys are the texts
    [Percentile p%]).  Every float of [stats] is printed with
    [decimals]. *)
Definition analyze_array (L : library) (x : list raw) (percentiles : list binary64)
    (decimals : Z) : result analysis_output :=
  let x := clean x in
  if (List.length x =? 0)%nat then Ok NoValidNumericData
  else
    let n := List.length x in
    let mean_val := np_mean L x in
    let std_val := np_std L x 1 in
    minimum <- np_min x ;;
    maximum <- np_max x ;;
    pcts <- percentile_items x percentiles ;;
    let z := map (fun v => fdiv (fsub v mean_val) std_val) x in
    let (ks_stat, p_value) := kstest_norm L z in
    let critical_value := fdiv (fdiv (of_Z 136) (of_Z 100)) (fsqrt (of_nat n)) in
    _ <- format_f decimals ;;
    Ok (Described {|
      Count := n;
      Sum := add_reduce L x;
      Mean := mean_val;
      Standard_Error := fdiv std_val (fsqrt (of_nat n));
      Median := np_median L x;
      Mode := mode L x;
      Standard_Deviation := std_val;
      Sample_Variance := np_var L x 1;
      Skewness := skew L x;
      Kurtosis := kurtosis L x;
      Minimum := minimum;
      Maximum := maximum;
      Range := fsub maximum minimum;
      Percentile := pcts;
      ks_z := z;
      ks_stat := ks_stat;
      p_value := p_value;
      critical_value := critical_value;
      outcome := if fltb critical_value ks_stat then Reject_NotNormal
                 else FailToReject_TreatAsNormal
    |}).

End B64.

(** ** Vocabulary of the binary64 properties *)

Module B64Spec.
Import B64.

Definition fle (a b : binary64) : Prop := fleb a b = true.


(** The place in a list of length [n] that the index [k] reads. *)
Definition position (n : nat) (k : Z) : nat :=
  Z.to_nat (if (k <? 0)%Z then (Z.of_nat n + k)%Z else k).

(** The rank position of the percentile [p] in a sample of size [n], and
    the places of the two order statistics that bracket it. *)
Definition rank_position (n : nat) (p : binary64) : binary64 :=
  virtual_index n (fdiv p (of_Z 100)).

Definition below (n : nat) (p : binary64) : nat :=
  position n (fst (get_indexes n (rank_position n p))).

Definition above (n : nat) (p : binary64) : nat :=
  position n (snd (get_indexes n (rank_position n p))).


Definition valid_decimals (decimals : Z) : Prop :=
  (0 <= decimals <= 2147483647)%Z.

Definition all_accepted (ps : list binary64) : Prop :=
  Forall (fun p => accepted p = true) ps.

(** No number is written in two ways in the list. *)
Definition distinct_numbers (l : list binary64) : Prop :=
  forall a b, In a l -> In b l -> feqb a b = true -> a = b.

(** The smallest target above the rank, and the highest target. *)
Definition next_target (rank : binary64) (ts : list binary64) (p : binary64) : Prop :=
  In p ts /\ fltb rank p = true /\
  forall t, In t ts -> fltb rank t = true -> fle p t.

Definition highest_target (ts : list binary64) (p : binary64) : Prop :=
  In p ts /\ forall t, In t ts -> fle t p.

Definition milestone_ok (s rank : binary64) (pop : list binary64) (ts : list binary64)
    (m : milestone) : Prop :=
  match m with
  | AlreadyAtMark p =>
      next_target rank ts p /\
      exists thr, np_percentile pop p = Ok thr /\ fleb (fsub thr s) zero = true
  | AimFor p thr gap =>
      next_target rank ts p /\
      np_percentile pop p = Ok thr /\ gap = fsub thr s /\
      fleb gap zero = false
  | AtHighestTarget top =>
      (forall t, In t ts -> fltb rank t = false) /\
      highest_target ts top
  end.

(** An instance of the libraries to run the model on examples: the sum
    adds from left to right; the SciPy routines are not evaluated. *)
Definition left_to_right : library := {|
  add_reduce := fun x => fold_left fadd x zero;
  skew := fun _ => nan;
  kurtosis := fun _ => nan;
  mode := fun _ => nan;
  kstest_norm := fun _ => (nan, nan)
|}.

Definition default_percentiles : list binary64 :=
  map of_Z [1; 5; 25; 50; 75; 95; 99]%Z.
Definition default_targets : list binary64 := map of_Z [80; 90; 95; 99]%Z.

Definition infinity : binary64 := S754_infinity false.

(** The integers 1 to 100 as a population. *)
Definition population_1_100 : list raw :=
  map (fun k => RNum (of_nat k)) (seq 1 100).

End B64Spec.

(** * Properties *)

Ltac in_range_tac := repeat constructor; try discriminate.

(** ** Rational and float comparisons *)

Lemma Qltb_lt (a b : Q) : Qltb a b = true <-> a < b.
Proof.
  unfold Qltb. rewrite negb_true_iff.
  split; intro H.
  - apply Qnot_le_lt. intro Hle. apply Qle_bool_iff in Hle. congruence.
  - destruct (Qle_bool b a) eqn:E; [|reflexivity].
    apply Qle_bool_iff in E. exfalso. apply (Qlt_not_le _ _ H E).
Qed.

Lemma Qltb_ge (a b : Q) : Qltb a b = false <-> b <= a.
Proof.
  unfold Qltb. rewrite negb_false_iff. apply Qle_bool_iff.
Qed.

Lemma Qn_nonneg (k : nat) : 0 <= Qn k.
Proof.
  unfold Qn. change 0 with (inject_Z 0). rewrite <- Zle_Qle. lia.
Qed.

Lemma Qn_pos (k : nat) : k <> 0%nat -> 0 < Qn k.
Proof.
  intro H. unfold Qn. change 0 with (inject_Z 0). rewrite <- Zlt_Qlt. lia.
Qed.

Lemma Qn_le (j k : nat) : (j <= k)%nat -> Qn j <= Qn k.
Proof.
  intro H. unfold Qn. rewrite <- Zle_Qle. lia.
Qed.

Lemma Qn_add (j k : nat) : Qn (j + k) == Qn j + Qn k.
Proof.
  unfold Qn. rewrite Nat2Z.inj_add, inject_Z_plus. reflexivity.
Qed.

Lemma Qeq_bool_false (a b : Q) : ~ a == b -> Qeq_bool a b = false.
Proof.
  intro H. destruct (Qeq_bool a b) eqn:E; [|reflexivity].
  apply Qeq_bool_iff in E. contradiction.
Qed.

#[export] Instance feq_Equivalence : Equivalence feq.
Proof.
  split.
  - intros [q| | |]; simpl; auto. reflexivity.
  - intros [q| | |] [r| | |]; simpl; auto. intro H; symmetry; exact H.
  - intros [q| | |] [r| | |] [t| | |]; simpl; auto; try contradiction.
    intros H1 H2. rewrite H1. exact H2.
Qed.

Lemma fdiv_finite (a b : Q) :
  ~ b == 0 -> (Finite a / Finite b)%F = Finite (a / b).
Proof.
  intro H. simpl. rewrite (Qeq_bool_false _ _ H). reflexivity.
Qed.

Lemma fltb_fleb (a b : float64) : (a <? b)%F = true -> (a <=? b)%F = true.
Proof.
  destruct a as [x| | |], b as [y| | |]; simpl; auto.
  rewrite Qltb_lt, Qle_bool_iff. apply Qlt_le_weak.
Qed.

Lemma fltb_compat (a : float64) (p q : Q) :
  p == q -> (a <? Finite p)%F = (a <? Finite q)%F.
Proof.
  intro H. destruct a as [x| | |]; simpl; auto.
  unfold Qltb. rewrite H. reflexivity.
Qed.

(** ** Counting *)

Lemma count_le_length {A : Type} (f : A -> bool) (l : list A) :
  (count f l <= List.length l)%nat.
Proof.
  unfold count. apply filter_length_le.
Qed.

Lemma count_mono {A : Type} (f g : A -> bool) (l : list A) :
  (forall a, f a = true -> g a = true) -> (count f l <= count g l)%nat.
Proof.
  intro H. unfold count. induction l as [|a l IH]; simpl; [lia|].
  destruct (f a) eqn:Ef.
  - rewrite (H a Ef). simpl. lia.
  - destruct (g a); simpl; lia.
Qed.


Lemma count_lt_le (s : float64) (x : list float64) :
  (count_lt s x <= count_le s x)%nat.
Proof.
  apply count_mono. intros a. apply fltb_fleb.
Qed.

(** ** The cleaning step *)

Lemma clean_In (x : list raw) (v : float64) :
  In v (clean x) <-> is_nan v = false /\ In (RNum v) x.
Proof.
  unfold clean, asarray_float. rewrite filter_In, in_map_iff, negb_true_iff.
  split.
  - intros [[r [Hr Hin]] Hn]. split; [exact Hn|].
    destruct r as [w|]; subst; [exact Hin|discriminate].
  - intros [Hn Hin]. split; [|exact Hn]. exists (RNum v). auto.
Qed.

Lemma clean_no_nan (x : list raw) : existsb is_nan (clean x) = false.
Proof.
  unfold clean. induction (asarray_float x) as [|a l IH]; simpl; [reflexivity|].
  destruct (is_nan a) eqn:E; simpl; [exact IH|].
  rewrite E. exact IH.
Qed.

Lemma clean_nonempty_length (x : list raw) :
  clean x <> [] -> (List.length (clean x) =? 0)%nat = false.
Proof.
  intro H. destruct (clean x); [contradiction|reflexivity].
Qed.

(** ** Percentile rank *)

Lemma percentile_rank_eval (s : float64) (x : list float64) :
  x <> [] ->
  let n := Qn (List.length x) in
  let lt := count_lt s x in
  let le := count_le s x in
  percentile_rank "strict" s x = Ok (Finite (100 * (Qn lt / n))) /\
  percentile_rank "weak" s x = Ok (Finite (100 * (Qn le / n))) /\
  percentile_rank "mean" s x = Ok (Finite (100 * ((Qn (lt + le) / 2) / n))).
Proof.
  intros Hx n lt le.
  assert (Hn : ~ n == 0).
  { intro E. assert (0 < n) by (apply Qn_pos; destruct x; simpl; congruence).
    rewrite E in H. apply (Qlt_irrefl _ H). }
  unfold percentile_rank. simpl String.eqb. cbv iota.
  unfold of_nat, of_Z. fold (Qn (List.length x)). fold n.
  fold (Qn (count_lt s x)) (Qn (count_le s x)) (Qn (count_lt s x + count_le s x)).
  fold lt le.
  rewrite !(fdiv_finite _ n Hn).
  assert (H2 : ~ 2 == 0) by (intro E; discriminate E).
  rewrite (fdiv_finite _ 2 H2), (fdiv_finite _ n Hn).
  repeat split.
Qed.

(** C1. For a non-empty cleaned population and any score, the percentile
    rank is [100*lt/n] under "strict", [100*le/n] under "weak" and
    [100*((lt+le)/2)/n] under "mean", where [n] is the population size,
    [lt] the number of values below the score and [le] the number of
    values not above it. *)
Theorem percentile_rank_policies (s : float64) (x : list raw) :
  clean x <> [] ->
  let pop := clean x in
  let n := Qn (List.length pop) in
  let lt := Qn (count_lt s pop) in
  let le := Qn (count_le s pop) in
  returns (percentile_rank "strict" s pop) (100 * lt / n) /\
  returns (percentile_rank "weak" s pop) (100 * le / n) /\
  returns (percentile_rank "mean" s pop) (100 * ((lt + le) / 2) / n).
Proof.
  intros Hx pop n lt le.
  destruct (percentile_rank_eval s pop Hx) as (Hs & Hw & Hm).
  assert (Hn : ~ n == 0).
  { intro E. assert (0 < n) by (apply Qn_pos; subst pop; destruct (clean x); simpl; congruence).
    rewrite E in H. apply (Qlt_irrefl _ H). }
  subst lt le n.
  repeat split.
  - eexists; split; [exact Hs|]. unfold feq. field. exact Hn.
  - eexists; split; [exact Hw|]. unfold feq. field. exact Hn.
  - eexists; split; [exact Hm|]. unfold feq. rewrite Qn_add. field. exact Hn.
Qed.

Lemma percentile_rank_policies_witness :
  clean [RNum (of_nat 10); RNone; RNum (of_nat 30)] <> [] /\
  returns (percentile_rank "mean" (of_nat 30)
             (clean [RNum (of_nat 10); RNone; RNum (of_nat 30)]))
          (100 * ((Qn 1 + Qn 2) / 2) / Qn 2).
Proof.
  split.
  - simpl. discriminate.
  - apply (percentile_rank_policies (of_nat 30)
             [RNum (of_nat 10); RNone; RNum (of_nat 30)]).
    simpl. discriminate.
Defined.

Lemma rank_scale_le (a b n : Q) :
  0 < n -> a <= b -> 100 * (a / n) <= 100 * (b / n).
Proof.
  intros Hn Hab.
  assert (Hi : 0 <= / n) by (apply Qinv_le_0_compat, Qlt_le_weak, Hn).
  assert (H : a / n <= b / n) by (unfold Qdiv; apply Qmult_le_compat_r; assumption).
  lra.
Qed.

Lemma mean_between (a b c : Q) :
  a <= b -> c == a + b -> a <= c / 2 /\ c / 2 <= b.
Proof.
  intros Hab Hc. split; apply Qmult_le_r with (z := 2); try reflexivity;
    (setoid_replace (c / 2 * 2) with c by (field; discriminate)); lra.
Qed.

(** C7. For a non-empty cleaned population and any score, the three tie
    methods order the rank: strict <= mean <= weak. *)
Theorem tie_policy_ordering (s : float64) (x : list raw) :
  clean x <> [] ->
  exists strict mean weak : Q,
    percentile_rank "strict" s (clean x) = Ok (Finite strict) /\
    percentile_rank "mean" s (clean x) = Ok (Finite mean) /\
    percentile_rank "weak" s (clean x) = Ok (Finite weak) /\
    strict <= mean /\ mean <= weak.
Proof.
  intro Hx.
  destruct (percentile_rank_eval s (clean x) Hx) as (Hs & Hw & Hm).
  do 3 eexists. split; [exact Hs|]. split; [exact Hm|]. split; [exact Hw|].
  assert (Hn : 0 < Qn (List.length (clean x))).
  { apply Qn_pos. destruct (clean x); simpl; congruence. }
  pose proof (Qn_le _ _ (count_lt_le s (clean x))) as Hle.
  pose proof (Qn_add (count_lt s (clean x)) (count_le s (clean x))) as Hadd.
  destruct (mean_between _ _ _ Hle Hadd).
  split; apply rank_scale_le; assumption.
Qed.

Lemma tie_policy_ordering_witness :
  clean [RNum (of_nat 10); RNum (of_nat 20); RNum (of_nat 20)] <> [] /\
  exists strict mean weak : Q,
    percentile_rank "strict" (of_nat 20)
      (clean [RNum (of_nat 10); RNum (of_nat 20); RNum (of_nat 20)]) = Ok (Finite strict) /\
    percentile_rank "mean" (of_nat 20)
      (clean [RNum (of_nat 10); RNum (of_nat 20); RNum (of_nat 20)]) = Ok (Finite mean) /\
    percentile_rank "weak" (of_nat 20)
      (clean [RNum (of_nat 10); RNum (of_nat 20); RNum (of_nat 20)]) = Ok (Finite weak) /\
    strict <= mean /\ mean <= weak.
Proof.
  split.
  - simpl. discriminate.
  - apply (tie_policy_ordering (of_nat 20)
             [RNum (of_nat 10); RNum (of_nat 20); RNum (of_nat 20)]).
    simpl. discriminate.
Defined.

(** C10. With an empty cleaned population the call prints the
    no-valid-data warning and returns before the tie method is looked at:
    no [tie_method] string, valid or not, makes it raise. *)
Theorem empty_population_before_tie_check
    (score : float64) (x : list raw) (targets : list Q) (tie_method : string) :
  clean x = [] ->
  goal_maker score x targets tie_method = Ok NoValidPopulation.
Proof.
  intro H. unfold goal_maker. rewrite H. reflexivity.
Qed.

Lemma empty_population_before_tie_check_witness :
  clean [RNone; RNum NaN] = [] /\
  goal_maker (of_nat 7) [RNone; RNum NaN] default_targets "median"
    = Ok NoValidPopulation.
Proof.
  split.
  - reflexivity.
  - apply (empty_population_before_tie_check (of_nat 7) [RNone; RNum NaN]
             default_targets "median").
    reflexivity.
Defined.

(** C3 as stated fails: infinities pass the cleaning step. *)
Lemma clean_keeps_infinities :
  clean [RNum PosInf; RNone; RNum NaN; RNum NegInf; RNum (of_nat 3)]
    = [PosInf; NegInf; of_nat 3] /\
  forallb is_finite
    (clean [RNum PosInf; RNone; RNum NaN; RNum NegInf; RNum (of_nat 3)]) = false.
Proof.
  split; reflexivity.
Qed.

(** C3, amended. The cleaning step drops exactly the missing and the NaN
    entries, keeping every other number in place: a value is in the cleaned
    sample iff it is a non-NaN number of the input, so the cleaned sample
    holds no NaN, and an infinity of the input stays in it. *)
Theorem clean_drops_nan_only (x : list raw) :
  (forall v, In v (clean x) <-> is_nan v = false /\ In (RNum v) x) /\
  existsb is_nan (clean x) = false /\
  (In (RNum PosInf) x <-> In PosInf (clean x)) /\
  (In (RNum NegInf) x <-> In NegInf (clean x)) /\
  clean (RNone :: x) = clean x /\
  clean (RNum NaN :: x) = clean x /\
  (forall v, is_nan v = false -> clean (RNum v :: x) = v :: clean x).
Proof.
  split; [intro v; apply clean_In|].
  split; [apply clean_no_nan|].
  split; [rewrite clean_In; simpl; tauto|].
  split; [rewrite clean_In; simpl; tauto|].
  split; [reflexivity|]. split; [reflexivity|].
  intros v Hv. unfold clean. simpl. rewrite Hv. reflexivity.
Qed.

(** ** Sorting *)

Section SortFacts.
Context {A : Type} (leb : A -> A -> bool).

Lemma insert_perm (a : A) (l : list A) : Permutation (insert leb a l) (a :: l).
Proof.
  induction l as [|b l IH]; simpl; [reflexivity|].
  destruct (leb a b); [reflexivity|].
  rewrite IH. apply perm_swap.
Qed.

Lemma sort_perm (l : list A) : Permutation (sort leb l) l.
Proof.
  induction l as [|a l IH]; simpl; [reflexivity|].
  rewrite insert_perm. apply perm_skip, IH.
Qed.

Lemma sort_length (l : list A) : List.length (sort leb l) = List.length l.
Proof.
  apply Permutation_length, sort_perm.
Qed.

Lemma sort_In (a : A) (l : list A) : In a (sort leb l) <-> In a l.
Proof.
  split; apply Permutation_in; [|symmetry]; apply sort_perm.
Qed.

Hypothesis leb_total : forall a b, leb a b = false -> leb b a = true.

Lemma insert_sorted (a : A) (l : list A) :
  Sorted (fun x y => leb x y = true) l ->
  Sorted (fun x y => leb x y = true) (insert leb a l).
Proof.
  induction l as [|b l IH]; simpl; intro Hs.
  - repeat constructor.
  - destruct (leb a b) eqn:E.
    + constructor; [exact Hs|]. constructor. exact E.
    + inversion Hs as [|? ? Hs' Hhd]; subst.
      constructor; [apply IH, Hs'|].
      destruct l as [|c l]; simpl.
      * constructor. apply leb_total, E.
      * destruct (leb a c); constructor.
        -- apply leb_total, E.
        -- inversion Hhd; assumption.
Qed.

Lemma sort_sorted (l : list A) : Sorted (fun x y => leb x y = true) (sort leb l).
Proof.
  induction l as [|a l IH]; simpl; [constructor|].
  apply insert_sorted, IH.
Qed.
End SortFacts.

Lemma sorted_Qle (l : list Q) : StronglySorted Qle (sorted l).
Proof.
  apply Sorted_StronglySorted.
  - intros a b c. apply Qle_trans.
  - assert (H : Sorted (fun x y => Qle_bool x y = true) (sort Qle_bool l)).
    { apply sort_sorted. intros a b E.
      apply Qle_bool_iff, Qlt_le_weak, Qltb_lt.
      unfold Qltb. rewrite E. reflexivity. }
    unfold sorted. induction H as [|a s Hs IH Hhd]; constructor; [exact IH|].
    destruct Hhd; constructor. apply Qle_bool_iff. assumption.
Qed.



(** ** Percentile thresholds *)

Lemma sorted_perm (l : list Q) : Permutation (sorted l) l.
Proof.
  apply sort_perm.
Qed.

Lemma in_range_quantile (p : Q) : in_range p -> 0 <= p / 100 /\ p / 100 <= 1.
Proof.
  intros [H0 H1]. split.
  - apply Qle_shift_div_l; [reflexivity|]. lra.
  - apply Qle_shift_div_r; [reflexivity|]. lra.
Qed.

Lemma np_percentile_in_range (x : list float64) (p : Q) :
  in_range p -> np_percentile x p = Ok (quantile_linear x (p / 100)).
Proof.
  intro H. destruct (in_range_quantile p H) as [H0 H1].
  unfold np_percentile.
  apply Qle_bool_iff in H0, H1. rewrite H0, H1. reflexivity.
Qed.

(** ** Dictionaries and target sets *)

Lemma dict_find_set {V : Type} (k k' : Q) (v : V) (d : dict V) :
  dict_find k (dict_set k' v d)
  = if Qeq_bool k k' then Some v else dict_find k d.
Proof.
  induction d as [|[k1 v1] d IH]; simpl; [reflexivity|].
  destruct (Qeq_bool k' k1) eqn:E1; simpl.
  - destruct (Qeq_bool k k1) eqn:E2, (Qeq_bool k k') eqn:E3; try reflexivity.
    + apply Qeq_bool_iff in E1, E2. apply Qeq_bool_neq in E3.
      exfalso. apply E3. rewrite E1. exact E2.
    + apply Qeq_bool_iff in E1, E3. apply Qeq_bool_neq in E2.
      exfalso. apply E2. rewrite <- E1. exact E3.
  - rewrite IH.
    destruct (Qeq_bool k k1) eqn:E2, (Qeq_bool k k') eqn:E3; try reflexivity.
    apply Qeq_bool_iff in E2, E3. apply Qeq_bool_neq in E1.
    exfalso. apply E1. rewrite <- E3. exact E2.
Qed.

Lemma dict_of_snoc {V : Type} (kvs : list (Q * V)) (k : Q) (v : V) :
  dict_of (kvs ++ [(k, v)]) = dict_set k v (dict_of kvs).
Proof.
  unfold dict_of. rewrite fold_left_app. reflexivity.
Qed.

(** Looking up a number in a comprehension that has an equal key finds the
    value computed at a key equal to it. *)
Lemma dict_of_find {V : Type} (f : Q -> V) (ps : list Q) (p a : Q) :
  In a ps -> a == p ->
  exists p', In p' ps /\ p' == p /\
    dict_find p (dict_of (map (fun k => (k, f k)) ps)) = Some (f p').
Proof.
  induction ps as [|b ps IH] using rev_ind; intros Hin Ha; [contradiction|].
  rewrite map_app. simpl map. rewrite dict_of_snoc, dict_find_set.
  destruct (Qeq_bool p b) eqn:E.
  - exists b. split; [apply in_or_app; right; left; reflexivity|].
    split; [symmetry; apply Qeq_bool_iff, E|reflexivity].
  - apply in_app_or in Hin. destruct Hin as [Hin|[->|[]]].
    + destruct (IH Hin Ha) as (p' & Hp' & Heq & Hf).
      exists p'. split; [apply in_or_app; left; exact Hp'|]. split; assumption.
    + apply Qeq_bool_neq in E. exfalso. apply E. symmetry. exact Ha.
Qed.

Lemma dict_of_find_distinct {V : Type} (f : Q -> V) (ps : list Q) (p : Q) :
  distinct_keys ps -> In p ps ->
  dict_find p (dict_of (map (fun k => (k, f k)) ps)) = Some (f p).
Proof.
  intros Hd Hin.
  destruct (dict_of_find f ps p p Hin (Qeq_refl p)) as (p' & Hp' & Heq & Hf).
  rewrite Hf, (Hd p' p Hp' Hin Heq). reflexivity.
Qed.

Lemma py_set_In (a : Q) (l : list Q) : In a (py_set l) -> In a l.
Proof.
  induction l as [|b l IH]; simpl; [auto|].
  intros [->|H]; [left; reflexivity|].
  right. apply IH. apply filter_In in H. tauto.
Qed.

Lemma py_set_complete (a : Q) (l : list Q) :
  In a l -> exists a', In a' (py_set l) /\ a' == a.
Proof.
  induction l as [|b l IH]; simpl; [contradiction|].
  intros [->|H].
  - exists a. split; [left; reflexivity|reflexivity].
  - destruct (IH H) as (a' & Hin & Heq).
    destruct (Qeq_bool a' b) eqn:E.
    + exists b. split; [left; reflexivity|].
      apply Qeq_bool_iff in E. rewrite <- E. exact Heq.
    + exists a'. split; [|exact Heq].
      right. apply filter_In. rewrite E. auto.
Qed.

Lemma py_set_distinct (l : list Q) : distinct_keys (py_set l).
Proof.
  induction l as [|c l IH]; intros a b; simpl; [contradiction|].
  intros [->|Ha] [->|Hb] Heq; try reflexivity.
  - apply filter_In in Hb. destruct Hb as [_ Hb].
    apply negb_true_iff, Qeq_bool_neq in Hb. exfalso. apply Hb. symmetry. exact Heq.
  - apply filter_In in Ha. destruct Ha as [_ Ha].
    apply negb_true_iff, Qeq_bool_neq in Ha. contradiction.
  - apply filter_In in Ha, Hb. apply IH; tauto.
Qed.

(** [sorted(set(targets))]: the same numbers, each once, in order. *)
Lemma targets_In (a : Q) (l : list Q) : In a (sorted (py_set l)) -> In a l.
Proof.
  intro H. apply py_set_In. apply (sort_In Qle_bool). exact H.
Qed.

Lemma targets_complete (a : Q) (l : list Q) :
  In a l -> exists a', In a' (sorted (py_set l)) /\ a' == a.
Proof.
  intro H. destruct (py_set_complete a l H) as (a' & Hin & Heq).
  exists a'. split; [apply (sort_In Qle_bool); exact Hin|exact Heq].
Qed.

Lemma targets_distinct (l : list Q) : distinct_keys (sorted (py_set l)).
Proof.
  intros a b Ha Hb. apply (py_set_distinct l); apply (sort_In Qle_bool); assumption.
Qed.

Lemma targets_in_range (l : list Q) :
  Forall in_range l -> Forall in_range (sorted (py_set l)).
Proof.
  rewrite !Forall_forall. intros H a Ha. apply H, targets_In, Ha.
Qed.

Lemma targets_nonempty (l : list Q) : l <> [] -> sorted (py_set l) <> [].
Proof.
  intros H E. destruct l as [|a l]; [contradiction|].
  destruct (targets_complete a (a :: l) (or_introl eq_refl)) as (a' & Hin & _).
  rewrite E in Hin. contradiction.
Qed.

(** ** Comprehensions that do not raise *)

Lemma mapM_ok {A B : Type} (f : A -> result B) (g : A -> B) (l : list A) :
  Forall (fun a => f a = Ok (g a)) l -> mapM f l = Ok (map g l).
Proof.
  induction 1 as [|a l Ha _ IH]; simpl; [reflexivity|].
  rewrite Ha, IH. reflexivity.
Qed.

Lemma percentile_dict_ok (x : list float64) (ps : list Q) :
  Forall in_range ps ->
  percentile_dict x ps
  = Ok (dict_of (map (fun p => (p, quantile_linear x (p / 100))) ps)).
Proof.
  intro H. unfold percentile_dict.
  rewrite (mapM_ok _ (fun p => (p, quantile_linear x (p / 100)))); [reflexivity|].
  eapply Forall_impl; [|exact H].
  intros p Hp. simpl. rewrite np_percentile_in_range by exact Hp. reflexivity.
Qed.

(** ** The next milestone *)

Lemma fold_min_spec (l : list Q) (a : Q) :
  let m := fold_left (fun m b => if Qltb b m then b else m) l a in
  In m (a :: l) /\ forall b, In b (a :: l) -> m <= b.
Proof.
  revert a. induction l as [|c l IH]; intro a; simpl.
  - split; [left; reflexivity|]. intros b [<-|[]]. apply Qle_refl.
  - destruct (IH (if Qltb c a then c else a)) as [Hin Hle].
    split.
    + destruct Hin as [Hin|Hin]; [|right; right; exact Hin].
      rewrite <- Hin. destruct (Qltb c a); [right; left|left]; reflexivity.
    + assert (Ha' : (if Qltb c a then c else a) <= a /\ (if Qltb c a then c else a) <= c).
      { destruct (Qltb c a) eqn:E.
        - apply Qltb_lt in E. split; [apply Qlt_le_weak, E|apply Qle_refl].
        - apply Qltb_ge in E. split; [apply Qle_refl|exact E]. }
      destruct Ha' as [Ha Hc].
      pose proof (Hle _ (or_introl eq_refl)) as H0.
      intros b [<-|[<-|Hb]].
      * apply Qle_trans with (1 := H0), Ha.
      * apply Qle_trans with (1 := H0), Hc.
      * apply Hle. right. exact Hb.
Qed.

Lemma fold_max_spec (l : list Q) (a : Q) :
  let m := fold_left (fun m b => if Qltb m b then b else m) l a in
  In m (a :: l) /\ forall b, In b (a :: l) -> b <= m.
Proof.
  revert a. induction l as [|c l IH]; intro a; simpl.
  - split; [left; reflexivity|]. intros b [<-|[]]. apply Qle_refl.
  - destruct (IH (if Qltb a c then c else a)) as [Hin Hle].
    split.
    + destruct Hin as [Hin|Hin]; [|right; right; exact Hin].
      rewrite <- Hin. destruct (Qltb a c); [right; left|left]; reflexivity.
    + assert (Ha' : a <= (if Qltb a c then c else a) /\ c <= (if Qltb a c then c else a)).
      { destruct (Qltb a c) eqn:E.
        - apply Qltb_lt in E. split; [apply Qlt_le_weak, E|apply Qle_refl].
        - apply Qltb_ge in E. split; [apply Qle_refl|exact E]. }
      destruct Ha' as [Ha Hc].
      pose proof (Hle _ (or_introl eq_refl)) as H0.
      intros b [<-|[<-|Hb]].
      * apply Qle_trans with (2 := H0), Ha.
      * apply Qle_trans with (2 := H0), Hc.
      * apply Hle. right. exact Hb.
Qed.

Lemma coach_spec (s rank : float64) (pop : list float64) (ts : list Q) :
  ts <> [] -> Forall in_range ts ->
  let targets := sorted (py_set ts) in
  let thresholds :=
    dict_of (map (fun p => (p, quantile_linear pop (p / 100))) targets) in
  exists m, coach s rank targets thresholds = Ok m /\ milestone_ok s rank pop ts m.
Proof.
  intros Hts Hr targets thresholds. unfold coach.
  destruct (filter (fun p => (rank <? Finite p)%F) targets) as [|h hs] eqn:Eh.
  - (* no target above the rank *)
    destruct targets as [|a l] eqn:Et.
    { exfalso. apply (targets_nonempty ts Hts). exact Et. }
    simpl. eexists. split; [reflexivity|].
    destruct (fold_max_spec l a) as [Hin Hmax]. simpl. split.
    + intros t Ht. destruct (targets_complete t ts Ht) as (t' & Ht' & Heq).
      fold targets in Ht'. rewrite Et in Ht'.
      rewrite <- (fltb_compat rank t' t Heq).
      destruct (rank <? Finite t')%F eqn:E; [|reflexivity].
      assert (Hf : In t' (filter (fun p => (rank <? Finite p)%F) (a :: l)))
        by (apply filter_In; auto).
      rewrite Eh in Hf. contradiction.
    + split.
      * apply targets_In. fold targets. rewrite Et. exact Hin.
      * intros t Ht. destruct (targets_complete t ts Ht) as (t' & Ht' & Heq).
        fold targets in Ht'. rewrite Et in Ht'.
        rewrite <- Heq. apply Hmax, Ht'.
  - (* some target above the rank *)
    simpl py_min. cbn [bind].
    destruct (fold_min_spec hs h) as [Hin Hmin].
    set (next_p := fold_left (fun m b => if Qltb b m then b else m) hs h) in *.
    rewrite <- Eh in Hin, Hmin.
    apply filter_In in Hin. destruct Hin as [HinT Habove].
    assert (Hnext : next_target rank ts next_p).
    { split; [apply targets_In, HinT|]. split; [exact Habove|].
      intros t Ht Hlt. destruct (targets_complete t ts Ht) as (t' & Ht' & Heq).
      rewrite <- Heq. apply Hmin, filter_In. split; [exact Ht'|].
      rewrite (fltb_compat rank t' t Heq). exact Hlt. }
    assert (Hp : np_percentile pop next_p = Ok (quantile_linear pop (next_p / 100))).
    { apply np_percentile_in_range.
      rewrite Forall_forall in Hr. apply Hr, targets_In, HinT. }
    unfold dict_get, thresholds.
    rewrite (dict_of_find_distinct _ targets next_p (targets_distinct ts) HinT).
    cbn [bind].
    destruct (quantile_linear pop (next_p / 100) - s <=? Finite 0)%F eqn:Eg.
    + eexists. split; [reflexivity|]. simpl. split; [exact Hnext|].
      eexists. split; [exact Hp|exact Eg].
    + eexists. split; [reflexivity|]. simpl. auto.
Qed.

Lemma goal_maker_runs (score : float64) (x : list raw) (ts : list Q)
    (tie_method : string) (rank : float64) :
  clean x <> [] -> ts <> [] -> Forall in_range ts ->
  percentile_rank tie_method score (clean x) = Ok rank ->
  exists m,
    goal_maker score x ts tie_method
    = Ok (GoalMaker {|
        r_n := List.length (clean x);
        r_score := score;
        r_percentile_rank := rank;
        r_tie_method := tie_method;
        r_targets :=
          dict_of (map (fun p => (p, quantile_linear (clean x) (p / 100)))
                       (sorted (py_set ts)));
        r_milestone := m |}) /\
    milestone_ok score rank (clean x) ts m.
Proof.
  intros Hx Hts Hr Hrank.
  destruct (coach_spec score rank (clean x) ts Hts Hr) as (m & Hm & Hok).
  exists m. split; [|exact Hok].
  unfold goal_maker. rewrite (clean_nonempty_length x Hx), Hrank. cbn [bind].
  rewrite (percentile_dict_ok _ _ (targets_in_range ts Hr)). cbn [bind].
  rewrite Hm. reflexivity.
Qed.

(** ** Scenario: the integers 1 to 100 *)

(** C2 as stated fails: at score 95 the mean rank is below 95, so the next
    milestone is the target 95 (not 99), with a threshold below 96 and a
    gap below 1. *)
Lemma scenario_1_100_not_99 :
  exists r rank thr gap,
    goal_maker (of_nat 95) population_1_100 default_targets "mean"
      = Ok (GoalMaker r) /\
    r_percentile_rank r = Finite rank /\ rank < 95 /\
    r_milestone r = AimFor 95 (Finite thr) (Finite gap) /\
    thr < 96 /\ gap < 1.
Proof.
  remember (goal_maker (of_nat 95) population_1_100 default_targets "mean")
    as g eqn:E.
  vm_compute in E. subst g.
  do 4 eexists. repeat split.
Qed.

(** C2, amended. For the integers 1 to 100, score 95 and targets
    80, 90, 95, 99 the mean rank is 94.5, the next milestone is 95, its
    threshold is 95.05 and the gap is 0.05. *)
Theorem scenario_1_100 :
  exists r rank thr gap,
    goal_maker (of_nat 95) population_1_100 default_targets "mean"
      = Ok (GoalMaker r) /\
    r_percentile_rank r = Finite rank /\ rank == 94.5 /\
    r_milestone r = AimFor 95 (Finite thr) (Finite gap) /\
    thr == 95.05 /\ gap == 0.05.
Proof.
  remember (goal_maker (of_nat 95) population_1_100 default_targets "mean")
    as g eqn:E.
  vm_compute in E. subst g.
  do 4 eexists. repeat split.
Qed.

(** ** analyze_array on a non-empty sample *)

Lemma analyze_array_runs (L : numerics) (x : list raw) (ps : list Q) :
  clean x <> [] -> Forall in_range ps ->
  exists r,
    analyze_array L x ps = Ok (Described r) /\
    Count r = List.length (clean x) /\
    Mean r = np_mean (clean x) /\
    Standard_Deviation r = np_std (sqrtQ L) (clean x) 1 /\
    Sample_Variance r = np_var (clean x) 1 /\
    Standard_Error r
      = (np_std (sqrtQ L) (clean x) 1
         / fsqrt (sqrtQ L) (of_nat (List.length (clean x))))%F /\
    Skewness r = skew L (clean x) /\
    Kurtosis r = kurtosis L (clean x) /\
    Percentile r
      = dict_of (map (fun p => (p, quantile_linear (clean x) (p / 100))) ps) /\
    ks_z r = map (fun v => ((v - np_mean (clean x))
                            / np_std (sqrtQ L) (clean x) 1)%F) (clean x) /\
    (ks_stat r, p_value r) = kstest_norm L (ks_z r) /\
    outcome r = if (critical_value r <? ks_stat r)%F then Reject_NotNormal
                else FailToReject_TreatAsNormal.
Proof.
  intros Hx Hr. unfold analyze_array.
  rewrite (clean_nonempty_length x Hx), (percentile_dict_ok _ _ Hr).
  destruct (clean x) as [|a l] eqn:E; [contradiction|].
  unfold np_min, np_max, reduce. cbn [bind].
  destruct (kstest_norm L _) as [ks pv] eqn:Ek.
  eexists. split; [reflexivity|]. cbn.
  repeat (split; [reflexivity|]). split; [|reflexivity].
  symmetry. exact Ek.
Qed.

Lemma analyze_array_never_raises (L : numerics) (x : list raw) (ps : list Q) :
  Forall in_range ps -> raises (analyze_array L x ps) = false.
Proof.
  intro Hr. destruct (clean x) as [|a l] eqn:E.
  - unfold analyze_array. rewrite E. reflexivity.
  - destruct (analyze_array_runs L x ps) as (r & Hrun & _);
      [rewrite E; discriminate|exact Hr|].
    rewrite Hrun. reflexivity.
Qed.


Lemma default_percentiles_in_range : Forall in_range default_percentiles.
Proof.
  in_range_tac.
Qed.




(** * Further properties of the statistics functions *)

(** ** The order on floats *)

Lemma fleb_refl (a : float64) : is_nan a = false -> (a <=? a)%F = true.
Proof.
  destruct a as [q| | |]; simpl; intro H; try reflexivity; [|discriminate].
  apply Qle_bool_iff, Qle_refl.
Qed.

Lemma fleb_trans (a b c : float64) :
  (a <=? b)%F = true -> (b <=? c)%F = true -> (a <=? c)%F = true.
Proof.
  destruct a as [x| | |], b as [y| | |], c as [w| | |]; simpl;
    try reflexivity; try discriminate.
  rewrite !Qle_bool_iff. apply Qle_trans.
Qed.

Lemma fltb_false_fleb (a b : float64) :
  is_nan a = false -> is_nan b = false ->
  (a <? b)%F = false -> (b <=? a)%F = true.
Proof.
  destruct a as [x| | |], b as [y| | |]; simpl;
    try reflexivity; try discriminate.
  intros _ _ H. apply Qle_bool_iff, Qltb_ge, H.
Qed.

Lemma fleb_fltb_false (a b : float64) :
  (a <=? b)%F = true -> (b <? a)%F = false.
Proof.
  destruct a as [x| | |], b as [y| | |]; simpl;
    try reflexivity; try discriminate.
  intro H. apply Qltb_ge, Qle_bool_iff, H.
Qed.

Lemma fltb_fleb_trans (v a b : float64) :
  (v <? a)%F = true -> (a <=? b)%F = true -> (v <? b)%F = true.
Proof.
  destruct v as [x| | |], a as [y| | |], b as [w| | |]; simpl;
    try reflexivity; try discriminate.
  rewrite !Qltb_lt, Qle_bool_iff. apply Qlt_le_trans.
Qed.

(** The running maximum and minimum of an array without NaN. *)
Lemma fold_fmax_spec (l : list float64) (a : float64) :
  existsb is_nan (a :: l) = false ->
  let m := fold_left fmax l a in
  In m (a :: l) /\ forall v, In v (a :: l) -> (v <=? m)%F = true.
Proof.
  revert a. induction l as [|c l IH]; intros a Hn; simpl in *.
  - apply orb_false_elim in Hn. destruct Hn as [Ha _].
    split; [left; reflexivity|]. intros v [<-|[]]. apply fleb_refl, Ha.
  - apply orb_false_elim in Hn. destruct Hn as [Ha Hn].
    apply orb_false_elim in Hn. destruct Hn as [Hc Hl].
    assert (Hm : fmax a c = a \/ fmax a c = c).
    { unfold fmax. rewrite Ha, Hc. simpl. destruct (a <? c)%F; auto. }
    assert (Hnan : is_nan (fmax a c) = false) by (destruct Hm as [-> | ->]; assumption).
    assert (Hac : (a <=? fmax a c)%F = true /\ (c <=? fmax a c)%F = true).
    { unfold fmax. rewrite Ha, Hc. simpl. destruct (a <? c)%F eqn:E.
      - split; [apply fltb_fleb, E|apply fleb_refl, Hc].
      - split; [apply fleb_refl, Ha|apply fltb_false_fleb; assumption]. }
    destruct (IH (fmax a c)) as [Hin Hle]; [simpl; rewrite Hnan; exact Hl|].
    split.
    + destruct Hin as [Hin|Hin]; [|right; right; exact Hin].
      rewrite <- Hin. destruct Hm as [-> | ->]; [left|right; left]; reflexivity.
    + pose proof (Hle _ (or_introl eq_refl)) as H0.
      intros v [<-|[<-|Hv]].
      * apply fleb_trans with (fmax a c); tauto.
      * apply fleb_trans with (fmax a c); tauto.
      * apply Hle. right. exact Hv.
Qed.

Lemma fold_fmin_spec (l : list float64) (a : float64) :
  existsb is_nan (a :: l) = false ->
  let m := fold_left fmin l a in
  In m (a :: l) /\ forall v, In v (a :: l) -> (m <=? v)%F = true.
Proof.
  revert a. induction l as [|c l IH]; intros a Hn; simpl in *.
  - apply orb_false_elim in Hn. destruct Hn as [Ha _].
    split; [left; reflexivity|]. intros v [<-|[]]. apply fleb_refl, Ha.
  - apply orb_false_elim in Hn. destruct Hn as [Ha Hn].
    apply orb_false_elim in Hn. destruct Hn as [Hc Hl].
    assert (Hm : fmin a c = a \/ fmin a c = c).
    { unfold fmin. rewrite Ha, Hc. simpl. destruct (c <? a)%F; auto. }
    assert (Hnan : is_nan (fmin a c) = false) by (destruct Hm as [-> | ->]; assumption).
    assert (Hac : (fmin a c <=? a)%F = true /\ (fmin a c <=? c)%F = true).
    { unfold fmin. rewrite Ha, Hc. simpl. destruct (c <? a)%F eqn:E.
      - split; [apply fltb_fleb, E|apply fleb_refl, Hc].
      - split; [apply fleb_refl, Ha|apply fltb_false_fleb; assumption]. }
    destruct (IH (fmin a c)) as [Hin Hle]; [simpl; rewrite Hnan; exact Hl|].
    split.
    + destruct Hin as [Hin|Hin]; [|right; right; exact Hin].
      rewrite <- Hin. destruct Hm as [-> | ->]; [left|right; left]; reflexivity.
    + pose proof (Hle _ (or_introl eq_refl)) as H0.
      intros v [<-|[<-|Hv]].
      * apply fleb_trans with (fmin a c); tauto.
      * apply fleb_trans with (fmin a c); tauto.
      * apply Hle. right. exact Hv.
Qed.

Lemma count_all {A : Type} (f : A -> bool) (l : list A) :
  (forall a, In a l -> f a = true) -> count f l = List.length l.
Proof.
  unfold count. induction l as [|a l IH]; intro H; simpl; [reflexivity|].
  rewrite (H a) by (left; reflexivity). simpl. f_equal.
  apply IH. intros b Hb. apply H. right. exact Hb.
Qed.

Lemma count_none {A : Type} (f : A -> bool) (l : list A) :
  (forall a, In a l -> f a = false) -> count f l = 0%nat.
Proof.
  unfold count. induction l as [|a l IH]; intro H; simpl; [reflexivity|].
  rewrite (H a) by (left; reflexivity).
  apply IH. intros b Hb. apply H. right. exact Hb.
Qed.

Lemma Qn_length_nonzero {A : Type} (l : list A) :
  l <> [] -> ~ Qn (List.length l) == 0.
Proof.
  intros Hl E.
  assert (Hp : 0 < Qn (List.length l)) by (apply Qn_pos; destruct l; simpl; congruence).
  rewrite E in Hp. apply (Qlt_irrefl _ Hp).
Qed.

(** ** More on the percentile rank *)

(** X1. The "mean" rank is the average of the "strict" and the "weak" rank,
    as the docstring of [goal_maker] says. *)
Theorem mean_rank_is_average (s : float64) (x : list raw) :
  clean x <> [] ->
  exists strict mean weak : Q,
    percentile_rank "strict" s (clean x) = Ok (Finite strict) /\
    percentile_rank "mean" s (clean x) = Ok (Finite mean) /\
    percentile_rank "weak" s (clean x) = Ok (Finite weak) /\
    mean == (strict + weak) / 2.
Proof.
  intro Hx.
  destruct (percentile_rank_eval s (clean x) Hx) as (Hs & Hw & Hm).
  do 3 eexists. split; [exact Hs|]. split; [exact Hm|]. split; [exact Hw|].
  rewrite Qn_add. field. apply Qn_length_nonzero, Hx.
Qed.

Lemma mean_rank_is_average_witness :
  clean [RNum (of_nat 10); RNum (of_nat 20); RNum (of_nat 20)] <> [] /\
  exists strict mean weak : Q,
    percentile_rank "strict" (of_nat 20)
      (clean [RNum (of_nat 10); RNum (of_nat 20); RNum (of_nat 20)]) = Ok (Finite strict) /\
    percentile_rank "mean" (of_nat 20)
      (clean [RNum (of_nat 10); RNum (of_nat 20); RNum (of_nat 20)]) = Ok (Finite mean) /\
    percentile_rank "weak" (of_nat 20)
      (clean [RNum (of_nat 10); RNum (of_nat 20); RNum (of_nat 20)]) = Ok (Finite weak) /\
    mean == (strict + weak) / 2.
Proof.
  split.
  - simpl. discriminate.
  - apply (mean_rank_is_average (of_nat 20)
             [RNum (of_nat 10); RNum (of_nat 20); RNum (of_nat 20)]).
    simpl. discriminate.
Defined.

(** The three ranks, for counts that satisfy what counts satisfy. *)
Lemma rank_cases (tie_method : string) (s : float64) (x : list float64)
    (rank : float64) :
  x <> [] -> percentile_rank tie_method s x = Ok rank ->
  exists c, rank = Finite (100 * (c / Qn (List.length x))) /\
    (c = Qn (count_lt s x) \/ c = Qn (count_le s x) \/
     c = Qn (count_lt s x + count_le s x) / 2).
Proof.
  intros Hx H.
  destruct (percentile_rank_eval s x Hx) as (Hs & Hw & Hm).
  unfold percentile_rank in H.
  destruct (tie_method =? "strict")%string eqn:E1.
  { eexists. split; [|left; reflexivity].
    unfold percentile_rank in Hs. simpl String.eqb in Hs. cbv iota in Hs.
    congruence. }
  destruct (tie_method =? "weak")%string eqn:E2.
  { eexists. split; [|right; left; reflexivity].
    unfold percentile_rank in Hw. simpl String.eqb in Hw. cbv iota in Hw.
    congruence. }
  destruct (tie_method =? "mean")%string eqn:E3; [|discriminate].
  eexists. split; [|right; right; reflexivity].
  unfold percentile_rank in Hm. simpl String.eqb in Hm. cbv iota in Hm.
  congruence.
Qed.

(** X2. Whatever the score and the tie method, the rank of a non-empty
    population lies between 0 and 100. *)
Theorem rank_within_0_100 (tie_method : string) (s : float64) (x : list raw)
    (rank : float64) :
  clean x <> [] ->
  percentile_rank tie_method s (clean x) = Ok rank ->
  exists q, rank = Finite q /\ 0 <= q /\ q <= 100.
Proof.
  intros Hx H.
  destruct (rank_cases tie_method s (clean x) rank Hx H) as (c & -> & Hc).
  eexists. split; [reflexivity|].
  set (n := Qn (List.length (clean x))).
  assert (Hn : 0 < n) by (apply Qn_pos; destruct (clean x); simpl; congruence).
  assert (Hn0 : ~ n == 0) by (apply Qn_length_nonzero, Hx).
  pose proof (Qn_nonneg (count_lt s (clean x))) as Hlt0.
  pose proof (Qn_nonneg (count_le s (clean x))) as Hle0.
  pose proof (Qn_le _ _ (count_le_length (fun v => (v <? s)%F) (clean x))) as Hlt1.
  pose proof (Qn_le _ _ (count_le_length (fun v => (v <=? s)%F) (clean x))) as Hle1.
  fold (count_lt s (clean x)) in Hlt1. fold (count_le s (clean x)) in Hle1.
  fold n in Hlt1, Hle1.
  assert (Hc' : 0 <= c /\ c <= n).
  { destruct Hc as [-> | [-> | ->]]; try (split; assumption).
    pose proof (Qn_add (count_lt s (clean x)) (count_le s (clean x))) as Hadd.
    split.
    - apply Qle_shift_div_l; [reflexivity|]. lra.
    - apply Qle_shift_div_r; [reflexivity|]. lra. }
  destruct Hc' as [Hc0 Hc1]. split.
  - setoid_replace 0 with (100 * (0 / n)) by (field; exact Hn0).
    apply rank_scale_le; assumption.
  - setoid_replace 100 with (100 * (n / n)) at 2 by (field; exact Hn0).
    apply rank_scale_le; assumption.
Qed.

Lemma rank_within_0_100_witness :
  (clean [RNum (of_nat 10); RNum PosInf] <> [] /\
   percentile_rank "weak" NaN (clean [RNum (of_nat 10); RNum PosInf])
     = Ok (Finite (100 * (Qn 0 / Qn 2)))) /\
  exists q, Finite (100 * (Qn 0 / Qn 2)) = Finite q /\ 0 <= q /\ q <= 100.
Proof.
  split.
  - split; [simpl; discriminate|reflexivity].
  - apply (rank_within_0_100 "weak" NaN [RNum (of_nat 10); RNum PosInf]).
    + simpl. discriminate.
    + reflexivity.
Defined.

(** X3. The rank never decreases when the score increases, under each tie
    method. *)
Theorem rank_monotone_in_score (tie_method : string) (s s' : float64)
    (x : list raw) (rank : float64) :
  clean x <> [] -> (s <=? s')%F = true ->
  percentile_rank tie_method s (clean x) = Ok rank ->
  exists q q',
    rank = Finite q /\
    percentile_rank tie_method s' (clean x) = Ok (Finite q') /\
    q <= q'.
Proof.
  intros Hx Hss H.
  assert (Hlt : (count_lt s (clean x) <= count_lt s' (clean x))%nat).
  { apply count_mono. intros v Hv. apply fltb_fleb_trans with s; assumption. }
  assert (Hle : (count_le s (clean x) <= count_le s' (clean x))%nat).
  { apply count_mono. intros v Hv. apply fleb_trans with s; assumption. }
  assert (Hn : 0 < Qn (List.length (clean x)))
    by (apply Qn_pos; destruct (clean x); simpl; congruence).
  destruct (percentile_rank_eval s (clean x) Hx) as (Hs & Hw & Hm).
  destruct (percentile_rank_eval s' (clean x) Hx) as (Hs' & Hw' & Hm').
  unfold percentile_rank in H.
  destruct (tie_method =? "strict")%string eqn:E1.
  { apply String.eqb_eq in E1. subst tie_method.
    do 2 eexists. split; [|split; [exact Hs'|]].
    - unfold percentile_rank in Hs. simpl String.eqb in Hs. cbv iota in Hs.
      rewrite Hs in H. injection H as <-. reflexivity.
    - apply rank_scale_le; [exact Hn|]. apply Qn_le, Hlt. }
  destruct (tie_method =? "weak")%string eqn:E2.
  { apply String.eqb_eq in E2. subst tie_method.
    do 2 eexists. split; [|split; [exact Hw'|]].
    - unfold percentile_rank in Hw. simpl String.eqb in Hw. cbv iota in Hw.
      rewrite Hw in H. injection H as <-. reflexivity.
    - apply rank_scale_le; [exact Hn|]. apply Qn_le, Hle. }
  destruct (tie_method =? "mean")%string eqn:E3; [|discriminate].
  apply String.eqb_eq in E3. subst tie_method.
  do 2 eexists. split; [|split; [exact Hm'|]].
  - unfold percentile_rank in Hm. simpl String.eqb in Hm. cbv iota in Hm.
    rewrite Hm in H. injection H as <-. reflexivity.
  - apply rank_scale_le; [exact Hn|].
    apply Qmult_le_compat_r; [|discriminate].
    apply Qn_le. lia.
Qed.

Lemma rank_monotone_in_score_witness :
  let x := [RNum (of_nat 10); RNum (of_nat 20); RNum (of_nat 30)] in
  (clean x <> [] /\ (of_nat 15 <=? PosInf)%F = true /\
   percentile_rank "mean" (of_nat 15) (clean x)
     = Ok (Finite (100 * (Qn (1 + 1) / 2 / Qn 3)))) /\
  exists q q',
    Finite (100 * (Qn (1 + 1) / 2 / Qn 3)) = Finite q /\
    percentile_rank "mean" PosInf (clean x) = Ok (Finite q') /\
    q <= q'.
Proof.
  intro x. split.
  - split; [simpl; discriminate|]. split; reflexivity.
  - apply (rank_monotone_in_score "mean" (of_nat 15) PosInf x).
    + simpl. discriminate.
    + reflexivity.
    + reflexivity.
Defined.

(** X4. In a non-empty cleaned population the smallest value has strict
    rank 0 and the largest value has weak rank 100. *)
Theorem extremes_have_extreme_ranks (x : list raw) :
  clean x <> [] ->
  exists lo hi,
    np_min (clean x) = Ok lo /\ np_max (clean x) = Ok hi /\
    returns (percentile_rank "strict" lo (clean x)) 0 /\
    returns (percentile_rank "weak" hi (clean x)) 100.
Proof.
  intro Hx.
  pose proof (clean_no_nan x) as Hnan.
  pose proof (Qn_length_nonzero (clean x) Hx) as Hn0.
  destruct (clean x) as [|a l] eqn:E; [contradiction|].
  destruct (fold_fmin_spec l a Hnan) as [_ Hmin].
  destruct (fold_fmax_spec l a Hnan) as [_ Hmax].
  exists (fold_left fmin l a), (fold_left fmax l a).
  split; [reflexivity|]. split; [reflexivity|].
  assert (Hne : a :: l <> []) by discriminate.
  split.
  - destruct (percentile_rank_eval (fold_left fmin l a) (a :: l) Hne) as (Hs & _ & _).
    eexists. split; [exact Hs|].
    unfold count_lt. rewrite count_none.
    + unfold feq. change (Qn 0) with 0. field. exact Hn0.
    + intros v Hv. apply fleb_fltb_false, Hmin, Hv.
  - destruct (percentile_rank_eval (fold_left fmax l a) (a :: l) Hne) as (_ & Hw & _).
    eexists. split; [exact Hw|].
    unfold count_le. rewrite count_all.
    + unfold feq. field. exact Hn0.
    + intros v Hv. apply Hmax, Hv.
Qed.

Lemma extremes_have_extreme_ranks_witness :
  let x := [RNum (of_nat 10); RNum NegInf; RNone; RNum (of_nat 30)] in
  clean x <> [] /\
  exists lo hi,
    np_min (clean x) = Ok lo /\ np_max (clean x) = Ok hi /\
    returns (percentile_rank "strict" lo (clean x)) 0 /\
    returns (percentile_rank "weak" hi (clean x)) 100.
Proof.
  intro x. split.
  - simpl. discriminate.
  - apply (extremes_have_extreme_ranks x). simpl. discriminate.
Defined.

(** ** When the two functions raise *)

Lemma in_range_dec (p : Q) : {in_range p} + {~ in_range p}.
Proof.
  unfold in_range.
  destruct (Qlt_le_dec p 0) as [H|H].
  - right. intros [H0 _]. apply (Qlt_not_le _ _ H H0).
  - destruct (Qlt_le_dec 100 p) as [H'|H'].
    + right. intros [_ H1]. apply (Qlt_not_le _ _ H' H1).
    + left. split; assumption.
Qed.

Lemma Forall_or_Exists_range (ps : list Q) :
  Forall in_range ps \/ Exists (fun p => ~ in_range p) ps.
Proof.
  induction ps as [|p ps IH]; [left; constructor|].
  destruct (in_range_dec p) as [Hp|Hp].
  - destruct IH as [IH|IH]; [left; constructor; assumption|right; right; exact IH].
  - right. left. exact Hp.
Qed.

Lemma np_percentile_out_of_range (x : list float64) (p : Q) :
  ~ in_range p -> raises (np_percentile x p) = true.
Proof.
  intro H. unfold np_percentile.
  destruct (Qle_bool 0 (p / 100) && Qle_bool (p / 100) 1) eqn:E; [|reflexivity].
  exfalso. apply H. apply andb_true_iff in E. destruct E as [E0 E1].
  apply Qle_bool_iff in E0, E1. split.
  - setoid_replace p with (p / 100 * 100) by field. nra.
  - setoid_replace p with (p / 100 * 100) by field. nra.
Qed.

Lemma mapM_raises {A B : Type} (f : A -> result B) (l : list A) :
  Exists (fun a => raises (f a) = true) l -> raises (mapM f l) = true.
Proof.
  induction 1 as [a l Ha|a l _ IH]; simpl.
  - destruct (f a); [discriminate|reflexivity].
  - destruct (f a); [|reflexivity]. simpl.
    destruct (mapM f l); [discriminate|reflexivity].
Qed.

Lemma percentile_dict_raises (x : list float64) (ps : list Q) :
  Exists (fun p => ~ in_range p) ps -> raises (percentile_dict x ps) = true.
Proof.
  intro H. unfold percentile_dict.
  assert (Hm : raises (mapM (fun p => v <- np_percentile x p ;; Ok (p, v)) ps) = true).
  { apply mapM_raises. eapply Exists_impl; [|exact H].
    intros p Hp. simpl. pose proof (np_percentile_out_of_range x p Hp) as Hr.
    destruct (np_percentile x p); [discriminate|reflexivity]. }
  destruct (mapM _ ps); [discriminate|reflexivity].
Qed.

Lemma valid_tie_returns (tie_method : string) (s : float64) (x : list float64) :
  x <> [] -> In tie_method ["strict"; "weak"; "mean"]%string ->
  exists rank, percentile_rank tie_method s x = Ok rank.
Proof.
  intros Hx Hin. destruct (percentile_rank_eval s x Hx) as (Hs & Hw & Hm).
  simpl in Hin. destruct Hin as [<-|[<-|[<-|[]]]]; eauto.
Qed.

Lemma empty_population_before_tie_check_aux
    (score : float64) (x : list raw) (ts : list Q) (tie_method : string) :
  clean x = [] -> goal_maker score x ts tie_method = Ok NoValidPopulation.
Proof.
  intro H. unfold goal_maker. rewrite H. reflexivity.
Qed.

Lemma clean_empty_iff (x : list raw) :
  clean x = [] <-> Forall (fun r => r = RNone \/ r = RNum NaN) x.
Proof.
  induction x as [|r x IH].
  - split; [constructor|reflexivity].
  - destruct r as [v|].
    + destruct (is_nan v) eqn:E.
      * destruct v; try discriminate.
        change (clean (RNum NaN :: x)) with (clean x). rewrite IH.
        split; [intro H; constructor; auto|intro H; inversion H; assumption].
      * assert (Hc : clean (RNum v :: x) = v :: clean x)
          by (unfold clean; simpl; rewrite E; reflexivity).
        rewrite Hc. split; [discriminate|].
        intro H. inversion H as [|? ? [Hn|Hn] _]; subst; [discriminate|].
        injection Hn as ->. discriminate.
    + change (clean (RNone :: x)) with (clean x). rewrite IH.
      split; [intro H; constructor; auto|intro H; inversion H; assumption].
Qed.

(** X10. Each function reports that there is no valid data exactly when
    every entry of the input is missing or NaN, whatever its other
    arguments are (also percentiles, targets or a tie method it would
    otherwise reject). *)
Theorem no_data_iff_all_missing
    (L : numerics) (score : float64) (x : list raw) (ps ts : list Q)
    (tie_method : string) :
  (analyze_array L x ps = Ok NoValidNumericData <->
   Forall (fun r => r = RNone \/ r = RNum NaN) x) /\
  (goal_maker score x ts tie_method = Ok NoValidPopulation <->
   Forall (fun r => r = RNone \/ r = RNum NaN) x).
Proof.
  rewrite <- clean_empty_iff. split; split.
  - intro H. destruct (clean x) as [|a l] eqn:E; [reflexivity|exfalso].
    unfold analyze_array in H. rewrite E in H.
    unfold np_min, np_max, reduce in H. cbn [List.length Nat.eqb bind] in H.
    destruct (percentile_dict (a :: l) ps); cbn [bind] in H; [|discriminate].
    destruct (kstest_norm L _); discriminate.
  - intro E. unfold analyze_array. rewrite E. reflexivity.
  - intro H. destruct (clean x) as [|a l] eqn:E; [reflexivity|exfalso].
    unfold goal_maker in H. rewrite E in H. cbn [List.length Nat.eqb] in H.
    destruct (percentile_rank tie_method score (a :: l)); cbn [bind] in H; [|discriminate].
    destruct (percentile_dict (a :: l) (sorted (py_set ts))); cbn [bind] in H; [|discriminate].
    destruct (coach _ _ _ _); discriminate.
  - intro E. unfold goal_maker. rewrite E. reflexivity.
Qed.

(** ** The thresholds dictionary *)

Lemma py_set_NoDup (l : list Q) : NoDup (py_set l).
Proof.
  induction l as [|a l IH]; simpl; constructor.
  - intro H. apply filter_In in H. destruct H as [_ H].
    rewrite Qeq_bool_refl in H. discriminate.
  - apply NoDup_filter, IH.
Qed.

Lemma targets_strictly_sorted (ts : list Q) :
  StronglySorted Qlt (sorted (py_set ts)).
Proof.
  pose proof (sorted_Qle (py_set ts)) as Hs.
  pose proof (targets_distinct ts) as Hd.
  assert (Hn : NoDup (sorted (py_set ts))).
  { apply (Permutation_NoDup (Permutation_sym (sorted_perm _))), py_set_NoDup. }
  revert Hd Hn. induction Hs as [|a l Hs IH Hall]; intros Hd Hn; constructor.
  - apply IH.
    + intros b c Hb Hc. apply Hd; right; assumption.
    + inversion Hn; assumption.
  - rewrite Forall_forall in *. intros b Hb.
    destruct (Qle_lt_or_eq _ _ (Hall b Hb)) as [Hlt|Heq]; [exact Hlt|].
    exfalso. inversion Hn as [|? ? Hnot _]; subst. apply Hnot.
    rewrite (Hd a b (or_introl eq_refl) (or_intror Hb) Heq). exact Hb.
Qed.

Lemma dict_set_fresh {V : Type} (k : Q) (v : V) (d : dict V) :
  Forall (fun kv => fst kv < k) d -> dict_set k v d = d ++ [(k, v)].
Proof.
  induction 1 as [|[k' v'] d Hk _ IH]; simpl; [reflexivity|].
  simpl in Hk. rewrite Qeq_bool_false, IH; [reflexivity|].
  intro E. rewrite E in Hk. apply (Qlt_irrefl _ Hk).
Qed.

Lemma dict_of_sorted_aux {V : Type} (kvs d : list (Q * V)) :
  StronglySorted Qlt (map fst kvs) ->
  Forall (fun kv => Forall (fun kv' => fst kv < fst kv') kvs) d ->
  fold_left (fun d kv => dict_set (fst kv) (snd kv) d) kvs d = d ++ kvs.
Proof.
  revert d. induction kvs as [|[k v] kvs IH]; intros d Hs Hd; simpl.
  - rewrite app_nil_r. reflexivity.
  - simpl in Hs. inversion Hs as [|? ? Hs' Hall]; subst.
    rewrite dict_set_fresh.
    + rewrite IH; [rewrite <- app_assoc; reflexivity|exact Hs'|].
      apply Forall_app. split.
      * eapply Forall_impl; [|exact Hd]. intros kv H. inversion H; assumption.
      * constructor; [|constructor]. simpl.
        rewrite Forall_map in Hall. exact Hall.
    + eapply Forall_impl; [|exact Hd]. intros kv H. inversion H; assumption.
Qed.

(** A comprehension over strictly increasing keys is stored as written. *)
Lemma dict_of_sorted {V : Type} (f : Q -> V) (ks : list Q) :
  StronglySorted Qlt ks ->
  dict_of (map (fun k => (k, f k)) ks) = map (fun k => (k, f k)) ks.
Proof.
  intro Hs. unfold dict_of. rewrite dict_of_sorted_aux; [reflexivity| |constructor].
  rewrite map_map. simpl. rewrite map_id. exact Hs.
Qed.

Lemma percentile_dict_inv (x : list float64) (ps : list Q) (d : dict float64) :
  percentile_dict x ps = Ok d ->
  Forall in_range ps /\
  d = dict_of (map (fun p => (p, quantile_linear x (p / 100))) ps).
Proof.
  intro H. destruct (Forall_or_Exists_range ps) as [Hall|Hex].
  - split; [exact Hall|]. rewrite (percentile_dict_ok x ps Hall) in H. congruence.
  - pose proof (percentile_dict_raises x ps Hex) as Hr.
    rewrite H in Hr. discriminate.
Qed.

(** What a successful call of [goal_maker] went through. *)
Lemma goal_maker_inv (score : float64) (x : list raw) (ts : list Q)
    (tie_method : string) (r : goal_report) :
  goal_maker score x ts tie_method = Ok (GoalMaker r) ->
  clean x <> [] /\
  r_n r = List.length (clean x) /\ r_score r = score /\
  r_tie_method r = tie_method /\
  percentile_rank tie_method score (clean x) = Ok (r_percentile_rank r) /\
  percentile_dict (clean x) (sorted (py_set ts)) = Ok (r_targets r) /\
  coach score (r_percentile_rank r) (sorted (py_set ts)) (r_targets r)
    = Ok (r_milestone r).
Proof.
  intro H. unfold goal_maker in H.
  destruct (clean x) as [|a l] eqn:E; [discriminate|].
  cbn [List.length Nat.eqb] in H.
  destruct (percentile_rank tie_method score (a :: l)) as [rank|] eqn:Er;
    [|discriminate].
  cbn [bind] in H.
  destruct (percentile_dict (a :: l) (sorted (py_set ts))) as [d|] eqn:Ed;
    [|discriminate].
  cbn [bind] in H.
  destruct (coach score rank (sorted (py_set ts)) d) as [m|] eqn:Em;
    [|discriminate].
  cbn [bind] in H. injection H as <-. simpl.
  split; [discriminate|]. repeat split; assumption.
Qed.

(** X11. When [goal_maker] succeeds, the keys of its thresholds are the
    caller's targets without repetition and in strictly increasing order,
    and the value stored at each key is [np.percentile] of the cleaned
    population at that key. *)
Theorem thresholds_keys_sorted_distinct
    (score : float64) (x : list raw) (ts : list Q) (tie_method : string)
    (r : goal_report) :
  goal_maker score x ts tie_method = Ok (GoalMaker r) ->
  StronglySorted Qlt (map fst (r_targets r)) /\
  (forall k, In k (map fst (r_targets r)) -> In k ts) /\
  (forall t, In t ts -> exists k, In k (map fst (r_targets r)) /\ k == t) /\
  (forall k v, In (k, v) (r_targets r) -> np_percentile (clean x) k = Ok v).
Proof.
  intro H.
  destruct (goal_maker_inv _ _ _ _ _ H) as (_ & _ & _ & _ & _ & Hd & _).
  destruct (percentile_dict_inv _ _ _ Hd) as [Hr Ed].
  pose proof (targets_strictly_sorted ts) as Hs.
  rewrite (dict_of_sorted _ _ Hs) in Ed.
  assert (Ek : map fst (r_targets r) = sorted (py_set ts)).
  { rewrite Ed, map_map. simpl. apply map_id. }
  rewrite Ek. split; [exact Hs|].
  split; [intros k Hk; apply targets_In, Hk|].
  split; [intros t Ht; apply targets_complete, Ht|].
  intros k v Hkv. rewrite Ed in Hkv. apply in_map_iff in Hkv.
  destruct Hkv as (k' & Epair & Hk'). injection Epair as -> <-.
  apply np_percentile_in_range. rewrite Forall_forall in Hr. apply Hr, Hk'.
Qed.

Lemma thresholds_keys_sorted_distinct_witness :
  exists r,
    goal_maker (of_nat 20) [RNum (of_nat 10); RNum (of_nat 20); RNum (of_nat 30)]
      [95; 80; 95; 90] "weak" = Ok (GoalMaker r) /\
    (StronglySorted Qlt (map fst (r_targets r)) /\
     (forall k, In k (map fst (r_targets r)) -> In k [95; 80; 95; 90]) /\
     (forall t, In t [95; 80; 95; 90] ->
        exists k, In k (map fst (r_targets r)) /\ k == t) /\
     (forall k v, In (k, v) (r_targets r) ->
        np_percentile
          (clean [RNum (of_nat 10); RNum (of_nat 20); RNum (of_nat 30)]) k = Ok v)).
Proof.
  eexists. split; [reflexivity|].
  apply (thresholds_keys_sorted_distinct (of_nat 20)
           [RNum (of_nat 10); RNum (of_nat 20); RNum (of_nat 30)]
           [95; 80; 95; 90] "weak").
  reflexivity.
Defined.

(** ** A score above the whole population *)

(** X14. When the score is above every value of the population, the rank
    is 100 under each tie method and, for targets in [0,100], the coaching
    line is the at-the-highest-target message naming the largest target. *)
Theorem score_above_all_is_at_top
    (score : float64) (x : list raw) (ts : list Q) (tie_method : string) :
  clean x <> [] -> (forall v, In v (clean x) -> (v <? score)%F = true) ->
  In tie_method ["strict"; "weak"; "mean"]%string ->
  ts <> [] -> Forall in_range ts ->
  exists r top,
    goal_maker score x ts tie_method = Ok (GoalMaker r) /\
    r_percentile_rank r =f= Finite 100 /\
    r_milestone r = AtHighestTarget top /\ highest_target ts top.
Proof.
  intros Hx Habove Htie Hts Hr.
  destruct (valid_tie_returns tie_method score (clean x) Hx Htie) as (rank & Hrank).
  destruct (rank_cases tie_method score (clean x) rank Hx Hrank) as (c & Erank & Hc).
  assert (Hlt : count_lt score (clean x) = List.length (clean x))
    by (apply count_all, Habove).
  assert (Hle : count_le score (clean x) = List.length (clean x))
    by (apply count_all; intros v Hv; apply fltb_fleb, Habove, Hv).
  pose proof (Qn_length_nonzero (clean x) Hx) as Hn0.
  assert (Ec : c == Qn (List.length (clean x))).
  { destruct Hc as [-> | [-> | ->]]; rewrite ?Hlt, ?Hle; try reflexivity.
    rewrite Qn_add. field. }
  assert (E100 : 100 * (c / Qn (List.length (clean x))) == 100).
  { rewrite Ec. field. exact Hn0. }
  destruct (goal_maker_runs score x ts tie_method rank Hx Hts Hr Hrank)
    as (m & Hrun & Hok).
  assert (Hno : forall p, In p ts -> (rank <? Finite p)%F = true -> False).
  { intros p Hp Hlt'. rewrite Erank in Hlt'. simpl in Hlt'.
    apply Qltb_lt in Hlt'. rewrite E100 in Hlt'.
    rewrite Forall_forall in Hr. destruct (Hr p Hp) as [_ H100].
    apply (Qlt_not_le _ _ Hlt' H100). }
  destruct m as [p|p thr gap|top]; simpl in Hok.
  - exfalso. destruct Hok as ((Hp & Hlt' & _) & _). apply (Hno p Hp Hlt').
  - exfalso. destruct Hok as ((Hp & Hlt' & _) & _). apply (Hno p Hp Hlt').
  - destruct Hok as [_ Htop]. do 2 eexists.
    split; [exact Hrun|]. split; [|split; [reflexivity|exact Htop]].
    simpl. rewrite Erank. exact E100.
Qed.

Lemma score_above_all_is_at_top_witness :
  let x := [RNum (of_nat 10); RNum (of_nat 20); RNum (of_nat 30)] in
  (clean x <> [] /\
   forallb (fun v => (v <? of_nat 31)%F) (clean x) = true /\
   In "mean"%string ["strict"; "weak"; "mean"]%string /\
   default_targets <> [] /\ Forall in_range default_targets) /\
  exists r top,
    goal_maker (of_nat 31) x default_targets "mean" = Ok (GoalMaker r) /\
    r_percentile_rank r =f= Finite 100 /\
    r_milestone r = AtHighestTarget top /\ highest_target default_targets top.
Proof.
  intro x. split.
  - split; [simpl; discriminate|]. split; [reflexivity|].
    split; [simpl; tauto|]. split; [discriminate|in_range_tac].
  - apply (score_above_all_is_at_top (of_nat 31) x default_targets "mean").
    + simpl. discriminate.
    + intros v Hv. simpl in Hv.
      destruct Hv as [<-|[<-|[<-|[]]]]; reflexivity.
    + simpl. tauto.
    + discriminate.
    + in_range_tac.
Defined.

(** * Properties of transcript.py *)

(** ** Strings *)

Lemma lstrip_suffix (s : str) : exists ws, s = ws ++ lstrip s /\ forallb isspace ws = true.
Proof.
  induction s as [|c s IH]; simpl.
  - exists []. auto.
  - destruct (isspace c) eqn:E.
    + destruct IH as (ws & Hs & Hw). exists (c :: ws). simpl.
      rewrite E, Hw. split; [f_equal; exact Hs|reflexivity].
    + exists []. auto.
Qed.

Lemma rstrip_prefix (s : str) : exists ws, s = rstrip s ++ ws /\ forallb isspace ws = true.
Proof.
  unfold rstrip. destruct (lstrip_suffix (rev s)) as (ws & Hs & Hw).
  exists (rev ws). split.
  - apply (f_equal (@rev N)) in Hs.
    rewrite rev_involutive, rev_app_distr in Hs. exact Hs.
  - rewrite forallb_forall in *. intros c Hc. apply Hw, in_rev, Hc.
Qed.

Lemma strip_piece (s : str) : exists a b, s = a ++ strip s ++ b.
Proof.
  unfold strip. destruct (lstrip_suffix s) as (ws & Hs & _).
  destruct (rstrip_prefix (lstrip s)) as (ws' & Hs' & _).
  exists ws, ws'. rewrite <- Hs'. exact Hs.
Qed.

Lemma startswith_app (p s : str) : startswith p s = true -> exists t, s = p ++ t.
Proof.
  revert s. induction p as [|a p IH]; intros s H; simpl in *.
  - exists s. reflexivity.
  - destruct s as [|b s]; [discriminate|].
    apply andb_true_iff in H. destruct H as [E H]. apply N.eqb_eq in E. subst b.
    destruct (IH s H) as (t & ->). exists t. reflexivity.
Qed.

Lemma startswith_refl_app (p t : str) : startswith p (p ++ t) = true.
Proof.
  induction p as [|a p IH]; simpl; [reflexivity|].
  rewrite N.eqb_refl. exact IH.
Qed.

(** ** The pieces of the patterns *)

Lemma id_run_spec (n : nat) (s : str) :
  forallb is_id_char (id_run n s) = true /\
  (List.length (id_run n s) <= n)%nat /\
  exists rest, s = id_run n s ++ rest.
Proof.
  revert s. induction n as [|n IH]; intro s; simpl.
  - destruct s; simpl; (split; [reflexivity|]); (split; [lia|]);
      eexists; reflexivity.
  - destruct s as [|c s]; simpl.
    + split; [reflexivity|]. split; [lia|]. exists []. reflexivity.
    + destruct (is_id_char c) eqn:E; simpl.
      * destruct (IH s) as (Hf & Hl & rest & Hs). rewrite E, Hf.
        split; [reflexivity|]. split; [lia|]. exists rest. f_equal. exact Hs.
      * split; [reflexivity|]. split; [lia|]. exists (c :: s). reflexivity.
Qed.

Lemma match_id_spec (s g : str) :
  match_id s = Some g -> id_shaped g /\ exists rest, s = g ++ rest.
Proof.
  pose proof (id_run_spec 20 s) as H0. unfold match_id. cbv zeta.
  revert H0. generalize (id_run 20 s). intros r (Hf & Hl & Hrest).
  destruct (8 <=? List.length r)%nat eqn:E; [|discriminate].
  intro H. injection H as <-.
  apply Nat.leb_le in E. split; [split; [exact Hf|lia]|exact Hrest].
Qed.

Lemma search_spec (m : str -> option str) (s g : str) :
  search m s = Some g -> exists pre suf, s = pre ++ suf /\ m suf = Some g.
Proof.
  induction s as [|c s IH]; simpl.
  - destruct (m []) eqn:E; [|discriminate].
    intro H. injection H as <-. exists [], []. auto.
  - destruct (m (c :: s)) eqn:E.
    + intro H. injection H as <-. exists [], (c :: s). auto.
    + intro H. destruct (IH H) as (pre & suf & -> & Hm).
      exists (c :: pre), suf. auto.
Qed.

Lemma match_v_param_spec (s g : str) :
  match_v_param s = Some g ->
  id_shaped g /\ exists a b, s = a ++ g ++ b.
Proof.
  unfold match_v_param. destruct s as [|c [|v [|e rest]]]; try discriminate.
  destruct (_ && _ && _); [|discriminate].
  intro H. destruct (match_id_spec rest g H) as (Hshape & t & ->).
  split; [exact Hshape|]. exists [c; v; e], t. reflexivity.
Qed.

Lemma match_short_spec (s g : str) :
  match_short s = Some g ->
  id_shaped g /\ exists a b, s = a ++ g ++ b.
Proof.
  unfold match_short. destruct (startswith (lit "youtu.be/") s) eqn:E; [|discriminate].
  destruct (startswith_app _ _ E) as (t & ->).
  change (skipn 9 (lit "youtu.be/" ++ t)) with t.
  intro H. destruct (match_id_spec t g H) as (Hshape & u & ->).
  split; [exact Hshape|]. exists (lit "youtu.be/"), u. reflexivity.
Qed.

Lemma extract_video_id_piece (url_or_id v : str) :
  extract_video_id url_or_id = Return v ->
  forallb is_id_char v = true /\ (8 <= List.length v <= 20)%nat /\
  exists a b, url_or_id = a ++ v ++ b.
Proof.
  unfold extract_video_id. cbv zeta.
  destruct (strip_piece url_or_id) as (a0 & b0 & Hs).
  destruct (fullmatch_id (strip url_or_id) && negb (contains (lit "http") (strip url_or_id)))
    eqn:E.
  - intro H. injection H as <-.
    apply andb_true_iff in E. destruct E as [E _]. unfold fullmatch_id in E.
    apply andb_true_iff in E. destruct E as [E E3].
    apply andb_true_iff in E. destruct E as [E1 E2].
    apply Nat.leb_le in E2, E3.
    split; [exact E1|]. split; [lia|]. exists a0, b0. exact Hs.
  - assert (Hpiece : forall m g,
              (forall s g, m s = Some g -> id_shaped g /\ exists a b, s = a ++ g ++ b) ->
              search m (strip url_or_id) = Some g ->
              forallb is_id_char g = true /\ (8 <= List.length g <= 20)%nat /\
              exists a b, url_or_id = a ++ g ++ b).
    { intros m g Hm Hsearch.
      destruct (search_spec m _ g Hsearch) as (pre & suf & Hps & Hmatch).
      destruct (Hm suf g Hmatch) as ((Hf & Hl) & a & b & ->).
      split; [exact Hf|]. split; [exact Hl|].
      exists (a0 ++ pre ++ a), (b ++ b0). rewrite Hs, Hps.
      rewrite <- !app_assoc. reflexivity. }
    destruct (search match_v_param (strip url_or_id)) as [g|] eqn:E1.
    + intro H. injection H as <-. apply (Hpiece match_v_param g match_v_param_spec E1).
    + destruct (search match_short (strip url_or_id)) as [g|] eqn:E2; [|discriminate].
      intro H. injection H as <-. apply (Hpiece match_short g match_short_spec E2).
Qed.

(** X15. Whatever the input, an id that [extract_video_id] returns has 8 to
    20 characters, all of them letters, digits, [_] or [-], and it occurs
    in the input as written. *)
Theorem extract_video_id_shape (url_or_id v : str) :
  extract_video_id url_or_id = Return v ->
  forallb is_id_char v = true /\ (8 <= List.length v <= 20)%nat /\
  exists a b, url_or_id = a ++ v ++ b.
Proof.
  apply extract_video_id_piece.
Qed.

Lemma extract_video_id_shape_witness :
  extract_video_id (lit "https://youtu.be/joBmbh0AGSQ?t=10") = Return (lit "joBmbh0AGSQ") /\
  (forallb is_id_char (lit "joBmbh0AGSQ") = true /\
   (8 <= List.length (lit "joBmbh0AGSQ") <= 20)%nat /\
   exists a b, lit "https://youtu.be/joBmbh0AGSQ?t=10" = a ++ lit "joBmbh0AGSQ" ++ b).
Proof.
  split.
  - reflexivity.
  - apply (extract_video_id_shape (lit "https://youtu.be/joBmbh0AGSQ?t=10")
             (lit "joBmbh0AGSQ")).
    reflexivity.
Defined.

Lemma id_char_not_separator (c : N) :
  is_id_char c = true -> ((c =? 63) || (c =? 38))%N = false.
Proof.
  intro H.
  destruct (N.eqb_spec c 63) as [->|_]; [discriminate H|].
  destruct (N.eqb_spec c 38) as [->|_]; [discriminate H|].
  reflexivity.
Qed.

Lemma id_chars_no_v_param (s : str) :
  forallb is_id_char s = true -> search match_v_param s = None.
Proof.
  induction s as [|c s IH]; intro H; [reflexivity|].
  simpl in H. apply andb_true_iff in H. destruct H as [Hc Hs].
  cbn [search]. rewrite (IH Hs).
  unfold match_v_param. destruct s as [|v [|e rest]]; try reflexivity.
  rewrite (id_char_not_separator c Hc). reflexivity.
Qed.

Lemma id_chars_no_short_link (s : str) :
  forallb is_id_char s = true -> search match_short s = None.
Proof.
  induction s as [|c s IH]; intro H; [reflexivity|].
  pose proof H as H'. simpl in H'. apply andb_true_iff in H'. destruct H' as [_ Hs].
  cbn [search]. rewrite (IH Hs).
  unfold match_short. destruct (startswith (lit "youtu.be/") (c :: s)) eqn:E; [|reflexivity].
  exfalso. destruct (startswith_app _ _ E) as (t & Et). rewrite Et in H.
  rewrite forallb_app in H. apply andb_true_iff in H. destruct H as [H _].
  discriminate H.
Qed.

(** X16. An input that, once stripped, consists of id characters only is
    returned unchanged when it is 8 to 20 characters long and does not
    contain "http"; otherwise it is rejected with [ValueError]. *)
Theorem extract_video_id_raw (url_or_id : str) :
  forallb is_id_char (strip url_or_id) = true ->
  extract_video_id url_or_id
  = if (8 <=? List.length (strip url_or_id))%nat
       && (List.length (strip url_or_id) <=? 20)%nat
       && negb (contains (lit "http") (strip url_or_id))
    then Return (strip url_or_id) else Throw PyValueError.
Proof.
  intro H. unfold extract_video_id, fullmatch_id. cbv zeta.
  rewrite H, (id_chars_no_v_param _ H), (id_chars_no_short_link _ H).
  simpl andb. destruct (_ && _ && _); reflexivity.
Qed.

Lemma extract_video_id_raw_witness :
  forallb is_id_char (strip (lit "  joBmbh0AGSQ ")) = true /\
  extract_video_id (lit "  joBmbh0AGSQ ")
  = if (8 <=? List.length (strip (lit "  joBmbh0AGSQ ")))%nat
       && (List.length (strip (lit "  joBmbh0AGSQ ")) <=? 20)%nat
       && negb (contains (lit "http") (strip (lit "  joBmbh0AGSQ ")))
    then Return (strip (lit "  joBmbh0AGSQ ")) else Throw PyValueError.
Proof.
  split.
  - reflexivity.
  - apply (extract_video_id_raw (lit "  joBmbh0AGSQ ")). reflexivity.
Defined.

(** ** Stripping around a middle part *)

Lemma id_char_not_space (c : N) : is_id_char c = true -> isspace c = false.
Proof.
  intro H. apply not_true_is_false. intro H'.
  unfold is_id_char in H. unfold isspace in H'.
  repeat rewrite ?orb_true_iff, ?andb_true_iff, ?N.leb_le, ?N.eqb_eq in H.
  repeat rewrite ?orb_true_iff, ?andb_true_iff, ?N.leb_le, ?N.eqb_eq in H'.
  lia.
Qed.

Lemma space_prefix_split (ws x pre y : str) (c : N) :
  forallb isspace ws = true -> isspace c = false ->
  ws ++ x = pre ++ c :: y -> exists pre', pre = ws ++ pre'.
Proof.
  revert pre. induction ws as [|w ws IH]; intros pre Hw Hc E.
  - exists pre. reflexivity.
  - simpl in Hw. apply andb_true_iff in Hw. destruct Hw as [Hw1 Hw2].
    destruct pre as [|p pre]; simpl in E.
    + injection E as -> _. congruence.
    + injection E as -> E. destruct (IH pre Hw2 Hc E) as (pre' & ->).
      exists pre'. reflexivity.
Qed.

Lemma space_suffix_split (ws x rest y : str) (c : N) :
  forallb isspace ws = true -> isspace c = false ->
  x ++ ws = y ++ c :: rest -> exists rest', rest = rest' ++ ws.
Proof.
  intros Hw Hc E. apply (f_equal (@rev N)) in E.
  rewrite !rev_app_distr in E. simpl in E. rewrite <- app_assoc in E. simpl in E.
  destruct (space_prefix_split (rev ws) (rev x) (rev rest) (rev y) c) as (r & Hr).
  - rewrite forallb_forall in *. intros a Ha. apply Hw, in_rev, Ha.
  - exact Hc.
  - exact E.
  - exists (rev r). apply (f_equal (@rev N)) in Hr.
    rewrite rev_involutive, rev_app_distr, rev_involutive in Hr. exact Hr.
Qed.

(** Stripping cannot reach into a part that begins and ends with a
    character that is not white space. *)
Lemma strip_keeps_middle (pre mid rest : str) (c1 c2 : N) (m1 m2 : str) :
  mid = c1 :: m1 -> mid = m2 ++ [c2] ->
  isspace c1 = false -> isspace c2 = false ->
  exists w1 pre' rest' w2,
    pre = w1 ++ pre' /\ rest = rest' ++ w2 /\
    strip (pre ++ mid ++ rest) = pre' ++ mid ++ rest'.
Proof.
  intros E1 E2 H1 H2.
  set (s := pre ++ mid ++ rest).
  destruct (lstrip_suffix s) as (w1 & Hs & Hw1).
  destruct (rstrip_prefix (lstrip s)) as (w2 & Hs' & Hw2).
  fold (strip s) in Hs'.
  destruct (space_prefix_split w1 (lstrip s) pre (m1 ++ rest) c1 Hw1 H1) as (pre' & Hpre).
  { rewrite <- Hs. unfold s. rewrite E1. reflexivity. }
  assert (Hl : lstrip s = pre' ++ mid ++ rest).
  { apply (app_inv_head w1). rewrite <- Hs. unfold s. rewrite Hpre, <- app_assoc.
    reflexivity. }
  destruct (space_suffix_split w2 (strip s) rest (pre' ++ m2) c2 Hw2 H2) as (rest' & Hrest).
  { rewrite <- Hs', Hl, E2, <- !app_assoc. reflexivity. }
  exists w1, pre', rest', w2. split; [exact Hpre|]. split; [exact Hrest|].
  apply (app_inv_tail w2). rewrite <- Hs', Hl, Hrest, <- !app_assoc. reflexivity.
Qed.

(** ** Matching an id in front of the rest *)

Lemma id_run_app (n : nat) (v rest : str) :
  forallb is_id_char v = true -> (List.length v <= n)%nat ->
  (List.length v = n \/ rest = [] \/
   exists c r, rest = c :: r /\ is_id_char c = false) ->
  id_run n (v ++ rest) = v.
Proof.
  revert n. induction v as [|c v IH]; intros n Hf Hl Hend.
  - simpl. destruct n as [|n]; [destruct rest; reflexivity|].
    destruct Hend as [H|[->|(c & r & -> & Hc)]]; [discriminate|reflexivity|].
    simpl. rewrite Hc. reflexivity.
  - simpl in Hf. apply andb_true_iff in Hf. destruct Hf as [Hc Hf].
    destruct n as [|n]; [simpl in Hl; lia|].
    simpl. rewrite Hc. f_equal. apply IH; [exact Hf|simpl in Hl; lia|].
    destruct Hend as [H|H]; [left; simpl in H; lia|right; exact H].
Qed.

Lemma match_id_app (v rest : str) :
  id_shaped v -> id_ends v rest -> match_id (v ++ rest) = Some v.
Proof.
  intros [Hf Hl] Hend. unfold match_id. cbv zeta.
  rewrite (id_run_app 20 v rest Hf (proj2 Hl) Hend).
  destruct (Nat.leb_spec 8 (List.length v)); [reflexivity|lia].
Qed.

Lemma id_ends_prefix (v rest rest' w : str) :
  rest = rest' ++ w -> id_ends v rest -> id_ends v rest'.
Proof.
  intros E [H|[H|(c & r & H & Hc)]].
  - left. exact H.
  - right. left. rewrite H in E. destruct rest'; [reflexivity|discriminate].
  - destruct rest' as [|c' r']; [right; left; reflexivity|].
    right. right. exists c', r'. split; [reflexivity|].
    rewrite H in E. injection E as -> _. exact Hc.
Qed.

Lemma search_v_param_skip (pre x : str) :
  no_separator pre ->
  search match_v_param (pre ++ x) = search match_v_param x.
Proof.
  unfold no_separator. induction pre as [|c pre IH]; intro H; [reflexivity|].
  simpl in H. apply andb_true_iff in H. destruct H as [Hc H].
  apply negb_true_iff in Hc.
  cbn [app search]. rewrite (IH H).
  assert (Hm : match_v_param (c :: pre ++ x) = None).
  { unfold match_v_param. destruct (pre ++ x) as [|v [|e r]]; try reflexivity.
    rewrite Hc. reflexivity. }
  rewrite Hm. reflexivity.
Qed.

Lemma separator_not_id (sep : N) : (sep = 63 \/ sep = 38)%N -> is_id_char sep = false.
Proof.
  intros [-> | ->]; reflexivity.
Qed.

Lemma separator_not_space (sep : N) : (sep = 63 \/ sep = 38)%N -> isspace sep = false.
Proof.
  intros [-> | ->]; reflexivity.
Qed.

Lemma no_separator_suffix (w pre' : str) : no_separator (w ++ pre') -> no_separator pre'.
Proof.
  unfold no_separator. rewrite forallb_app. intro H.
  apply andb_true_iff in H. tauto.
Qed.

Lemma id_shaped_last (v : str) :
  id_shaped v -> exists v0 c, v = v0 ++ [c] /\ isspace c = false.
Proof.
  intros [Hf Hl]. destruct (exists_last (l := v)) as (v0 & c & E).
  { intro E. rewrite E in Hl. simpl in Hl. lia. }
  exists v0, c. split; [exact E|].
  apply id_char_not_space. rewrite E, forallb_app in Hf.
  apply andb_true_iff in Hf. destruct Hf as [_ Hf]. simpl in Hf.
  rewrite andb_true_r in Hf. exact Hf.
Qed.

Lemma v_param_found (pre v rest : str) (sep : N) :
  no_separator pre -> (sep = 63 \/ sep = 38)%N ->
  id_shaped v -> id_ends v rest ->
  extract_video_id (pre ++ sep :: 118%N :: 61%N :: v ++ rest) = Return v.
Proof.
  intros Hpre Hsep Hv Hend.
  destruct (id_shaped_last v Hv) as (v0 & c & Ev & Hc).
  destruct (strip_keeps_middle pre (sep :: 118%N :: 61%N :: v) rest sep c
              (118%N :: 61%N :: v) (sep :: 118%N :: 61%N :: v0))
    as (w1 & pre' & rest' & w2 & Epre & Erest & Estrip).
  - reflexivity.
  - rewrite Ev. reflexivity.
  - apply separator_not_space, Hsep.
  - exact Hc.
  - unfold extract_video_id. cbv zeta.
    change (pre ++ sep :: 118%N :: 61%N :: v ++ rest)
      with (pre ++ (sep :: 118%N :: 61%N :: v) ++ rest).
    rewrite Estrip.
    assert (Hfull : fullmatch_id (pre' ++ (sep :: 118%N :: 61%N :: v) ++ rest') = false).
    { unfold fullmatch_id. rewrite forallb_app. simpl.
      rewrite (separator_not_id sep Hsep). simpl. rewrite andb_false_r. reflexivity. }
    rewrite Hfull. simpl andb. cbv iota.
    rewrite search_v_param_skip
      by (rewrite Epre in Hpre; apply (no_separator_suffix w1), Hpre).
    cbn [app search].
    assert (Hm : match_v_param (sep :: 118%N :: 61%N :: v ++ rest') = Some v).
    { unfold match_v_param.
      assert (Hs : ((sep =? 63) || (sep =? 38))%N = true)
        by (destruct Hsep as [-> | ->]; reflexivity).
      rewrite Hs. simpl. apply match_id_app; [exact Hv|].
      apply (id_ends_prefix v rest rest' w2 Erest Hend). }
    rewrite Hm. reflexivity.
Qed.

(** X17. A [v=] parameter is found wherever it stands: when nothing before
    it contains [?] or [&], the id after the first [?v=] or [&v=] is
    returned, cut after 20 characters, whatever surrounds the input as
    white space and whatever follows the id. *)
Theorem extract_video_id_v_param (pre v rest : str) (sep : N) :
  no_separator pre -> (sep = 63 \/ sep = 38)%N ->
  id_shaped v -> id_ends v rest ->
  extract_video_id (pre ++ sep :: 118%N :: 61%N :: v ++ rest) = Return v.
Proof.
  apply v_param_found.
Qed.

Lemma extract_video_id_v_param_witness :
  (no_separator (lit " https://www.youtube.com/watch") /\
   (63 = 63 \/ 63 = 38)%N /\ id_shaped (lit "joBmbh0AGSQ") /\
   id_ends (lit "joBmbh0AGSQ") (lit "&t=10s ")) /\
  extract_video_id
    (lit " https://www.youtube.com/watch" ++ 63%N :: 118%N :: 61%N
       :: lit "joBmbh0AGSQ" ++ lit "&t=10s ")
  = Return (lit "joBmbh0AGSQ").
Proof.
  split.
  - split; [reflexivity|]. split; [left; reflexivity|].
    split; [split; [reflexivity|simpl; lia]|].
    right. right. do 2 eexists. split; reflexivity.
  - apply (extract_video_id_v_param (lit " https://www.youtube.com/watch")
             (lit "joBmbh0AGSQ") (lit "&t=10s ") 63%N).
    + reflexivity.
    + left. reflexivity.
    + split; [reflexivity|simpl; lia].
    + right. right. do 2 eexists. split; reflexivity.
Defined.

(** ** Short links *)

Lemma id_run_length_app (n : nat) (a b : str) :
  (List.length (id_run n a) <= List.length (id_run n (a ++ b)))%nat.
Proof.
  revert a. induction n as [|n IH]; intro a.
  - destruct a; simpl; destruct b; simpl; lia.
  - destruct a as [|c a]; simpl; [lia|].
    destruct (is_id_char c); simpl; [|lia].
    specialize (IH a). lia.
Qed.

Lemma match_id_extend (a b g : str) :
  match_id a = Some g -> exists g', match_id (a ++ b) = Some g'.
Proof.
  unfold match_id. cbv zeta.
  pose proof (id_run_length_app 20 a b) as Hle. revert Hle.
  generalize (id_run 20 a) (id_run 20 (a ++ b)). intros r r' Hle.
  destruct (Nat.leb_spec 8 (List.length r)); [|discriminate].
  intros _. destruct (Nat.leb_spec 8 (List.length r')); [eauto|lia].
Qed.

Lemma match_v_param_extend (a b g : str) :
  match_v_param a = Some g -> exists g', match_v_param (a ++ b) = Some g'.
Proof.
  unfold match_v_param. destruct a as [|c [|v [|e rest]]]; try discriminate.
  cbn [app]. destruct (_ && _ && _); [|discriminate].
  apply match_id_extend.
Qed.

Lemma search_v_param_prefix (a b : str) :
  search match_v_param (a ++ b) = None -> search match_v_param a = None.
Proof.
  induction a as [|c a IH]; intro H.
  - reflexivity.
  - cbn [app search] in H. cbn [search].
    destruct (match_v_param (c :: a ++ b)) eqn:E; [discriminate|].
    destruct (match_v_param (c :: a)) as [g|] eqn:E'.
    + destruct (match_v_param_extend (c :: a) b g E') as (g' & Hg').
      change ((c :: a) ++ b) with (c :: a ++ b) in Hg'.
      rewrite E in Hg'. discriminate.
    + apply IH, H.
Qed.

Lemma search_short_skip (pre x : str) :
  no_letter_y pre -> search match_short (pre ++ x) = search match_short x.
Proof.
  unfold no_letter_y. induction pre as [|c pre IH]; intro H; [reflexivity|].
  simpl in H. apply andb_true_iff in H. destruct H as [Hc H].
  apply negb_true_iff in Hc.
  cbn [app search]. rewrite (IH H).
  assert (Hm : match_short (c :: pre ++ x) = None).
  { unfold match_short. change (lit "youtu.be/") with (121%N :: lit "outu.be/").
    cbn [startswith]. rewrite N.eqb_sym, Hc. reflexivity. }
  rewrite Hm. reflexivity.
Qed.

Lemma id_chars_no_separator (v : str) : forallb is_id_char v = true -> no_separator v.
Proof.
  unfold no_separator. rewrite !forallb_forall. intros H c Hc.
  rewrite (id_char_not_separator c (H c Hc)). reflexivity.
Qed.

Lemma no_separator_app (a b : str) : no_separator a -> no_separator b -> no_separator (a ++ b).
Proof.
  unfold no_separator. rewrite forallb_app. intros -> ->. reflexivity.
Qed.

(** X18. A youtu.be link is recognised when no [v=] parameter follows it:
    when the text before [youtu.be/] contains no [?], [&] or [y], the id
    after it is returned. *)
Theorem extract_video_id_short_link (pre v rest : str) :
  no_separator pre -> no_letter_y pre ->
  id_shaped v -> id_ends v rest ->
  search match_v_param rest = None ->
  extract_video_id (pre ++ lit "youtu.be/" ++ v ++ rest) = Return v.
Proof.
  intros Hpre Hy Hv Hend Hnov.
  destruct (id_shaped_last v Hv) as (v0 & c & Ev & Hc).
  destruct (strip_keeps_middle pre (lit "youtu.be/" ++ v) rest 121%N c
              (lit "outu.be/" ++ v) (lit "youtu.be/" ++ v0))
    as (w1 & pre' & rest' & w2 & Epre & Erest & Estrip).
  - reflexivity.
  - rewrite Ev, app_assoc. reflexivity.
  - reflexivity.
  - exact Hc.
  - unfold extract_video_id. cbv zeta.
    replace (pre ++ lit "youtu.be/" ++ v ++ rest)
      with (pre ++ (lit "youtu.be/" ++ v) ++ rest)
      by (rewrite <- !app_assoc; reflexivity).
    rewrite Estrip.
    assert (Hpre' : no_separator pre')
      by (rewrite Epre in Hpre; apply (no_separator_suffix w1), Hpre).
    assert (Hy' : no_letter_y pre').
    { unfold no_letter_y in *. rewrite Epre, forallb_app in Hy.
      apply andb_true_iff in Hy. tauto. }
    assert (Hfull : fullmatch_id (pre' ++ (lit "youtu.be/" ++ v) ++ rest') = false).
    { unfold fullmatch_id. rewrite !forallb_app.
      change (forallb is_id_char (lit "youtu.be/")) with false.
      rewrite andb_false_r. reflexivity. }
    rewrite Hfull. simpl andb. cbv iota.
    assert (H1 : search match_v_param (pre' ++ (lit "youtu.be/" ++ v) ++ rest') = None).
    { rewrite (search_v_param_skip pre' _ Hpre').
      rewrite search_v_param_skip.
      - apply (search_v_param_prefix rest' w2). rewrite <- Erest. exact Hnov.
      - apply no_separator_app; [reflexivity|].
        apply id_chars_no_separator, Hv. }
    rewrite H1, (search_short_skip pre' _ Hy').
    assert (H2 : match_short ((lit "youtu.be/" ++ v) ++ rest') = Some v).
    { unfold match_short. rewrite <- app_assoc, startswith_refl_app.
      change (skipn 9 (lit "youtu.be/" ++ v ++ rest')) with (v ++ rest').
      apply match_id_app; [exact Hv|].
      apply (id_ends_prefix v rest rest' w2 Erest Hend). }
    destruct ((lit "youtu.be/" ++ v) ++ rest') eqn:E; cbn [search];
      rewrite H2; reflexivity.
Qed.

Lemma extract_video_id_short_link_witness :
  (no_separator (lit "https://") /\ no_letter_y (lit "https://") /\
   id_shaped (lit "joBmbh0AGSQ") /\ id_ends (lit "joBmbh0AGSQ") (lit "?t=10") /\
   search match_v_param (lit "?t=10") = None) /\
  extract_video_id (lit "https://" ++ lit "youtu.be/" ++ lit "joBmbh0AGSQ" ++ lit "?t=10")
  = Return (lit "joBmbh0AGSQ").
Proof.
  split.
  - split; [reflexivity|]. split; [reflexivity|].
    split; [split; [reflexivity|simpl; lia]|].
    split; [|reflexivity].
    right. right. do 2 eexists. split; reflexivity.
  - apply (extract_video_id_short_link (lit "https://") (lit "joBmbh0AGSQ") (lit "?t=10")).
    + reflexivity.
    + reflexivity.
    + split; [reflexivity|simpl; lia].
    + right. right. do 2 eexists. split; reflexivity.
    + reflexivity.
Defined.

(** ** The URL that main hands to download_audio *)

Lemma download_url_extracts (url_or_id video_id : str) :
  extract_video_id url_or_id = Return video_id ->
  extract_video_id (download_url url_or_id video_id) = Return video_id.
Proof.
  intro H. unfold download_url.
  destruct (contains (lit "http") url_or_id); [exact H|].
  destruct (extract_video_id_piece _ _ H) as (Hf & Hl & _).
  rewrite <- (app_nil_r video_id) at 1.
  apply (v_param_found (lit "https://www.youtube.com/watch") video_id [] 63%N).
  - reflexivity.
  - left. reflexivity.
  - split; assumption.
  - right. left. reflexivity.
Qed.

(** X19. The URL that [main] passes to [download_audio] gives back the id
    that [main] extracted: the second extraction inside [download_audio]
    succeeds with the same id. *)
Theorem download_url_same_id (url_or_id video_id : str) :
  extract_video_id url_or_id = Return video_id ->
  extract_video_id (download_url url_or_id video_id) = Return video_id.
Proof.
  apply download_url_extracts.
Qed.

Lemma download_url_same_id_witness :
  extract_video_id (lit " joBmbh0AGSQ") = Return (lit "joBmbh0AGSQ") /\
  extract_video_id (download_url (lit " joBmbh0AGSQ") (lit "joBmbh0AGSQ"))
  = Return (lit "joBmbh0AGSQ").
Proof.
  split.
  - reflexivity.
  - apply (download_url_same_id (lit " joBmbh0AGSQ") (lit "joBmbh0AGSQ")).
    reflexivity.
Defined.

(** ** download_audio *)

Lemma by_size_desc_total (a b : file) :
  by_size_desc a b = false -> by_size_desc b a = true.
Proof.
  unfold by_size_desc. rewrite N.leb_gt, N.leb_le. lia.
Qed.

(** The head of the sorted candidates is a largest candidate. *)
Lemma largest_first (l : list file) (p : file) (rest : list file) :
  sort by_size_desc l = p :: rest ->
  In p l /\ forall q, In q l -> (st_size q <= st_size p)%N.
Proof.
  intro E.
  pose proof (sort_sorted by_size_desc by_size_desc_total l) as Hs.
  rewrite E in Hs.
  assert (Hss : StronglySorted (fun a b => by_size_desc a b = true) (p :: rest)).
  { apply Sorted_StronglySorted; [|exact Hs].
    intros a b c. unfold by_size_desc. rewrite !N.leb_le. lia. }
  split.
  - apply (sort_In by_size_desc). rewrite E. left. reflexivity.
  - intros q Hq. apply (sort_In by_size_desc) in Hq. rewrite E in Hq.
    destruct Hq as [<-|Hq]; [lia|].
    inversion Hss as [|? ? _ Hall]; subst. rewrite Forall_forall in Hall.
    specialize (Hall q Hq). unfold by_size_desc in Hall.
    apply N.leb_le in Hall. exact Hall.
Qed.

Lemma candidates_filter (video_id : str) (dir : list file) :
  filter (fun p => negb (endswith (lit ".part") (name p)))
    (filter (fun p => startswith (video_id ++ lit ".") (name p)) dir)
  = filter (candidate video_id) dir.
Proof.
  induction dir as [|p dir IH]; simpl; [reflexivity|].
  unfold candidate at 1.
  destruct (startswith (video_id ++ lit ".") (name p)); simpl; [|exact IH].
  destruct (endswith (lit ".part") (name p)); simpl; [exact IH|].
  f_equal. exact IH.
Qed.

Lemma sort_nonempty {A : Type} (leb : A -> A -> bool) (l : list A) :
  l <> [] -> sort leb l <> [].
Proof.
  intros H E. apply H. apply length_zero_iff_nil.
  rewrite <- (sort_length leb), E. reflexivity.
Qed.

Lemma download_audio_eval (dir : list file) (url video_id : str) :
  extract_video_id url = Return video_id ->
  download_audio 0 dir url
  = match sort by_size_desc (filter (candidate video_id) dir) with
    | [] => Throw PyFileNotFoundError
    | p :: _ => Return p
    end.
Proof.
  intro H. unfold download_audio. simpl negb. cbv iota.
  rewrite H. cbn [res_bind]. rewrite candidates_filter.
  destruct (filter (candidate video_id) dir) as [|a l] eqn:E; [reflexivity|].
  destruct (sort by_size_desc (a :: l)) eqn:Es; [|reflexivity].
  exfalso. apply (sort_nonempty by_size_desc (a :: l)); [discriminate|exact Es].
Qed.

(** X20. The file [download_audio] returns is an entry of the output
    directory whose name starts with the video id of the URL and a dot and
    does not end in ".part", and no other such entry is larger. *)
Theorem download_audio_picks_largest
    (returncode : Z) (dir : list file) (url : str) (p : file) :
  download_audio returncode dir url = Return p ->
  returncode = 0%Z /\
  exists video_id,
    extract_video_id url = Return video_id /\
    In p dir /\
    startswith (video_id ++ lit ".") (name p) = true /\
    endswith (lit ".part") (name p) = false /\
    forall q, In q dir -> candidate video_id q = true ->
              (st_size q <= st_size p)%N.
Proof.
  intro H.
  destruct (Z.eqb_spec returncode 0) as [->|Hrc].
  2:{ exfalso. unfold download_audio in H. apply Z.eqb_neq in Hrc.
      rewrite Hrc in H. discriminate. }
  split; [reflexivity|].
  destruct (extract_video_id url) as [video_id|e] eqn:Eid.
  2:{ exfalso. unfold download_audio in H. simpl in H. rewrite Eid in H.
      discriminate. }
  exists video_id. split; [reflexivity|].
  rewrite (download_audio_eval dir url video_id Eid) in H.
  destruct (sort by_size_desc (filter (candidate video_id) dir)) as [|p' rest] eqn:Es;
    [discriminate|].
  injection H as ->.
  destruct (largest_first _ _ _ Es) as [Hin Hmax].
  apply filter_In in Hin. destruct Hin as [Hin Hc].
  unfold candidate in Hc. apply andb_true_iff in Hc. destruct Hc as [Hc1 Hc2].
  apply negb_true_iff in Hc2.
  split; [exact Hin|]. split; [exact Hc1|]. split; [exact Hc2|].
  intros q Hq Hcq. apply Hmax. apply filter_In. auto.
Qed.

Lemma download_audio_picks_largest_witness :
  let dir := [ {| name := lit "joBmbh0AGSQ.webm.part"; st_size := 900 |};
               {| name := lit "joBmbh0AGSQ.m4a"; st_size := 10 |};
               {| name := lit "other.webm"; st_size := 99 |};
               {| name := lit "joBmbh0AGSQ.opus"; st_size := 30 |} ] in
  let p := {| name := lit "joBmbh0AGSQ.opus"; st_size := 30 |} in
  download_audio 0 dir (lit "https://youtu.be/joBmbh0AGSQ") = Return p /\
  (0 = 0)%Z /\
  exists video_id,
    extract_video_id (lit "https://youtu.be/joBmbh0AGSQ") = Return video_id /\
    In p dir /\
    startswith (video_id ++ lit ".") (name p) = true /\
    endswith (lit ".part") (name p) = false /\
    forall q, In q dir -> candidate video_id q = true ->
              (st_size q <= st_size p)%N.
Proof.
  intros dir p. split.
  - reflexivity.
  - apply (download_audio_picks_largest 0 dir (lit "https://youtu.be/joBmbh0AGSQ") p).
    reflexivity.
Defined.

(** ** try_youtube_captions *)

Lemma first_fetched_some {TR : Type} (find : str -> option TR)
    (fetch : TR -> option (list str)) (prefs : list str) (text : str) :
  first_fetched find fetch prefs = Some text ->
  exists before lang after tr lines,
    prefs = before ++ lang :: after /\
    (forall l, In l before -> ~ fetchable find fetch l) /\
    find lang = Some tr /\ fetch tr = Some lines /\ text = join_lines lines.
Proof.
  induction prefs as [|lang prefs IH]; simpl; [discriminate|].
  destruct (find lang) as [tr|] eqn:Ef.
  - destruct (fetch tr) as [lines|] eqn:Et.
    + intro H. injection H as <-.
      exists [], lang, prefs, tr, lines. simpl. repeat split; auto; intros l [].
    + intro H. destruct (IH H) as (before & lang' & after & tr' & lines & -> & Hb & H1 & H2 & H3).
      exists (lang :: before), lang', after, tr', lines. repeat split; auto.
      intros l [<-|Hl]; [|apply Hb, Hl].
      intros (t & ls & Ht & Hls). congruence.
  - intro H. destruct (IH H) as (before & lang' & after & tr' & lines & -> & Hb & H1 & H2 & H3).
    exists (lang :: before), lang', after, tr', lines. repeat split; auto.
    intros l [<-|Hl]; [|apply Hb, Hl].
    intros (t & ls & Ht & Hls). congruence.
Qed.

Lemma first_fetched_none_iff {TR : Type} (find : str -> option TR)
    (fetch : TR -> option (list str)) (prefs : list str) :
  first_fetched find fetch prefs = None <->
  forall l, In l prefs -> ~ fetchable find fetch l.
Proof.
  induction prefs as [|lang prefs IH]; simpl.
  - split; [intros _ l []|reflexivity].
  - destruct (find lang) as [tr|] eqn:Ef.
    + destruct (fetch tr) as [lines|] eqn:Et.
      * split; [discriminate|]. intro H. exfalso.
        apply (H lang (or_introl eq_refl)). exists tr, lines. auto.
      * rewrite IH. split.
        -- intros H l [<-|Hl]; [|apply H, Hl].
           intros (t & ls & Ht & Hls). congruence.
        -- intros H l Hl. apply H. right. exact Hl.
    + rewrite IH. split.
      * intros H l [<-|Hl]; [|apply H, Hl].
        intros (t & ls & Ht & Hls). congruence.
      * intros H l Hl. apply H. right. exact Hl.
Qed.

(** X22. With the newer package, a manually created transcript wins: if
    some preferred language has one that can be fetched, the result is the
    text of the first such language in the order of preference, whatever
    generated transcripts exist. *)
Theorem captions_manual_first {TL TR : Type} (api : captions_api TL TR)
    (video_id : str) (lang_prefs : list str) (tl : TL) (lang : str) :
  installed api = true -> has_list_transcripts api = true ->
  list_transcripts api video_id = Some tl ->
  In lang lang_prefs ->
  fetchable (find_manually_created_transcript api tl) (fetch_texts api) lang ->
  exists before lang' after tr lines,
    lang_prefs = before ++ lang' :: after /\
    (forall l, In l before ->
       ~ fetchable (find_manually_created_transcript api tl) (fetch_texts api) l) /\
    find_manually_created_transcript api tl lang' = Some tr /\
    fetch_texts api tr = Some lines /\
    try_youtube_captions api video_id lang_prefs = Some (join_lines lines).
Proof.
  intros Hi Hl Htl Hin Hf.
  unfold try_youtube_captions. rewrite Hi, Hl, Htl. simpl negb. cbv iota.
  destruct (first_fetched (find_manually_created_transcript api tl) (fetch_texts api)
              lang_prefs) as [text|] eqn:E.
  - destruct (first_fetched_some _ _ _ _ E)
      as (before & lang' & after & tr & lines & Hp & Hb & H1 & H2 & ->).
    exists before, lang', after, tr, lines. auto.
  - exfalso. rewrite first_fetched_none_iff in E. apply (E lang Hin Hf).
Qed.

Lemma captions_manual_first_witness :
  (installed example_api = true /\ has_list_transcripts example_api = true /\
   list_transcripts example_api (lit "joBmbh0AGSQ") = Some tt /\
   In (lit "en-GB") default_lang_prefs /\
   fetchable (find_manually_created_transcript example_api tt)
     (fetch_texts example_api) (lit "en-GB")) /\
  exists before lang' after tr lines,
    default_lang_prefs = before ++ lang' :: after /\
    (forall l, In l before ->
       ~ fetchable (find_manually_created_transcript example_api tt)
           (fetch_texts example_api) l) /\
    find_manually_created_transcript example_api tt lang' = Some tr /\
    fetch_texts example_api tr = Some lines /\
    try_youtube_captions example_api (lit "joBmbh0AGSQ") default_lang_prefs
      = Some (join_lines lines).
Proof.
  split.
  - split; [reflexivity|]. split; [reflexivity|]. split; [reflexivity|].
    split; [simpl; tauto|]. exists true, [lit "colour"; lit "centre"]. split; reflexivity.
  - apply (captions_manual_first example_api (lit "joBmbh0AGSQ") default_lang_prefs
             tt (lit "en-GB")).
    + reflexivity.
    + reflexivity.
    + reflexivity.
    + simpl. tauto.
    + exists true, [lit "colour"; lit "centre"]. split; reflexivity.
Defined.

(** X23. [try_youtube_captions] returns [None] exactly when the package is
    missing, or (older package) [get_transcript] fails, or (newer package)
    the listing fails or no preferred language has a manual or a generated
    transcript that can be fetched and the first available transcript
    cannot be fetched either. *)
Theorem captions_none_iff {TL TR : Type} (api : captions_api TL TR)
    (video_id : str) (lang_prefs : list str) :
  try_youtube_captions api video_id lang_prefs = None <->
  installed api = false \/
  (has_list_transcripts api = false /\
   get_transcript api video_id lang_prefs = None) \/
  (has_list_transcripts api = true /\
   (list_transcripts api video_id = None \/
    exists tl, list_transcripts api video_id = Some tl /\
      (forall l, In l lang_prefs ->
         ~ fetchable (find_manually_created_transcript api tl) (fetch_texts api) l /\
         ~ fetchable (find_generated_transcript api tl) (fetch_texts api) l) /\
      forall t, first_transcript api tl = Some t -> fetch_texts api t = None)).
Proof.
  unfold try_youtube_captions.
  destruct (installed api); simpl negb; cbv iota; [|split; auto].
  destruct (has_list_transcripts api).
  - destruct (list_transcripts api video_id) as [tl|].
    + destruct (first_fetched (find_manually_created_transcript api tl) _ _) eqn:Em.
      { split; [discriminate|].
        intros [H|[[H _]|[_ [H|(tl' & Htl & Hall & _)]]]]; try discriminate.
        injection Htl as <-. exfalso.
        destruct (first_fetched_some _ _ _ _ Em)
          as (before & lang & after & tr & lines & Hp & _ & H1 & H2 & _).
        destruct (Hall lang) as [Hno _]; [rewrite Hp; apply in_elt|].
        apply Hno. exists tr, lines. auto. }
      destruct (first_fetched (find_generated_transcript api tl) _ _) eqn:Eg.
      { split; [discriminate|].
        intros [H|[[H _]|[_ [H|(tl' & Htl & Hall & _)]]]]; try discriminate.
        injection Htl as <-. exfalso.
        destruct (first_fetched_some _ _ _ _ Eg)
          as (before & lang & after & tr & lines & Hp & _ & H1 & H2 & _).
        destruct (Hall lang) as [_ Hno]; [rewrite Hp; apply in_elt|].
        apply Hno. exists tr, lines. auto. }
      rewrite first_fetched_none_iff in Em, Eg.
      destruct (first_transcript api tl) as [t|] eqn:Ef.
      * destruct (fetch_texts api t) as [lines|] eqn:Et.
        -- split; [discriminate|].
           intros [H|[[H _]|[_ [H|(tl' & Htl & _ & Hfirst)]]]]; try discriminate.
           injection Htl as <-. specialize (Hfirst t Ef). congruence.
        -- split; [|reflexivity]. intros _. right. right. split; [reflexivity|].
           right. exists tl. split; [reflexivity|]. split; [auto|].
           intros t' Ht'. congruence.
      * split; [|reflexivity]. intros _. right. right. split; [reflexivity|].
        right. exists tl. split; [reflexivity|]. split; [auto|].
        intros t' Ht'. congruence.
    + split; [|reflexivity]. intros _. right. right. auto.
  - destruct (get_transcript api video_id lang_prefs).
    + split; [discriminate|].
      intros [H|[[_ H]|[H _]]]; discriminate.
    + split; [|reflexivity]. intros _. right. left. auto.
Qed.

(** ** main *)

(** What [main] does once the id is known. *)
Lemma main_after_id {TL TR : Type} (w : world TL TR) (argv : list str)
    (video_id : str) :
  extract_video_id (argv_url_or_id argv) = Return video_id ->
  main w argv
  = match try_youtube_captions (api w) video_id default_lang_prefs with
    | Some (c :: text) =>
        Return {| output_file := argv_output_file argv; written := c :: text;
                  origin := FromCaptions |}
    | _ =>
        if negb (yt_dlp w (download_url (argv_url_or_id argv) video_id) =? 0)%Z
        then Throw PyRuntimeError
        else
          match sort by_size_desc (filter (candidate video_id) (audio_tmp w)) with
          | [] => Throw PyFileNotFoundError
          | p :: _ =>
              text <~ transcribe_mp3 (whisper w p) ;;
              Return {| output_file := argv_output_file argv; written := text;
                        origin := FromAudio |}
          end
    end.
Proof.
  intro H. unfold main. fold (argv_url_or_id argv). fold (argv_output_file argv).
  rewrite H. cbn [res_bind].
  set (url := download_url (argv_url_or_id argv) video_id).
  assert (Hd : download_audio (yt_dlp w url) (audio_tmp w) url
               = if negb (yt_dlp w url =? 0)%Z then Throw PyRuntimeError
                 else match sort by_size_desc (filter (candidate video_id) (audio_tmp w)) with
                      | [] => Throw PyFileNotFoundError
                      | p :: _ => Return p
                      end).
  { destruct (Z.eqb_spec (yt_dlp w url) 0) as [E|E].
    - rewrite E. simpl negb. cbv iota.
      apply download_audio_eval. apply download_url_extracts, H.
    - unfold download_audio. apply Z.eqb_neq in E. rewrite E. reflexivity. }
  rewrite Hd.
  destruct (try_youtube_captions (api w) video_id default_lang_prefs) as [[|c text]|];
    try reflexivity;
    destruct (negb (yt_dlp w url =? 0)%Z); try reflexivity;
    destruct (sort by_size_desc (filter (candidate video_id) (audio_tmp w)));
    reflexivity.
Qed.

(** X25. When [main] saves a transcript, it is written to the file named
    by the second argument (or the default), and it is either the
    non-empty captions of the extracted id, or, when there are no captions
    or empty ones and yt-dlp succeeded, the stripped segments that
    faster-whisper gives for a largest downloaded file named after that
    same id. *)
Theorem main_saved {TL TR : Type} (w : world TL TR) (argv : list str) (sv : saved) :
  main w argv = Return sv ->
  output_file sv = argv_output_file argv /\
  exists video_id,
    extract_video_id (argv_url_or_id argv) = Return video_id /\
    ((origin sv = FromCaptions /\ written sv <> [] /\
      try_youtube_captions (api w) video_id default_lang_prefs = Some (written sv)) \/
     (origin sv = FromAudio /\
      (try_youtube_captions (api w) video_id default_lang_prefs = None \/
       try_youtube_captions (api w) video_id default_lang_prefs = Some []) /\
      yt_dlp w (download_url (argv_url_or_id argv) video_id) = 0%Z /\
      exists p segs,
        In p (audio_tmp w) /\ candidate video_id p = true /\
        (forall q, In q (audio_tmp w) -> candidate video_id q = true ->
                   (st_size q <= st_size p)%N) /\
        whisper w p = Return segs /\
        written sv = join_lines (map strip segs))).
Proof.
  intro H.
  destruct (extract_video_id (argv_url_or_id argv)) as [video_id|e] eqn:Eid.
  2:{ exfalso. unfold main in H. fold (argv_url_or_id argv) in H.
      rewrite Eid in H. discriminate. }
  rewrite (main_after_id w argv video_id Eid) in H.
  assert (Haudio :
    (if negb (yt_dlp w (download_url (argv_url_or_id argv) video_id) =? 0)%Z
     then Throw PyRuntimeError
     else
       match sort by_size_desc (filter (candidate video_id) (audio_tmp w)) with
       | [] => Throw PyFileNotFoundError
       | p :: _ =>
           text <~ transcribe_mp3 (whisper w p) ;;
           Return {| output_file := argv_output_file argv; written := text;
                     origin := FromAudio |}
       end) = Return sv ->
    output_file sv = argv_output_file argv /\ origin sv = FromAudio /\
    yt_dlp w (download_url (argv_url_or_id argv) video_id) = 0%Z /\
    exists p segs,
      In p (audio_tmp w) /\ candidate video_id p = true /\
      (forall q, In q (audio_tmp w) -> candidate video_id q = true ->
                 (st_size q <= st_size p)%N) /\
      whisper w p = Return segs /\
      written sv = join_lines (map strip segs)).
  { destruct (Z.eqb_spec (yt_dlp w (download_url (argv_url_or_id argv) video_id)) 0)
      as [E0|E0]; [|discriminate].
    simpl negb. cbv iota.
    destruct (sort by_size_desc (filter (candidate video_id) (audio_tmp w)))
      as [|p rest] eqn:Es; [discriminate|].
    destruct (largest_first _ _ _ Es) as [Hin Hmax].
    apply filter_In in Hin. destruct Hin as [Hin Hc].
    unfold transcribe_mp3. destruct (whisper w p) as [segs|e] eqn:Ew; [|discriminate].
    cbn [res_bind]. intro H'. injection H' as <-. simpl.
    split; [reflexivity|]. split; [reflexivity|]. split; [exact E0|].
    exists p, segs. split; [exact Hin|]. split; [exact Hc|].
    split; [|split; [exact Ew|reflexivity]].
    intros q Hq Hcq. apply Hmax, filter_In. auto. }
  destruct (try_youtube_captions (api w) video_id default_lang_prefs)
    as [[|c text]|] eqn:Ec.
  - destruct (Haudio H) as (Ho & Hor & Hrest).
    split; [exact Ho|]. exists video_id. split; [reflexivity|]. right. auto.
  - injection H as <-. simpl. split; [reflexivity|].
    exists video_id. split; [reflexivity|]. left.
    split; [reflexivity|]. split; [discriminate|exact Ec].
  - destruct (Haudio H) as (Ho & Hor & Hrest).
    split; [exact Ho|]. exists video_id. split; [reflexivity|]. right. auto.
Qed.

Lemma main_saved_witness :
  let argv := [lit "transcript.py"; lit "joBmbh0AGSQ"; lit "out.txt"] in
  let sv := {| output_file := lit "out.txt";
               written := join_lines [lit "hello"; lit "world"];
               origin := FromAudio |} in
  main example_world argv = Return sv /\
  output_file sv = argv_output_file argv /\
  exists video_id,
    extract_video_id (argv_url_or_id argv) = Return video_id /\
    ((origin sv = FromCaptions /\ written sv <> [] /\
      try_youtube_captions (api example_world) video_id default_lang_prefs
        = Some (written sv)) \/
     (origin sv = FromAudio /\
      (try_youtube_captions (api example_world) video_id default_lang_prefs = None \/
       try_youtube_captions (api example_world) video_id default_lang_prefs = Some []) /\
      yt_dlp example_world (download_url (argv_url_or_id argv) video_id) = 0%Z /\
      exists p segs,
        In p (audio_tmp example_world) /\ candidate video_id p = true /\
        (forall q, In q (audio_tmp example_world) -> candidate video_id q = true ->
                   (st_size q <= st_size p)%N) /\
        whisper example_world p = Return segs /\
        written sv = join_lines (map strip segs))).
Proof.
  intros argv sv. split.
  - reflexivity.
  - apply (main_saved example_world argv sv). reflexivity.
Defined.

(** * Properties of analysis.py *)

Lemma rating_of_cases (user : str) (data : list entry) :
  (data = [] /\ rating_of user data = Throw PyKeyError) \/
  (data <> [] /\ absent user data /\ rating_of user data = Throw PyIndexError) \/
  (exists e, In e data /\ str_eqb (Username e) user = true /\
             rating_of user data = Return (Rating e)).
Proof.
  destruct data as [|d data]; [left; auto|right].
  unfold rating_of.
  destruct (filter (fun e => str_eqb (Username e) user) (d :: data)) as [|e l] eqn:E.
  - left. split; [discriminate|]. split; [|reflexivity].
    intros e He. destruct (str_eqb (Username e) user) eqn:Eu; [|reflexivity].
    exfalso. assert (Hin : In e (filter (fun e => str_eqb (Username e) user) (d :: data)))
      by (apply filter_In; auto).
    rewrite E in Hin. exact Hin.
  - right. exists e.
    assert (Hin : In e (filter (fun e => str_eqb (Username e) user) (d :: data)))
      by (rewrite E; left; reflexivity).
    apply filter_In in Hin. destruct Hin as [Hin Hu]. auto.
Qed.

(** With the default arguments neither report raises. *)
Lemma default_reports_run (L : numerics) (score : float64) (ratings : list raw) :
  (exists a, lift (analyze_array L ratings default_percentiles) = Return a) /\
  (exists g, lift (goal_maker score ratings default_targets "mean") = Return g).
Proof.
  split.
  - pose proof (analyze_array_never_raises L ratings default_percentiles
                  default_percentiles_in_range) as H.
    destruct (analyze_array L ratings default_percentiles);
      [simpl; eauto|discriminate].
  - destruct (clean ratings) as [|a l] eqn:E.
    + rewrite (empty_population_before_tie_check_aux score ratings _ _ E).
      simpl. eauto.
    + assert (Hx : clean ratings <> []) by (rewrite E; discriminate).
      destruct (percentile_rank_eval score (clean ratings) Hx) as (_ & _ & Hm).
      destruct (goal_maker_runs score ratings default_targets "mean" _ Hx
                  ltac:(discriminate) ltac:(in_range_tac) Hm) as (m & Hrun & _).
      rewrite Hrun. simpl. eauto.
Qed.

(** X26. The script fails with [KeyError] exactly for an empty data set,
    with [IndexError] exactly when the data set is not empty and one of the
    two user names is absent, and in no other way: with both users present
    both reports are produced. *)
Theorem analysis_script_outcome (L : numerics) (data : list entry) :
  (analysis_script L data = Throw PyKeyError <-> data = []) /\
  (analysis_script L data = Throw PyIndexError <->
   data <> [] /\
   (absent (lit "ZombieReaper") data \/ absent (lit "Death913") data)) /\
  ((exists run, analysis_script L data = Return run) <->
   (exists e, In e data /\ str_eqb (Username e) (lit "ZombieReaper") = true) /\
   (exists e, In e data /\ str_eqb (Username e) (lit "Death913") = true)).
Proof.
  unfold analysis_script.
  destruct (rating_of_cases (lit "ZombieReaper") data)
    as [(Hd & Hr)|[(Hd & Ha & Hr)|(e1 & Hin1 & Hu1 & Hr)]]; rewrite Hr; cbn [res_bind].
  - subst data. split; [tauto|]. split.
    + split; [discriminate|]. intros [H _]. contradiction.
    + split; [intros [run H]; discriminate|]. intros [(e & [] & _) _].
  - split; [split; [discriminate|intro; contradiction]|]. split.
    + split; auto.
    + split; [intros [run H]; discriminate|].
      intros [(e & He & Hu) _]. rewrite (Ha e He) in Hu. discriminate.
  - assert (Hne : data <> []) by (intro E; rewrite E in Hin1; exact Hin1).
    destruct (rating_of_cases (lit "Death913") data)
      as [(Hd & Hr2)|[(Hd & Ha & Hr2)|(e2 & Hin2 & Hu2 & Hr2)]]; rewrite Hr2; cbn [res_bind].
    + contradiction.
    + split; [split; [discriminate|intro; contradiction]|]. split.
      * split; auto.
      * split; [intros [run H]; discriminate|].
        intros [_ (e & He & Hu)]. rewrite (Ha e He) in Hu. discriminate.
    + destruct (default_reports_run L (Rating e1) (map (fun e => RNum (Rating e)) data))
        as [(a & Hda) (g & Hdg)].
      rewrite Hda. cbn [res_bind]. rewrite Hdg. cbn [res_bind].
      split; [split; [discriminate|intro; contradiction]|]. split.
      * split; [discriminate|]. intros [_ [Ha|Ha]].
        -- rewrite (Ha e1 Hin1) in Hu1. discriminate.
        -- rewrite (Ha e2 Hin2) in Hu2. discriminate.
      * split; [|eauto]. intros _. split; eauto.
Qed.

Lemma clean_ratings_In (data : list entry) (e : entry) :
  In e data -> is_nan (Rating e) = false ->
  In (Rating e) (clean (map (fun e => RNum (Rating e)) data)).
Proof.
  intros Hin Hn. apply clean_In. split; [exact Hn|].
  apply in_map_iff. exists e. auto.
Qed.

Lemma count_member {A : Type} (f : A -> bool) (l : list A) (a : A) :
  In a l -> f a = true -> (1 <= count f l)%nat.
Proof.
  intros Hin Hf. unfold count.
  assert (H : In a (filter f l)) by (apply filter_In; auto).
  destruct (filter f l); [contradiction|simpl; lia].
Qed.

(** X27. The score the script passes to [goal_maker] is a rating of the
    population itself: when both users are present and the first rating of
    "ZombieReaper" is not NaN, the goal report is produced for that rating,
    on a non-empty population, and the reported mean rank is positive. *)
Theorem own_rating_rank_positive (L : numerics) (data : list entry) (e1 e2 : entry) :
  rating_of (lit "ZombieReaper") data = Return (Rating e1) -> In e1 data ->
  rating_of (lit "Death913") data = Return (Rating e2) ->
  is_nan (Rating e1) = false ->
  exists run r q,
    analysis_script L data = Return run /\
    goals run = GoalMaker r /\
    r_score r = Rating e1 /\ (1 <= r_n r)%nat /\
    r_percentile_rank r = Finite q /\ 0 < q.
Proof.
  intros Hr1 Hin1 Hr2 Hn.
  unfold analysis_script. rewrite Hr1, Hr2. cbn [res_bind].
  set (ratings := map (fun e => RNum (Rating e)) data).
  destruct (default_reports_run L (Rating e1) ratings) as [(a & Hda) _].
  rewrite Hda. cbn [res_bind].
  pose proof (clean_ratings_In data e1 Hin1 Hn) as Hmem. fold ratings in Hmem.
  assert (Hx : clean ratings <> []) by (intro E; rewrite E in Hmem; exact Hmem).
  destruct (percentile_rank_eval (Rating e1) (clean ratings) Hx) as (_ & _ & Hm).
  destruct (goal_maker_runs (Rating e1) ratings default_targets "mean" _ Hx
              ltac:(discriminate) ltac:(in_range_tac) Hm) as (m & Hrun & _).
  rewrite Hrun. cbn [lift res_bind].
  do 3 eexists. split; [reflexivity|]. cbn.
  split; [reflexivity|]. split; [reflexivity|].
  split; [destruct (clean ratings); [contradiction|simpl; lia]|].
  split; [reflexivity|].
  assert (Hle : (1 <= count_le (Rating e1) (clean ratings))%nat).
  { apply (count_member _ _ (Rating e1) Hmem). apply fleb_refl, Hn. }
  set (n := Qn (List.length (clean ratings))).
  assert (Hn0 : 0 < n) by (apply Qn_pos; destruct (clean ratings); simpl; congruence).
  assert (Hc : 1 <= Qn (count_lt (Rating e1) (clean ratings)
                        + count_le (Rating e1) (clean ratings))).
  { change 1 with (Qn 1). apply Qn_le. lia. }
  set (c := Qn (count_lt (Rating e1) (clean ratings)
                + count_le (Rating e1) (clean ratings))) in *.
  apply Qmult_lt_0_compat; [reflexivity|].
  unfold Qdiv. apply Qmult_lt_0_compat; [|apply Qinv_lt_0_compat, Hn0].
  apply Qmult_lt_0_compat; [lra|reflexivity].
Qed.

Lemma own_rating_rank_positive_witness :
  let e1 := {| Username := lit "ZombieReaper"; Rating := of_nat 1900 |} in
  let e2 := {| Username := lit "Death913"; Rating := of_nat 2100 |} in
  (rating_of (lit "ZombieReaper") example_data = Return (Rating e1) /\
   In e1 example_data /\
   rating_of (lit "Death913") example_data = Return (Rating e2) /\
   is_nan (Rating e1) = false) /\
  exists run r q,
    analysis_script example_numerics example_data = Return run /\
    goals run = GoalMaker r /\
    r_score r = Rating e1 /\ (1 <= r_n r)%nat /\
    r_percentile_rank r = Finite q /\ 0 < q.
Proof.
  intros e1 e2. split.
  - split; [reflexivity|]. split; [simpl; tauto|]. split; reflexivity.
  - apply (own_rating_rank_positive example_numerics example_data e1 e2).
    + reflexivity.
    + simpl. tauto.
    + reflexivity.
    + reflexivity.
Defined.

(** * Properties of the binary64 model *)

Section Binary64.
Import B64 B64Spec.

(** ** The order on binary64 values *)

Ltac cmp_cases :=
  repeat match goal with
  | |- context [(?x ?= ?y)%Z] => destruct (Z.compare_spec x y)
  | |- context [Pos.compare ?x ?y] => destruct (Pos.compare_spec x y)
  end.

Ltac by_cases_on_floats := 
  simpl; try (intros; reflexivity); try (intros; discriminate);
  change (Pos.compare_cont Eq ?x ?y) with (Pos.compare x y);
  cmp_cases; simpl; try (intros; reflexivity); try (intros; discriminate);
  try (intros; subst; reflexivity); try lia.

Lemma b64_fleb_trans (a b c : binary64) :
  fleb a b = true -> fleb b c = true -> fleb a c = true.
Proof.
  unfold fleb, SFleb.
  destruct a as [[]|[]| |[] m1 e1], b as [[]|[]| |[] m2 e2], c as [[]|[]| |[] m3 e3];
    by_cases_on_floats.
Qed.


Lemma b64_fleb_refl (a : binary64) : is_nan a = false -> fleb a a = true.
Proof.
  unfold fleb, SFleb. destruct a as [[]|[]| |[] m1 e1]; by_cases_on_floats.
Qed.

Lemma b64_fltb_fleb (a b : binary64) : fltb a b = true -> fleb a b = true.
Proof.
  unfold fltb, fleb, SFltb, SFleb. destruct (SFcompare a b) as [[]|]; auto.
Qed.


Lemma b64_not_fltb_fleb (a b : binary64) :
  is_nan a = false -> is_nan b = false -> fltb a b = false -> fleb b a = true.
Proof.
  unfold fltb, fleb, SFltb, SFleb.
  destruct a as [[]|[]| |[] m1 e1], b as [[]|[]| |[] m2 e2]; by_cases_on_floats.
Qed.

Lemma b64_fltb_fleb_trans (a b c : binary64) :
  fltb a b = true -> fleb b c = true -> fltb a c = true.
Proof.
  unfold fltb, fleb, SFltb, SFleb.
  destruct a as [[]|[]| |[] m1 e1], b as [[]|[]| |[] m2 e2], c as [[]|[]| |[] m3 e3];
    by_cases_on_floats.
Qed.

Lemma b64_fltb_not_nan (a b : binary64) :
  fltb a b = true -> is_nan a = false /\ is_nan b = false.
Proof.
  destruct a as [[]|[]| |[] m1 e1], b as [[]|[]| |[] m2 e2];
    try discriminate; auto.
Qed.

Lemma b64_fleb_not_nan (a b : binary64) :
  fleb a b = true -> is_nan a = false /\ is_nan b = false.
Proof.
  destruct a as [[]|[]| |[] m1 e1], b as [[]|[]| |[] m2 e2];
    try discriminate; auto.
Qed.

(** Equal numbers: the same value, or two zeros. *)
Lemma b64_feqb_eq (a b : binary64) :
  feqb a b = true -> a = b \/ (is_zero a = true /\ is_zero b = true).
Proof.
  unfold feqb, SFeqb.
  destruct a as [[]|[]| |[] m1 e1], b as [[]|[]| |[] m2 e2]; simpl;
    try discriminate; auto;
    change (Pos.compare_cont Eq ?x ?y) with (Pos.compare x y);
    destruct (Z.compare_spec e1 e2); try discriminate;
    destruct (Pos.compare_spec m1 m2); try discriminate; subst; auto.
Qed.

Lemma b64_feqb_refl (a : binary64) : is_nan a = false -> feqb a a = true.
Proof.
  unfold feqb, SFeqb. destruct a as [[]|[]| |[] m1 e1]; by_cases_on_floats.
Qed.

Lemma b64_feqb_sym (a b : binary64) : feqb a b = feqb b a.
Proof.
  unfold feqb, SFeqb.
  destruct a as [[]|[]| |[] m1 e1], b as [[]|[]| |[] m2 e2]; by_cases_on_floats.
Qed.

Lemma b64_feqb_trans (a b c : binary64) :
  feqb a b = true -> feqb b c = true -> feqb a c = true.
Proof.
  intros H1 H2.
  destruct (b64_feqb_eq a b H1) as [->|[Ha Hb]]; [exact H2|].
  destruct (b64_feqb_eq b c H2) as [<-|[_ Hc]]; [exact H1|].
  destruct a as [[]|[]| |[] m1 e1], c as [[]|[]| |[] m3 e3]; try discriminate;
    reflexivity.
Qed.

(** Equal numbers compare alike. *)
Lemma b64_fltb_compat (r a b : binary64) : feqb a b = true -> fltb r a = fltb r b.
Proof.
  intro H. destruct (b64_feqb_eq a b H) as [->|[Ha Hb]]; [reflexivity|].
  destruct a as [[]|[]| |[] m1 e1], b as [[]|[]| |[] m2 e2]; try discriminate;
    destruct r as [[]|[]| |[] m e]; reflexivity.
Qed.

Lemma b64_feqb_fleb (a b : binary64) : feqb a b = true -> fleb a b = true.
Proof.
  unfold feqb, fleb, SFeqb, SFleb. destruct (SFcompare a b) as [[]|]; auto.
Qed.


(** ** Cleaning and sorting *)



Lemma b64_clean_length (x : list raw) :
  clean x <> [] -> (List.length (clean x) =? 0)%nat = false.
Proof.
  intro H. destruct (clean x); [contradiction|reflexivity].
Qed.




(** ** The two bracketing places *)




(** ** Percentiles *)


Lemma b64_np_percentile_accepted (x : list binary64) (p : binary64) :
  accepted p = true ->
  np_percentile x p = Ok (quantile_linear x (fdiv p (of_Z 100))).
Proof.
  intro H. unfold np_percentile. rewrite H. reflexivity.
Qed.

Lemma b64_percentile_items_ok (x ps : list binary64) :
  all_accepted ps ->
  percentile_items x ps
  = Ok (map (fun p => (p, quantile_linear x (fdiv p (of_Z 100)))) ps).
Proof.
  intro H. unfold percentile_items.
  apply (mapM_ok _ (fun p => (p, quantile_linear x (fdiv p (of_Z 100))))).
  eapply Forall_impl; [|exact H].
  intros p Hp. simpl. rewrite b64_np_percentile_accepted by exact Hp. reflexivity.
Qed.

Lemma b64_accepted_not_nan (p : binary64) : accepted p = true -> is_nan p = false.
Proof.
  destruct p; try reflexivity. discriminate.
Qed.

(** ** Target sets and the thresholds dictionary *)

Lemma b64_feqb_compat (k a b : binary64) : feqb a b = true -> feqb k a = feqb k b.
Proof.
  intro H. destruct (feqb k a) eqn:E.
  - symmetry. apply b64_feqb_trans with a; assumption.
  - destruct (feqb k b) eqn:E'; [|reflexivity].
    rewrite <- E. apply b64_feqb_trans with b; [exact E'|].
    rewrite b64_feqb_sym. exact H.
Qed.

Lemma b64_dict_find_set (k k' v : binary64) (d : dict) :
  dict_find k (dict_set k' v d)
  = if feqb k k' then Some v else dict_find k d.
Proof.
  induction d as [|[k1 v1] d IH]; simpl; [reflexivity|].
  destruct (feqb k' k1) eqn:E1; simpl.
  - rewrite (b64_feqb_compat k k' k1 E1). destruct (feqb k k1); reflexivity.
  - rewrite IH. destruct (feqb k k1) eqn:E2, (feqb k k') eqn:E3; try reflexivity.
    exfalso. rewrite b64_feqb_sym in E3.
    rewrite (b64_feqb_trans k' k k1 E3 E2) in E1. discriminate.
Qed.

Lemma b64_dict_of_snoc (kvs : list (binary64 * binary64)) (k v : binary64) :
  dict_of (kvs ++ [(k, v)]) = dict_set k v (dict_of kvs).
Proof.
  unfold dict_of. rewrite fold_left_app. reflexivity.
Qed.

Lemma b64_dict_of_find (f : binary64 -> binary64) (ps : list binary64) (p a : binary64) :
  In a ps -> feqb p a = true ->
  exists p', In p' ps /\ feqb p p' = true /\
    dict_find p (dict_of (map (fun k => (k, f k)) ps)) = Some (f p').
Proof.
  induction ps as [|b ps IH] using rev_ind; intros Hin Ha; [contradiction|].
  rewrite map_app. simpl map. rewrite b64_dict_of_snoc, b64_dict_find_set.
  destruct (feqb p b) eqn:E.
  - exists b. split; [apply in_or_app; right; left; reflexivity|].
    split; [exact E|reflexivity].
  - apply in_app_or in Hin. destruct Hin as [Hin|[->|[]]].
    + destruct (IH Hin Ha) as (p' & Hp' & Heq & Hf).
      exists p'. split; [apply in_or_app; left; exact Hp'|]. split; assumption.
    + rewrite Ha in E. discriminate.
Qed.

Lemma b64_dict_of_find_distinct (f : binary64 -> binary64) (ps : list binary64)
    (p : binary64) :
  distinct_numbers ps -> In p ps -> is_nan p = false ->
  dict_find p (dict_of (map (fun k => (k, f k)) ps)) = Some (f p).
Proof.
  intros Hd Hin Hp.
  destruct (b64_dict_of_find f ps p p Hin (b64_feqb_refl p Hp)) as (p' & Hp' & Heq & Hf).
  rewrite Hf, (Hd p p' Hin Hp' Heq). reflexivity.
Qed.

Lemma b64_py_set_In (a : binary64) (l : list binary64) : In a (py_set l) -> In a l.
Proof.
  induction l as [|b l IH]; simpl; [auto|].
  intros [->|H]; [left; reflexivity|].
  right. apply IH. apply filter_In in H. tauto.
Qed.

Lemma b64_py_set_complete (a : binary64) (l : list binary64) :
  In a l -> is_nan a = false -> exists a', In a' (py_set l) /\ feqb a' a = true.
Proof.
  intros Hin Ha. induction l as [|b l IH]; simpl; [contradiction|].
  destruct Hin as [->|H].
  - exists a. split; [left; reflexivity|apply b64_feqb_refl, Ha].
  - destruct (IH H) as (a' & Hin & Heq).
    destruct (feqb a' b) eqn:E.
    + exists b. split; [left; reflexivity|].
      apply b64_feqb_trans with a'; [|exact Heq]. rewrite b64_feqb_sym. exact E.
    + exists a'. split; [|exact Heq].
      right. apply filter_In. rewrite E. auto.
Qed.

Lemma b64_py_set_distinct (l : list binary64) : distinct_numbers (py_set l).
Proof.
  induction l as [|c l IH]; intros a b; simpl; [contradiction|].
  intros [->|Ha] [->|Hb] Heq; try reflexivity.
  - apply filter_In in Hb. destruct Hb as [_ Hb].
    rewrite b64_feqb_sym, Heq in Hb. discriminate.
  - apply filter_In in Ha. destruct Ha as [_ Ha].
    rewrite Heq in Ha. discriminate.
  - apply filter_In in Ha, Hb. apply IH; tauto.
Qed.

(** [sorted(set(targets))]: the same numbers, each once. *)
Lemma b64_targets_In (a : binary64) (l : list binary64) :
  In a (sorted (py_set l)) -> In a l.
Proof.
  intro H. apply b64_py_set_In. apply (sort_In fleb). exact H.
Qed.

Lemma b64_targets_complete (a : binary64) (l : list binary64) :
  In a l -> is_nan a = false ->
  exists a', In a' (sorted (py_set l)) /\ feqb a' a = true.
Proof.
  intros H Ha. destruct (b64_py_set_complete a l H Ha) as (a' & Hin & Heq).
  exists a'. split; [apply (sort_In fleb); exact Hin|exact Heq].
Qed.

Lemma b64_targets_distinct (l : list binary64) : distinct_numbers (sorted (py_set l)).
Proof.
  intros a b Ha Hb. apply (b64_py_set_distinct l); apply (sort_In fleb); assumption.
Qed.

Lemma b64_targets_accepted (l : list binary64) :
  all_accepted l -> all_accepted (sorted (py_set l)).
Proof.
  unfold all_accepted. rewrite !Forall_forall.
  intros H a Ha. apply H, b64_targets_In, Ha.
Qed.

Lemma b64_targets_nonempty (l : list binary64) :
  l <> [] -> all_accepted l -> sorted (py_set l) <> [].
Proof.
  intros H Hacc E. destruct l as [|a l]; [contradiction|].
  assert (Ha : is_nan a = false).
  { apply b64_accepted_not_nan. inversion Hacc; assumption. }
  destruct (b64_targets_complete a (a :: l) (or_introl eq_refl) Ha) as (a' & Hin & _).
  rewrite E in Hin. contradiction.
Qed.

(** ** The next milestone *)

Lemma b64_fold_min_spec (l : list binary64) (a : binary64) :
  (forall v, In v (a :: l) -> is_nan v = false) ->
  let m := fold_left (fun m b => if fltb b m then b else m) l a in
  In m (a :: l) /\ forall b, In b (a :: l) -> fle m b.
Proof.
  revert a. induction l as [|c l IH]; intros a Hnn; simpl.
  - split; [left; reflexivity|]. intros b [<-|[]].
    apply b64_fleb_refl, Hnn. left. reflexivity.
  - assert (Ha : is_nan a = false) by (apply Hnn; left; reflexivity).
    assert (Hc : is_nan c = false) by (apply Hnn; right; left; reflexivity).
    set (a' := if fltb c a then c else a).
    assert (Hnn' : forall v, In v (a' :: l) -> is_nan v = false).
    { intros v [<-|Hv]; [subst a'; destruct (fltb c a); assumption|].
      apply Hnn. right. right. exact Hv. }
    destruct (IH a' Hnn') as [Hin Hle].
    split.
    + destruct Hin as [Hin|Hin]; [|right; right; exact Hin].
      rewrite <- Hin. subst a'. destruct (fltb c a); [right; left|left]; reflexivity.
    + assert (Ha' : fle a' a /\ fle a' c).
      { subst a'. destruct (fltb c a) eqn:E.
        - split; [apply b64_fltb_fleb, E|apply b64_fleb_refl, Hc].
        - split; [apply b64_fleb_refl, Ha|apply b64_not_fltb_fleb; assumption]. }
      destruct Ha' as [H1 H2].
      pose proof (Hle _ (or_introl eq_refl)) as H0.
      intros b [<-|[<-|Hb]].
      * apply b64_fleb_trans with a'; assumption.
      * apply b64_fleb_trans with a'; assumption.
      * apply Hle. right. exact Hb.
Qed.

Lemma b64_fold_max_spec (l : list binary64) (a : binary64) :
  (forall v, In v (a :: l) -> is_nan v = false) ->
  let m := fold_left (fun m b => if fltb m b then b else m) l a in
  In m (a :: l) /\ forall b, In b (a :: l) -> fle b m.
Proof.
  revert a. induction l as [|c l IH]; intros a Hnn; simpl.
  - split; [left; reflexivity|]. intros b [<-|[]].
    apply b64_fleb_refl, Hnn. left. reflexivity.
  - assert (Ha : is_nan a = false) by (apply Hnn; left; reflexivity).
    assert (Hc : is_nan c = false) by (apply Hnn; right; left; reflexivity).
    set (a' := if fltb a c then c else a).
    assert (Hnn' : forall v, In v (a' :: l) -> is_nan v = false).
    { intros v [<-|Hv]; [subst a'; destruct (fltb a c); assumption|].
      apply Hnn. right. right. exact Hv. }
    destruct (IH a' Hnn') as [Hin Hle].
    split.
    + destruct Hin as [Hin|Hin]; [|right; right; exact Hin].
      rewrite <- Hin. subst a'. destruct (fltb a c); [right; left|left]; reflexivity.
    + assert (Ha' : fle a a' /\ fle c a').
      { subst a'. destruct (fltb a c) eqn:E.
        - split; [apply b64_fltb_fleb, E|apply b64_fleb_refl, Hc].
        - split; [apply b64_fleb_refl, Ha|apply b64_not_fltb_fleb; assumption]. }
      destruct Ha' as [H1 H2].
      pose proof (Hle _ (or_introl eq_refl)) as H0.
      intros b [<-|[<-|Hb]].
      * apply b64_fleb_trans with a'; assumption.
      * apply b64_fleb_trans with a'; assumption.
      * apply Hle. right. exact Hb.
Qed.

Lemma b64_coach_spec (s rank : binary64) (pop ts : list binary64) :
  ts <> [] -> all_accepted ts ->
  let targets := sorted (py_set ts) in
  let thresholds :=
    dict_of (map (fun p => (p, quantile_linear pop (fdiv p (of_Z 100)))) targets) in
  exists m, coach s rank targets thresholds = Ok m /\ milestone_ok s rank pop ts m.
Proof.
  intros Hts Hacc targets thresholds. unfold coach.
  assert (Hnn : forall v, In v targets -> is_nan v = false).
  { intros v Hv. apply b64_accepted_not_nan.
    pose proof (b64_targets_accepted ts Hacc) as H. unfold all_accepted in H.
    rewrite Forall_forall in H. apply H, Hv. }
  assert (Hnn0 : forall v, In v ts -> is_nan v = false).
  { intros v Hv. apply b64_accepted_not_nan.
    unfold all_accepted in Hacc. rewrite Forall_forall in Hacc. apply Hacc, Hv. }
  destruct (filter (fun p => fltb rank p) targets) as [|h hs] eqn:Eh.
  - destruct targets as [|a l] eqn:Et.
    { exfalso. apply (b64_targets_nonempty ts Hts Hacc). exact Et. }
    simpl. eexists. split; [reflexivity|].
    destruct (b64_fold_max_spec l a Hnn) as [Hin Hmax]. simpl. split.
    + intros t Ht.
      destruct (b64_targets_complete t ts Ht (Hnn0 t Ht)) as (t' & Ht' & Heq).
      fold targets in Ht'. rewrite Et in Ht'.
      rewrite <- (b64_fltb_compat rank t' t Heq).
      destruct (fltb rank t') eqn:E; [|reflexivity].
      assert (Hf : In t' (filter (fun p => fltb rank p) (a :: l)))
        by (apply filter_In; auto).
      rewrite Eh in Hf. contradiction.
    + split.
      * apply b64_targets_In. fold targets. rewrite Et. exact Hin.
      * intros t Ht.
        destruct (b64_targets_complete t ts Ht (Hnn0 t Ht)) as (t' & Ht' & Heq).
        fold targets in Ht'. rewrite Et in Ht'.
        apply b64_fleb_trans with t'; [|apply Hmax, Ht'].
        apply b64_feqb_fleb. rewrite b64_feqb_sym. exact Heq.
  - simpl py_min. cbn [bind].
    assert (Hnnh : forall v, In v (h :: hs) -> is_nan v = false).
    { intros v Hv. rewrite <- Eh in Hv. apply filter_In in Hv. apply Hnn, Hv. }
    destruct (b64_fold_min_spec hs h Hnnh) as [Hin Hmin].
    set (next_p := fold_left (fun m b => if fltb b m then b else m) hs h) in *.
    rewrite <- Eh in Hin, Hmin.
    apply filter_In in Hin. destruct Hin as [HinT Habove].
    assert (Hnext : next_target rank ts next_p).
    { split; [apply b64_targets_In, HinT|]. split; [exact Habove|].
      intros t Ht Hlt.
      destruct (b64_targets_complete t ts Ht (Hnn0 t Ht)) as (t' & Ht' & Heq).
      apply b64_fleb_trans with t'; [|apply b64_feqb_fleb, Heq].
      apply Hmin, filter_In. split; [exact Ht'|].
      rewrite (b64_fltb_compat rank t' t Heq). exact Hlt. }
    assert (Hp : np_percentile pop next_p
                 = Ok (quantile_linear pop (fdiv next_p (of_Z 100)))).
    { apply b64_np_percentile_accepted.
      pose proof (b64_targets_accepted ts Hacc) as H. unfold all_accepted in H.
      rewrite Forall_forall in H. apply H, HinT. }
    unfold dict_get, thresholds.
    rewrite (b64_dict_of_find_distinct _ targets next_p (b64_targets_distinct ts) HinT
               (Hnn _ HinT)).
    cbn [bind].
    destruct (fleb (fsub (quantile_linear pop (fdiv next_p (of_Z 100))) s) zero) eqn:Eg.
    + eexists. split; [reflexivity|]. simpl. split; [exact Hnext|].
      eexists. split; [exact Hp|exact Eg].
    + eexists. split; [reflexivity|]. simpl. auto.
Qed.

Lemma b64_format_f_ok (decimals : Z) : valid_decimals decimals -> format_f decimals = Ok tt.
Proof.
  unfold valid_decimals, format_f. intro H.
  destruct (decimals <? 0)%Z eqn:E1; [lia|].
  destruct (decimals <=? 2147483647)%Z eqn:E2; [reflexivity|lia].
Qed.

Lemma b64_goal_maker_runs (score : binary64) (x : list raw) (ts : list binary64)
    (decimals : Z) (tie_method : string) (rank : binary64) :
  clean x <> [] -> ts <> [] -> all_accepted ts -> valid_decimals decimals ->
  percentile_rank tie_method score (clean x) = Ok rank ->
  exists m,
    goal_maker score x ts decimals tie_method
    = Ok (GoalMaker {|
        r_n := List.length (clean x);
        r_score := score;
        r_percentile_rank := rank;
        r_tie_method := tie_method;
        r_targets :=
          dict_of (map (fun p => (p, quantile_linear (clean x) (fdiv p (of_Z 100))))
                       (sorted (py_set ts)));
        r_milestone := m |}) /\
    milestone_ok score rank (clean x) ts m.
Proof.
  intros Hx Hts Hacc Hd Hrank.
  destruct (b64_coach_spec score rank (clean x) ts Hts Hacc) as (m & Hm & Hok).
  exists m. split; [|exact Hok].
  unfold goal_maker. rewrite (b64_clean_length x Hx), Hrank. cbn [bind].
  rewrite (b64_percentile_items_ok _ _ (b64_targets_accepted ts Hacc)). cbn [bind].
  rewrite (b64_format_f_ok decimals Hd). cbn [bind].
  rewrite Hm. reflexivity.
Qed.

(** ** analyze_array on a non-empty sample *)

Lemma b64_analyze_array_runs (L : library) (x : list raw) (ps : list binary64)
    (decimals : Z) :
  clean x <> [] -> all_accepted ps -> valid_decimals decimals ->
  exists r,
    analyze_array L x ps decimals = Ok (Described r) /\
    Count r = List.length (clean x) /\
    Mean r = np_mean L (clean x) /\
    Standard_Deviation r = np_std L (clean x) 1 /\
    Percentile r
      = map (fun p => (p, quantile_linear (clean x) (fdiv p (of_Z 100)))) ps /\
    ks_z r = map (fun v => fdiv (fsub v (Mean r)) (Standard_Deviation r)) (clean x) /\
    (ks_stat r, p_value r) = kstest_norm L (ks_z r) /\
    critical_value r
      = fdiv (fdiv (of_Z 136) (of_Z 100)) (fsqrt (of_nat (List.length (clean x)))) /\
    outcome r = if fltb (critical_value r) (ks_stat r) then Reject_NotNormal
                else FailToReject_TreatAsNormal.
Proof.
  intros Hx Hacc Hd. unfold analyze_array.
  rewrite (b64_clean_length x Hx), (b64_percentile_items_ok _ _ Hacc).
  rewrite (b64_format_f_ok decimals Hd).
  destruct (clean x) as [|a l] eqn:E; [contradiction|].
  unfold np_min, np_max, reduce. cbn [bind].
  destruct (kstest_norm L _) as [ks pv] eqn:Ek.
  eexists. split; [reflexivity|]. cbn.
  repeat (split; [reflexivity|]). split; [|split; reflexivity].
  symmetry. exact Ek.
Qed.

(** ** Dividing by a zero deviation *)

Lemma b64_fdiv_by_zero (d z0 : binary64) :
  is_zero z0 = true ->
  if is_zero d || is_nan d then fdiv d z0 = nan
  else exists s, fdiv d z0 = S754_infinity s.
Proof.
  destruct z0 as [s0| | |]; try discriminate. intros _.
  destruct d as [s|s| |s m e]; simpl; try reflexivity; eexists; reflexivity.
Qed.

Lemma b64_standardized_by_zero (x : list binary64) (mean std : binary64) :
  is_zero std = true ->
  Forall (fun z => is_finite z = false) (map (fun v => fdiv (fsub v mean) std) x) /\
  Forall (fun v =>
            if is_zero (fsub v mean) || is_nan (fsub v mean)
            then fdiv (fsub v mean) std = nan
            else exists s, fdiv (fsub v mean) std = S754_infinity s) x.
Proof.
  intro Hstd. split.
  - apply Forall_forall. intros z Hz. apply in_map_iff in Hz.
    destruct Hz as (v & <- & _).
    pose proof (b64_fdiv_by_zero (fsub v mean) std Hstd) as H.
    destruct (is_zero (fsub v mean) || is_nan (fsub v mean)).
    + rewrite H. reflexivity.
    + destruct H as [s ->]. reflexivity.
  - apply Forall_forall. intros v _. apply b64_fdiv_by_zero, Hstd.
Qed.

(** C5 as stated fails: on four equal values nothing is raised, whatever
    the libraries return; with sums taken from left to right the standard
    deviation is zero and the four standardized values are NaN. *)
Lemma identical_values_no_error :
  let x := [RNum (of_Z 5); RNum (of_Z 5); RNum (of_Z 5); RNum (of_Z 5)] in
  (forall L : library, exists r,
     analyze_array L x default_percentiles 4 = Ok (Described r)) /\
  (exists r,
     analyze_array left_to_right x default_percentiles 4 = Ok (Described r) /\
     Standard_Deviation r = zero /\ ks_z r = [nan; nan; nan; nan]).
Proof.
  intro x. split.
  - intro L.
    destruct (b64_analyze_array_runs L x default_percentiles 4) as (r & Hr & _).
    + discriminate.
    + repeat constructor.
    + unfold valid_decimals. lia.
    + exists r. exact Hr.
  - eexists. split; [vm_compute; reflexivity|]. split; reflexivity.
Qed.

(** C5, amended. When the sample standard deviation is zero no error is
    raised: every value is standardized by a division by zero, which gives
    NaN where the deviation from the mean is zero and an infinity elsewhere,
    never a finite number; the Kolmogorov-Smirnov routine is called on that
    array, the critical value is 1.36 / sqrt(n), and the verdict is "not
    normal" only if the statistic compares above it. *)
Theorem zero_deviation_standardizes_to_non_finite
    (L : library) (x : list raw) (ps : list binary64) (decimals : Z) :
  clean x <> [] -> all_accepted ps -> valid_decimals decimals ->
  is_zero (np_std L (clean x) 1) = true ->
  exists r,
    analyze_array L x ps decimals = Ok (Described r) /\
    is_zero (Standard_Deviation r) = true /\
    ks_z r = map (fun v => fdiv (fsub v (Mean r)) (Standard_Deviation r)) (clean x) /\
    Forall (fun z => is_finite z = false) (ks_z r) /\
    Forall (fun v =>
              if is_zero (fsub v (Mean r)) || is_nan (fsub v (Mean r))
              then fdiv (fsub v (Mean r)) (Standard_Deviation r) = nan
              else exists s,
                fdiv (fsub v (Mean r)) (Standard_Deviation r) = S754_infinity s)
           (clean x) /\
    (ks_stat r, p_value r) = kstest_norm L (ks_z r) /\
    critical_value r
      = fdiv (fdiv (of_Z 136) (of_Z 100)) (fsqrt (of_nat (List.length (clean x)))) /\
    outcome r = if fltb (critical_value r) (ks_stat r) then Reject_NotNormal
                else FailToReject_TreatAsNormal.
Proof.
  intros Hx Hacc Hd Hstd.
  destruct (b64_analyze_array_runs L x ps decimals Hx Hacc Hd)
    as (r & Hrun & _ & Hm & Hsd & _ & Hz & Hks & Hcv & Hout).
  rewrite <- Hsd in Hstd.
  destruct (b64_standardized_by_zero (clean x) (Mean r) (Standard_Deviation r) Hstd)
    as [Hnf Hall].
  exists r. split; [exact Hrun|]. split; [exact Hstd|]. split; [exact Hz|].
  split; [rewrite Hz; exact Hnf|]. split; [exact Hall|].
  split; [exact Hks|]. split; [exact Hcv|exact Hout].
Qed.

Lemma zero_deviation_standardizes_to_non_finite_witness :
  let x := [RNum (of_Z 5); RNone; RNum (of_Z 5); RNum (of_Z 5)] in
  (clean x <> [] /\ all_accepted default_percentiles /\ valid_decimals 4 /\
   is_zero (np_std left_to_right (clean x) 1) = true) /\
  exists r,
    analyze_array left_to_right x default_percentiles 4 = Ok (Described r) /\
    is_zero (Standard_Deviation r) = true /\
    ks_z r = map (fun v => fdiv (fsub v (Mean r)) (Standard_Deviation r)) (clean x) /\
    Forall (fun z => is_finite z = false) (ks_z r) /\
    Forall (fun v =>
              if is_zero (fsub v (Mean r)) || is_nan (fsub v (Mean r))
              then fdiv (fsub v (Mean r)) (Standard_Deviation r) = nan
              else exists s,
                fdiv (fsub v (Mean r)) (Standard_Deviation r) = S754_infinity s)
           (clean x) /\
    (ks_stat r, p_value r) = kstest_norm left_to_right (ks_z r) /\
    critical_value r
      = fdiv (fdiv (of_Z 136) (of_Z 100)) (fsqrt (of_nat (List.length (clean x)))) /\
    outcome r = if fltb (critical_value r) (ks_stat r) then Reject_NotNormal
                else FailToReject_TreatAsNormal.
Proof.
  intro x. split.
  - split; [discriminate|]. split; [repeat constructor|].
    split; [unfold valid_decimals; lia|reflexivity].
  - apply (zero_deviation_standardizes_to_non_finite left_to_right x
             default_percentiles 4).
    + discriminate.
    + repeat constructor.
    + unfold valid_decimals. lia.
    + reflexivity.
Defined.

(** Three equal tiny values: the mean is not the value, the deviation is
    zero all the same, and the standardized values are infinities. *)
Lemma tiny_equal_values_standardize_to_infinity :
  let c := fmul (fdiv (of_Z 1) (of_Z 10)) (S754_finite false 1 (-700)) in
  let x := [RNum c; RNum c; RNum c] in
  exists r,
    analyze_array left_to_right x [] 4 = Ok (Described r) /\
    feqb (Mean r) c = false /\
    Standard_Deviation r = zero /\
    ks_z r = [S754_infinity true; S754_infinity true; S754_infinity true].
Proof.
  eexists. split; [vm_compute; reflexivity|]. repeat split.
Qed.

(** ** The next milestone, on the rank as computed *)

Lemma b64_percentile_rank_eval (s : binary64) (x : list binary64) :
  percentile_rank "strict" s x
    = Ok (fmul (of_Z 100) (fdiv (of_nat (count_lt s x)) (of_nat (List.length x)))) /\
  percentile_rank "weak" s x
    = Ok (fmul (of_Z 100) (fdiv (of_nat (count_le s x)) (of_nat (List.length x)))) /\
  percentile_rank "mean" s x
    = Ok (fmul (of_Z 100)
            (fdiv (fdiv (of_nat (count_lt s x + count_le s x)) (of_Z 2))
                  (of_nat (List.length x)))).
Proof.
  repeat split.
Qed.

(** C9 as stated fails for the empty target set: no target is above the
    rank, and the last line takes [max] of no targets, a [ValueError]. *)
Lemma no_targets_raises :
  exists msg,
    goal_maker (of_Z 95) [RNum (of_Z 90); RNum (of_Z 99)] [] 2 "mean"
    = Raise (ValueError msg).
Proof.
  eexists. reflexivity.
Qed.

(** C9, amended. For a non-empty cleaned population, any score and a
    non-empty set of targets that [np.percentile] accepts, the milestone is
    the smallest target strictly above the mean-policy rank as the code
    computes it, [100.0 * (((lt + le) / 2) / n)] in double precision, with
    gap equal to its threshold minus the score, reported as already reached
    when the gap is not positive; when no target is above that rank it is
    the at-the-highest-target state, naming the largest target. *)
Theorem next_milestone_selection
    (score : binary64) (x : list raw) (ts : list binary64) (decimals : Z) :
  clean x <> [] -> ts <> [] -> all_accepted ts -> valid_decimals decimals ->
  exists r,
    goal_maker score x ts decimals "mean" = Ok (GoalMaker r) /\
    r_percentile_rank r
      = fmul (of_Z 100)
          (fdiv (fdiv (of_nat (count_lt score (clean x) + count_le score (clean x)))
                      (of_Z 2))
                (of_nat (List.length (clean x)))) /\
    milestone_ok score (r_percentile_rank r) (clean x) ts (r_milestone r).
Proof.
  intros Hx Hts Hacc Hd.
  destruct (b64_percentile_rank_eval score (clean x)) as (_ & _ & Hm).
  destruct (b64_goal_maker_runs score x ts decimals "mean" _ Hx Hts Hacc Hd Hm)
    as (m & Hg & Hok).
  eexists. split; [exact Hg|]. split; [reflexivity|exact Hok].
Qed.

Lemma next_milestone_selection_witness :
  let x := [RNum (of_Z 10); RNum (of_Z 20); RNum (of_Z 30)] in
  (clean x <> [] /\ default_targets <> [] /\ all_accepted default_targets /\
   valid_decimals 2) /\
  exists r,
    goal_maker (of_Z 20) x default_targets 2 "mean" = Ok (GoalMaker r) /\
    r_percentile_rank r
      = fmul (of_Z 100)
          (fdiv (fdiv (of_nat (count_lt (of_Z 20) (clean x)
                               + count_le (of_Z 20) (clean x)))
                      (of_Z 2))
                (of_nat (List.length (clean x)))) /\
    milestone_ok (of_Z 20) (r_percentile_rank r) (clean x) default_targets
      (r_milestone r).
Proof.
  intro x. split.
  - split; [discriminate|]. split; [discriminate|].
    split; [repeat constructor|unfold valid_decimals; lia].
  - apply (next_milestone_selection (of_Z 20) x default_targets 2).
    + discriminate.
    + discriminate.
    + repeat constructor.
    + unfold valid_decimals. lia.
Defined.

(** At a boundary the rounding of the rank decides: for the integers 1 to
    100 and the score 29.5 the rank is computed just below 29, so the one
    target 29 is still the next milestone. *)
Lemma milestone_at_rounded_rank :
  exists r thr gap,
    goal_maker (fdiv (of_Z 59) (of_Z 2)) population_1_100 [of_Z 29] 2 "mean"
      = Ok (GoalMaker r) /\
    fltb (r_percentile_rank r) (of_Z 29) = true /\
    r_milestone r = AimFor (of_Z 29) thr gap.
Proof.
  remember (goal_maker (fdiv (of_Z 59) (of_Z 2)) population_1_100 [of_Z 29] 2 "mean")
    as g eqn:E.
  vm_compute in E. subst g.
  do 3 eexists. repeat split.
Qed.

(** ** The percentile method *)







(** ** Rank of a threshold *)




(** The threshold of the three values above does lie between its two
    order statistics, and the two counts are then both 1. *)
Lemma threshold_rank_counts_example :
  let pop := clean [RNum (of_Z 0); RNum (of_Z 10); RNum (of_Z 20)] in
  let s := np_sort pop in
  exists t,
    np_percentile pop (of_Z 40) = Ok t /\
    (below 3 (of_Z 40) = 0 /\ above 3 (of_Z 40) = 1)%nat /\
    fle (nth 0 s nan) t /\ fle t (nth 1 s nan) /\
    (count_le t pop = 1 /\ count_lt t pop = 1)%nat.
Proof.
  eexists. split; [vm_compute; reflexivity|]. repeat split.
Qed.

(** On an overflow the threshold leaves its bracket: for the two values
    [-1e308] and [1e308] the threshold at 25 is [+inf], above both, and
    both values are strictly below it. *)
Lemma threshold_outside_bracket_on_overflow :
  let big := of_Z (10 ^ 308) in
  let pop := clean [RNum (SFopp big); RNum big] in
  np_percentile pop (of_Z 25) = Ok infinity /\
  fleb infinity (nth (above 2 (of_Z 25)) (np_sort pop) nan) = false /\
  (count_lt infinity pop = 2 /\ above 2 (of_Z 25) = 1)%nat.
Proof.
  vm_compute. repeat split.
Qed.

(** ** When the two functions raise *)

Lemma b64_percentile_rank_cases (tie_method : string) (s : binary64) (x : list binary64) :
  (exists rank, percentile_rank tie_method s x = Ok rank /\
     (tie_method = "strict" \/ tie_method = "weak" \/ tie_method = "mean")%string) \/
  (exists msg, percentile_rank tie_method s x = Raise (ValueError msg) /\
     tie_method <> "strict"%string /\ tie_method <> "weak"%string /\
     tie_method <> "mean"%string).
Proof.
  unfold percentile_rank.
  destruct (String.eqb_spec tie_method "strict") as [E1|E1];
    [left; eexists; split; [reflexivity|auto]|].
  destruct (String.eqb_spec tie_method "weak") as [E2|E2];
    [left; eexists; split; [reflexivity|auto]|].
  destruct (String.eqb_spec tie_method "mean") as [E3|E3];
    [left; eexists; split; [reflexivity|auto]|].
  right. eexists. split; [reflexivity|auto].
Qed.

Lemma b64_percentile_items_cases (x ps : list binary64) :
  (all_accepted ps /\
   percentile_items x ps
   = Ok (map (fun p => (p, quantile_linear x (fdiv p (of_Z 100)))) ps)) \/
  ((exists p, In p ps /\ accepted p = false) /\
   exists msg, percentile_items x ps = Raise (ValueError msg)).
Proof.
  induction ps as [|p ps IH].
  - left. split; [constructor|reflexivity].
  - destruct (accepted p) eqn:Ep.
    + destruct IH as [[Hacc Hok]|[(q & Hq & Eq) (msg & Hmsg)]].
      * left. split; [constructor; assumption|].
        apply b64_percentile_items_ok. constructor; assumption.
      * right. split; [exists q; split; [right; exact Hq|exact Eq]|].
        exists msg. unfold percentile_items in *. simpl.
        unfold np_percentile at 1. rewrite Ep. cbn [bind]. rewrite Hmsg. reflexivity.
    + right. split; [exists p; split; [left; reflexivity|exact Ep]|].
      eexists. unfold percentile_items. simpl.
      unfold np_percentile at 1. rewrite Ep. reflexivity.
Qed.

Lemma b64_format_f_cases (decimals : Z) :
  (valid_decimals decimals /\ format_f decimals = Ok tt) \/
  (~ valid_decimals decimals /\ exists msg, format_f decimals = Raise (ValueError msg)).
Proof.
  unfold valid_decimals, format_f.
  destruct (decimals <? 0)%Z eqn:E1.
  - right. split; [lia|eexists; reflexivity].
  - destruct (decimals <=? 2147483647)%Z eqn:E2.
    + left. split; [lia|reflexivity].
    + right. split; [lia|eexists; reflexivity].
Qed.

Lemma b64_py_set_keeps_nan (a : binary64) (l : list binary64) :
  In a l -> is_nan a = true -> In a (py_set l).
Proof.
  intros Hin Ha. induction l as [|b l IH]; simpl; [contradiction|].
  destruct Hin as [->|H]; [left; reflexivity|].
  right. apply filter_In. split; [apply IH, H|].
  destruct a; try discriminate. reflexivity.
Qed.

(** A target that [np.percentile] refuses is still refused after
    [sorted(set(targets))]. *)
Lemma b64_targets_refused (ts : list binary64) (p : binary64) :
  In p ts -> accepted p = false ->
  exists p', In p' (sorted (py_set ts)) /\ accepted p' = false.
Proof.
  intros Hin Hp. destruct (is_nan p) eqn:En.
  - exists p. split; [|exact Hp].
    apply (sort_In fleb). apply b64_py_set_keeps_nan; assumption.
  - destruct (b64_targets_complete p ts Hin En) as (p' & Hp' & Heq).
    exists p'. split; [exact Hp'|].
    destruct (b64_feqb_eq p' p Heq) as [->|[Hz' Hz]]; [exact Hp|].
    destruct p as [[]| | |]; discriminate.
Qed.

(** X8. [goal_maker] on a non-empty cleaned population raises [ValueError]
    whenever the tie method is not one of the three names, a target is
    refused by [np.percentile], no target is given, or [decimals] is
    not a precision that a float format accepts. *)
Theorem goal_maker_raises_when
    (score : binary64) (x : list raw) (ts : list binary64) (decimals : Z)
    (tie_method : string) :
  clean x <> [] ->
  (tie_method <> "strict" /\ tie_method <> "weak" /\ tie_method <> "mean")%string \/
  (exists p, In p ts /\ accepted p = false) \/
  ts = [] \/
  ~ valid_decimals decimals ->
  exists msg, goal_maker score x ts decimals tie_method = Raise (ValueError msg).
Proof.
  intros Hx Hbad. unfold goal_maker. rewrite (b64_clean_length x Hx).
  destruct (b64_percentile_rank_cases tie_method score (clean x))
    as [(rank & -> & Htie)|(msg & -> & Htie)]; [|exists msg; reflexivity].
  cbn [bind].
  destruct (b64_percentile_items_cases (clean x) (sorted (py_set ts)))
    as [[Hacc ->]|[_ (msg & ->)]]; [|exists msg; reflexivity].
  cbn [bind].
  destruct (b64_format_f_cases decimals) as [[Hd ->]|[_ (msg & ->)]];
    [|exists msg; reflexivity].
  cbn [bind].
  destruct Hbad as [(H1 & H2 & H3)|[(p & Hp & Ep)|[->|Hnd]]].
  - exfalso. destruct Htie as [E|[E|E]]; contradiction.
  - exfalso. destruct (b64_targets_refused ts p Hp Ep) as (p' & Hp' & Ep').
    unfold all_accepted in Hacc. rewrite Forall_forall in Hacc.
    rewrite (Hacc p' Hp') in Ep'. discriminate.
  - eexists. reflexivity.
  - contradiction.
Qed.

Lemma goal_maker_raises_when_witness :
  let x := [RNum (of_Z 10); RNum (of_Z 20); RNum (of_Z 30)] in
  (clean x <> [] /\ ~ valid_decimals (-1)) /\
  exists msg, goal_maker (of_Z 20) x default_targets (-1) "mean"
              = Raise (ValueError msg).
Proof.
  intro x. split.
  - split; [discriminate|]. unfold valid_decimals. lia.
  - apply (goal_maker_raises_when (of_Z 20) x default_targets (-1) "mean").
    + discriminate.
    + right. right. right. unfold valid_decimals. lia.
Defined.

(** X9. [analyze_array] on a non-empty cleaned sample raises [ValueError]
    whenever a requested percentile is refused by [np.percentile] or
    [decimals] is not a precision that a float format accepts. *)
Theorem analyze_array_raises_when
    (L : library) (x : list raw) (ps : list binary64) (decimals : Z) :
  clean x <> [] ->
  (exists p, In p ps /\ accepted p = false) \/ ~ valid_decimals decimals ->
  exists msg, analyze_array L x ps decimals = Raise (ValueError msg).
Proof.
  intros Hx Hbad. unfold analyze_array. rewrite (b64_clean_length x Hx).
  destruct (clean x) as [|a l] eqn:E; [contradiction|].
  unfold np_min, np_max, reduce. cbn [bind].
  destruct (b64_percentile_items_cases (a :: l) ps)
    as [[Hacc ->]|[_ (msg & ->)]]; [|exists msg; reflexivity].
  cbn [bind]. destruct (kstest_norm L _) as [ks pv].
  destruct (b64_format_f_cases decimals) as [[Hd ->]|[_ (msg & ->)]];
    [|exists msg; reflexivity].
  exfalso. destruct Hbad as [(p & Hp & Ep)|Hnd]; [|contradiction].
  unfold all_accepted in Hacc. rewrite Forall_forall in Hacc.
  rewrite (Hacc p Hp) in Ep. discriminate.
Qed.

Lemma analyze_array_raises_when_witness :
  let x := [RNum (of_Z 10); RNum (of_Z 20); RNum (of_Z 30)] in
  (clean x <> [] /\ exists p, In p [of_Z 50; of_Z 101] /\ accepted p = false) /\
  exists msg, analyze_array left_to_right x [of_Z 50; of_Z 101] 4
              = Raise (ValueError msg).
Proof.
  intro x. split.
  - split; [discriminate|]. exists (of_Z 101). split; [right; left|]; reflexivity.
  - apply (analyze_array_raises_when left_to_right x [of_Z 50; of_Z 101] 4).
    + discriminate.
    + left. exists (of_Z 101). split; [right; left|]; reflexivity.
Defined.
End Binary64.
